(** * scriptgenerator: recorded browser events to a Playwright script

    A shallow embedding of the safety-relevant parts of the pipeline
    (steps_preprocessor.py, intent_generator.py, intent_validator.py,
    ast_converter.py, javascript_code_generator.py,
    javascript_code_tester.py, main.py) and the properties checked
    against it.

    Conventions of the embedding.
    - A Python [str] is a Rocq [string]; a character stands for the code
      point of the same number (0..255).  The text decoded from a
      percent-encoded query can hold any code point and is a list of
      code points ([Urllib.ustr]).
    - A dict with a fixed set of keys read through [.get(key, default)] is
      a record whose field holds the default when the key is absent.
    - [None] is [None]; Python truthiness is written out ([truthy]).  A
      value of the recording is a string or null, which is [None].
    - A call that may raise returns an [outcome].
    - An object with mutable attributes is a record passed in and out.
    - [print] calls have no counterpart. *)

From Stdlib Require Import Bool Arith ZArith Lia List Ascii String DecimalString.
From Stdlib Require Import Permutation Sorted.
Import ListNotations.
Local Open Scope list_scope.
Local Open Scope string_scope.
Local Open Scope nat_scope.

(* ===================================================================== *)
(** ** Python built-ins used by the sources *)
(* ===================================================================== *)

Module Py.

(** The double quote and the control characters that the templates and
    the escapes of the sources mention. *)
Definition DQ : string := String "034" EmptyString.
Definition NL : string := String "010" EmptyString.
Definition CR : string := String "013" EmptyString.
Definition TAB : string := String "009" EmptyString.

Definition code (c : ascii) : nat := nat_of_ascii c.

Definition between (lo hi : nat) (c : ascii) : bool :=
  (lo <=? code c) && (code c <=? hi).

Definition is_lower_az (c : ascii) : bool := between 97 122 c.
Definition is_upper_AZ (c : ascii) : bool := between 65 90 c.
Definition is_ascii_letter (c : ascii) : bool := is_lower_az c || is_upper_AZ c.
Definition is_ascii_digit (c : ascii) : bool := between 48 57 c.

(** [str.isspace] on one character, which is also the class [\s] of [re]
    for str patterns: 09-0D, 1C-1F, 20, 85, A0. *)
Definition isspace (c : ascii) : bool :=
  between 9 13 c || between 28 32 c || (code c =? 133) || (code c =? 160).

(** The class [\w] of [re] for str patterns. *)
Definition isword (c : ascii) : bool :=
  is_ascii_letter c || is_ascii_digit c || (code c =? 95)
  || (code c =? 170) || (code c =? 178) || (code c =? 179) || (code c =? 181)
  || (code c =? 185) || (code c =? 186) || between 188 190 c
  || between 192 214 c || between 216 246 c || between 248 255 c.

(** [str.lower] on one character. *)
Definition lower_char (c : ascii) : ascii :=
  if is_upper_AZ c || between 192 214 c || between 216 222 c
  then ascii_of_nat (code c + 32) else c.

Fixpoint lower (s : string) : string :=
  match s with
  | EmptyString => EmptyString
  | String c s' => String (lower_char c) (lower s')
  end.

(** Truthiness of a str and of an Optional[str]. *)
Definition nonempty (s : string) : bool :=
  match s with EmptyString => false | _ => true end.

Definition truthy (o : option string) : bool :=
  match o with Some s => nonempty s | None => false end.

(** [a or b] on strings. *)
Definition str_or (a b : string) : string := if nonempty a then a else b.

Fixpoint rev_string (s : string) : string :=
  match s with
  | EmptyString => EmptyString
  | String c s' => rev_string s' ++ String c EmptyString
  end.

(** [str.lstrip()], [str.rstrip()], [str.strip()]. *)
Fixpoint lstrip (s : string) : string :=
  match s with
  | EmptyString => EmptyString
  | String c s' => if isspace c then lstrip s' else s
  end.

Fixpoint rstrip (s : string) : string :=
  match s with
  | EmptyString => EmptyString
  | String c s' =>
      match rstrip s' with
      | EmptyString => if isspace c then EmptyString else String c EmptyString
      | t => String c t
      end
  end.

Definition strip (s : string) : string := rstrip (lstrip s).

(** [str.split()] with no argument: the maximal runs of non-space
    characters.  [cur] is the run being read, reversed. *)
Fixpoint split_ws_aux (cur : string) (s : string) : list string :=
  match s with
  | EmptyString =>
      match cur with EmptyString => [] | _ => [rev_string cur] end
  | String c s' =>
      if isspace c
      then match cur with
           | EmptyString => split_ws_aux EmptyString s'
           | _ => rev_string cur :: split_ws_aux EmptyString s'
           end
      else split_ws_aux (String c cur) s'
  end.

Definition split_ws (s : string) : list string := split_ws_aux EmptyString s.

(** [s.startswith(p)]. *)
Fixpoint startswith (s p : string) : bool :=
  match p, s with
  | EmptyString, _ => true
  | String _ _, EmptyString => false
  | String a p', String b s' => Ascii.eqb a b && startswith s' p'
  end.

(** [sub in s]. *)
Fixpoint contains (sub s : string) : bool :=
  startswith s sub
  || match s with
     | EmptyString => false
     | String _ s' => contains sub s'
     end.

(** [s.find(sub)] counted from the head of [s]: [None] stands for -1. *)
Fixpoint find_nat (sub s : string) : option nat :=
  if startswith s sub then Some 0
  else match s with
       | EmptyString => None
       | String _ s' => option_map S (find_nat sub s')
       end.

Fixpoint drop (n : nat) (s : string) : string :=
  match n, s with
  | O, _ => s
  | S n', String _ s' => drop n' s'
  | S _, EmptyString => EmptyString
  end.

Fixpoint take (n : nat) (s : string) : string :=
  match n, s with
  | S n', String c s' => String c (take n' s')
  | _, _ => EmptyString
  end.

(** [s.find(sub, start)] for [start >= 0]; -1 when there is no match. *)
Definition find (sub s : string) (start : Z) : Z :=
  if (Z.of_nat (String.length s) <? start)%Z then (-1)%Z
  else match find_nat sub (drop (Z.to_nat start) s) with
       | Some k => (start + Z.of_nat k)%Z
       | None => (-1)%Z
       end.

(** A slice bound as Python normalises it: negative bounds count from the
    end, and the result is clamped to [0, len]. *)
Definition clamp (len i : Z) : Z :=
  let j := if (i <? 0)%Z then (i + len)%Z else i in
  Z.max 0 (Z.min len j).

(** [s[start:stop]]. *)
Definition slice (s : string) (start stop : Z) : string :=
  let len := Z.of_nat (String.length s) in
  let a := clamp len start in
  let b := clamp len stop in
  take (Z.to_nat (b - a)) (drop (Z.to_nat a) s).

(** [s.replace(c, new)] for a one-character [c]. *)
Fixpoint replace (c : ascii) (new : string) (s : string) : string :=
  match s with
  | EmptyString => EmptyString
  | String a s' =>
      if Ascii.eqb a c then new ++ replace c new s'
      else String a (replace c new s')
  end.

(** [s.count(c)] for a one-character [c]. *)
Fixpoint count (c : ascii) (s : string) : nat :=
  match s with
  | EmptyString => 0
  | String a s' => (if Ascii.eqb a c then 1 else 0) + count c s'
  end.

(** [sep.join(l)]. *)
Fixpoint join (sep : string) (l : list string) : string :=
  match l with
  | [] => EmptyString
  | [x] => x
  | x :: rest => x ++ sep ++ join sep rest
  end.

(** [x in l] for a list of strings. *)
Definition in_list (x : string) (l : list string) : bool :=
  existsb (String.eqb x) l.

(** [str(n)] and the f-string rendering of an int. *)
Definition str_of_Z (z : Z) : string := NilZero.string_of_int (Z.to_int z).
Definition str_of_nat (n : nat) : string := str_of_Z (Z.of_nat n).

(** Optional[str] compared with [==]. *)
Definition opt_eqb (a b : option string) : bool :=
  match a, b with
  | Some x, Some y => String.eqb x y
  | None, None => true
  | _, _ => false
  end.

(** [s.split(c, 1)] as the part before the first [c] and, when there is
    one, the part behind it. *)
Fixpoint split_once (c : ascii) (s : string) : string * option string :=
  match s with
  | EmptyString => (EmptyString, None)
  | String a s' =>
      if Ascii.eqb a c then (EmptyString, Some s')
      else let '(h, t) := split_once c s' in (String a h, t)
  end.

(** [s.split(c)] *)
Fixpoint split_all (c : ascii) (s : string) : list string :=
  match s with
  | EmptyString => [EmptyString]
  | String a s' =>
      if Ascii.eqb a c then EmptyString :: split_all c s'
      else match split_all c s' with
           | h :: t => String a h :: t
           | [] => [String a EmptyString]
           end
  end.

(** A literal in which a backquote stands for the double quote. *)
Definition js_quotes (template : string) : string := replace "`" DQ template.

(** [l.append(x)] *)
Definition append {A : Type} (l : list A) (x : A) : list A := (l ++ [x])%list.

(** [l[-1]] of a list, when there is one. *)
Fixpoint last_opt {A : Type} (l : list A) : option A :=
  match l with
  | [] => None
  | [x] => Some x
  | _ :: rest => last_opt rest
  end.

(** A dict whose keys are strings, in insertion order (the order in
    which [items()] yields them, which [urlencode] writes out). *)
Definition dict (V : Type) : Type := list (string * V).

Fixpoint dict_get {V : Type} (d : dict V) (k : string) : option V :=
  match d with
  | [] => None
  | (k', v) :: rest => if String.eqb k' k then Some v else dict_get rest k
  end.

(** [d[k] = v] *)
Fixpoint dict_set {V : Type} (d : dict V) (k : string) (v : V) : dict V :=
  match d with
  | [] => [(k, v)]
  | (k', v') :: rest =>
      if String.eqb k' k then (k, v) :: rest
      else (k', v') :: dict_set rest k v
  end.

End Py.

(* ===================================================================== *)
(** ** The fragment of [re] used by the sources *)
(* ===================================================================== *)

Module Re.

Inductive regex : Type :=
| Nul : regex
| Eps : regex
| Chr : (ascii -> bool) -> regex
| Cat : regex -> regex -> regex
| Alt : regex -> regex -> regex
| Star : regex -> regex.

Definition Plus (r : regex) : regex := Cat r (Star r).

(** Character classes. *)
Fixpoint one_of (set : string) (c : ascii) : bool :=
  match set with
  | EmptyString => false
  | String a set' => Ascii.eqb a c || one_of set' c
  end.

Definition lit (c : ascii) : regex := Chr (Ascii.eqb c).
Definition ws : regex := Chr Py.isspace.
Definition dot : regex := Chr (fun c => negb (Py.code c =? 10)).
Definition letter : regex := Chr Py.is_ascii_letter.
(** [[a-zA-Z0-9_-]] *)
Definition ident_char (c : ascii) : bool :=
  Py.is_ascii_letter c || Py.is_ascii_digit c || one_of "_-" c.
(** [[a-zA-Z0-9-]] *)
Definition element_char (c : ascii) : bool :=
  Py.is_ascii_letter c || Py.is_ascii_digit c || one_of "-" c.

Fixpoint nullable (r : regex) : bool :=
  match r with
  | Nul => false
  | Eps => true
  | Chr _ => false
  | Cat a b => nullable a && nullable b
  | Alt a b => nullable a || nullable b
  | Star _ => true
  end.

(** Brzozowski derivative. *)
Fixpoint deriv (r : regex) (c : ascii) : regex :=
  match r with
  | Nul => Nul
  | Eps => Nul
  | Chr p => if p c then Eps else Nul
  | Cat a b =>
      if nullable a then Alt (Cat (deriv a c) b) (deriv b c)
      else Cat (deriv a c) b
  | Alt a b => Alt (deriv a c) (deriv b c)
  | Star a => Cat (deriv a c) (Star a)
  end.

(** A pattern: body, with [^] in front and [$] behind or not. *)
Record pattern : Type := Pat { bol : bool; body : regex; eol : bool }.

(** Where [$] matches: at the end, or before a newline that ends the
    string. *)
Definition at_dollar (s : string) : bool :=
  match s with
  | EmptyString => true
  | String c EmptyString => Py.code c =? 10
  | _ => false
  end.

Definition stop_ok (p : pattern) (rest : string) : bool :=
  if eol p then at_dollar rest else true.

(** Some prefix of [s] is in the language of [r] and ends where the
    pattern may stop. *)
Fixpoint match_here (p : pattern) (r : regex) (s : string) : bool :=
  (nullable r && stop_ok p s)
  || match s with
     | EmptyString => false
     | String c s' => match_here p (deriv r c) s'
     end.

(** [re.match(p, s)] as a truth value. *)
Definition re_match (p : pattern) (s : string) : bool :=
  match_here p (body p) s.

Fixpoint search_from (p : pattern) (s : string) : bool :=
  match_here p (body p) s
  || match s with
     | EmptyString => false
     | String _ s' => search_from p s'
     end.

(** [re.search(p, s)] as a truth value. *)
Definition re_search (p : pattern) (s : string) : bool :=
  if bol p then match_here p (body p) s else search_from p s.

End Re.

(* ===================================================================== *)
(** ** intent_validator.py *)
(* ===================================================================== *)

Module IntentValidator.
Import Py Re.

(** The step a raw intent points back to ([original_step]); the keys the
    validator and the code generator read. *)
Record Step : Type := mkStep {
  is_context_event : bool;          (* .get("is_context_event", False) *)
  normalized_action : string;       (* .get("normalized_action", "") *)
  eventElement : string;            (* .get("eventElement", "") *)
  clean_url : option string;        (* .get("clean_url") *)
  step_url : option string          (* .get("url") *)
}.

(** [{}] as a step. *)
Definition empty_step : Step := mkStep false "" "" None None.

(** An intent object as it enters the validator. *)
Record IntentObj : Type := mkIntentObj {
  io_event_type : string;           (* .get("event_type", "") *)
  io_intent : string;               (* .get("intent", "") *)
  io_selector : option string;      (* .get("selector"); None: no such key *)
  io_original_step : Step           (* .get("original_step", {}) *)
}.

(** The cleaned intent built by [validate_single_intent]. *)
Record Intent : Type := mkIntent {
  step_index : nat;
  event_type : string;
  intent : string;
  selector : option string;
  original_step : Step;
  ctx_event : bool                  (* key "is_context_event" *)
}.

(** The two accumulators of the validator object. *)
Record t : Type := mkValidator {
  validation_errors : list string;
  validation_warnings : list string
}.

(** [__init__] *)
Definition init : t := mkValidator [] [].

(** The value of the attribute found at the first occurrence of [marker]
    (that ends in an opening quote): from behind the marker to the next
    double quote, found with [find] and cut with a slice. *)
Definition quoted_after (marker element_html : string) : string :=
  let start := (find marker element_html 0 + Z.of_nat (String.length marker))%Z in
  let stop := find DQ element_html start in
  slice element_html start stop.

(** [if v and v.strip()] *)
Definition present (v : string) : bool := nonempty v && nonempty (strip v).

Fixpoint take_while (p : ascii -> bool) (s : string) : string :=
  match s with
  | EmptyString => EmptyString
  | String c s' => if p c then String c (take_while p s') else EmptyString
  end.

(** Group 1 of [re.match(r"<([a-zA-Z0-9]+)", element_html)]. *)
Definition tag_match (element_html : string) : option string :=
  match element_html with
  | String "<" rest =>
      match take_while (fun c => is_ascii_letter c || is_ascii_digit c) rest with
      | EmptyString => None
      | tag => Some tag
      end
  | _ => None
  end.

Definition try_id (h : string) : option string :=
  if contains ("id=" ++ DQ) h then
    let element_id := quoted_after ("id=" ++ DQ) h in
    if present element_id then Some ("#" ++ element_id) else None
  else None.

Definition try_testid (h : string) : option string :=
  if contains ("data-testid=" ++ DQ) h then
    let testid := quoted_after ("data-testid=" ++ DQ) h in
    if present testid then Some ("[data-testid=" ++ DQ ++ testid ++ DQ ++ "]") else None
  else None.

Definition try_name (h : string) : option string :=
  if contains ("name=" ++ DQ) h then
    let name := quoted_after ("name=" ++ DQ) h in
    if present name then Some ("[name=" ++ DQ ++ name ++ DQ ++ "]") else None
  else None.

Definition try_aria_label (h : string) : option string :=
  if contains ("aria-label=" ++ DQ) h then
    let label := quoted_after ("aria-label=" ++ DQ) h in
    if present label then Some ("[aria-label=" ++ DQ ++ label ++ DQ ++ "]") else None
  else None.

Definition try_class (h : string) : option string :=
  if contains ("class=" ++ DQ) h then
    let classes := quoted_after ("class=" ++ DQ) h in
    if present classes then
      match split_ws classes with
      | first_class :: _ =>
          if nonempty first_class then Some ("." ++ first_class) else None
      | [] => None
      end
    else None
  else None.

Definition try_tag (h : string) : option string :=
  match tag_match h with
  | Some tag => if present tag then Some tag else None
  | None => None
  end.

(** First of the attempts that returns. *)
Fixpoint first_some {A : Type} (l : list (option A)) : option A :=
  match l with
  | [] => None
  | Some a :: _ => Some a
  | None :: rest => first_some rest
  end.

(** [_extract_stable_selector] *)
Definition _extract_stable_selector (step : Step) : option string :=
  let element_html := eventElement step in
  if negb (nonempty element_html) then None
  else first_some [ try_id element_html; try_testid element_html;
                    try_name element_html; try_aria_label element_html;
                    try_class element_html; try_tag element_html ].

Definition action_types_needing_selector : list string :=
  [ "STEPS_FEATURE_CLICK_EVENT"; "STEPS_FEATURE_TYPE_EVENT";
    "STEPS_FEATURE_SCROLL_EVENT"; "STEPS_FEATURE_HOVER_EVENT";
    "click"; "type"; "select"; "submit"; "hover" ].

Definition actions_not_needing_selector : list string :=
  [ "STEPS_FEATURE_TAB_VISIBLE_EVENT"; "STEPS_FEATURE_NAVIGATE_EVENT";
    "STEPS_FEATURE_WAIT_EVENT"; "PREPROCESSED" ].

(** [_action_requires_selector] *)
Definition _action_requires_selector (event_type : string) : bool :=
  if in_list event_type action_types_needing_selector then true
  else if in_list event_type actions_not_needing_selector then false
  else true.

(** The list [invalid_patterns], in the order of the source. *)
Definition invalid_patterns : list pattern :=
  [ Pat true (Star ws) true;                              (* ^\s*$ *)
    Pat true (Cat (lit "[") (lit "]")) false;             (* ^\[\] *)
    Pat true (Cat (lit "(") (lit ")")) true;              (* ^\(\)$ *)
    Pat true (Chr (one_of "{}()>")) false;                (* ^[{}()>] *)
    Pat false (Chr (one_of "{}()>")) true;                (* [{}()>]$ *)
    Pat false (Cat ws (Cat ws (Star ws))) false;          (* \s{2,} *)
    Pat false (Chr (one_of "<>")) false;                  (* [\<\>] *)
    Pat false (Chr (fun c => (code c =? 10) || (code c =? 13))) false;
                                                          (* [\n\r] *)
    Pat true (Cat (lit ">") (Cat (Star ws) (Chr isword))) false
                                                          (* ^>\s*\w *)
  ].

(** [^[a-zA-Z]+\s*>\s*$] *)
Definition element_then_gt : pattern :=
  Pat true (Cat (Plus letter) (Cat (Star ws) (Cat (lit ">") (Star ws)))) true.

Definition valid_start_patterns : list pattern :=
  [ Pat true (lit "#") false;                             (* ^# *)
    Pat true (lit ".") false;                             (* ^\. *)
    Pat true (lit "[") false;                             (* ^\[ *)
    Pat true letter false ].                              (* ^[a-zA-Z] *)

(** [^#[a-zA-Z0-9_-]+$] *)
Definition id_shape : pattern :=
  Pat true (Cat (lit "#") (Plus (Chr ident_char))) true.
(** [^\.[a-zA-Z0-9_-]+$] *)
Definition class_shape : pattern :=
  Pat true (Cat (lit ".") (Plus (Chr ident_char))) true.
(** [^\[[a-zA-Z0-9_-]+.*\]$] *)
Definition attribute_shape : pattern :=
  Pat true (Cat (lit "[") (Cat (Plus (Chr ident_char)) (Cat (Star dot) (lit "]")))) true.
(** [^[a-zA-Z]+$] *)
Definition letters_only : pattern := Pat true (Plus letter) true.
(** [^[a-zA-Z][a-zA-Z0-9-]*$] *)
Definition custom_element : pattern :=
  Pat true (Cat letter (Star (Chr element_char))) true.

Definition valid_elements : list string :=
  [ "div"; "span"; "p"; "a"; "button"; "input"; "form"; "label";
    "h1"; "h2"; "h3"; "h4"; "h5"; "h6"; "ul"; "ol"; "li";
    "table"; "tr"; "td"; "th"; "img"; "video"; "audio";
    "section"; "article"; "nav"; "header"; "footer"; "main" ].

(** The shape check at the end of [_is_valid_css_selector], on the
    stripped selector. *)
Definition shape_ok (selector : string) : bool :=
  if startswith selector "#" then re_match id_shape selector
  else if startswith selector "." then re_match class_shape selector
  else if startswith selector "[" then re_match attribute_shape selector
  else if re_match letters_only selector then
    if negb (in_list (lower selector) valid_elements)
    then re_match custom_element selector
    else true
  else true.

(** The checks of [_is_valid_css_selector] behind [selector.strip()]. *)
Definition valid_stripped (selector : string) : bool :=
  if String.length selector =? 0 then false
  else if existsb (fun p => re_search p selector) invalid_patterns then false
  else if negb (count "[" selector =? count "]" selector) then false
  else if negb (count "(" selector =? count ")" selector) then false
  else if re_match element_then_gt selector then false
  else if negb (existsb (fun p => re_match p selector) valid_start_patterns) then false
  else shape_ok selector.

(** [_is_valid_css_selector] *)
Definition _is_valid_css_selector (selector : string) : bool :=
  if negb (nonempty selector) then false
  else valid_stripped (strip selector).

(** [validate_single_intent]: the pair it returns, and the validator
    afterwards.  [None] as [intent_obj] is [None] or the empty dict. *)
Definition validate_single_intent (self : t) (intent_obj : option IntentObj)
    (idx : nat) : (bool * option Intent) * t :=
  let self := mkValidator [] [] in
  match intent_obj with
  | None =>
      ((false, None),
       mkValidator
         (append (validation_errors self)
            ("Step " ++ str_of_nat idx ++ ": Intent is None or empty"))
         (validation_warnings self))
  | Some io =>
      let intent := io_intent io in
      let event_type := io_event_type io in
      let original_step := io_original_step io in
      if is_context_event original_step
         || String.eqb (normalized_action original_step) "wait"
      then
        ((true,
          Some (mkIntent idx event_type
                  (str_or (strip intent) "Wait for context event")
                  (Some "") original_step true)),
         self)
      else if negb (nonempty intent) || negb (nonempty (strip intent)) then
        ((false, None),
         mkValidator
           (append (validation_errors self)
              ("Step " ++ str_of_nat idx ++ ": Intent text is empty"))
           (validation_warnings self))
      else
        let selector : option string :=
          if truthy (io_selector io) then io_selector io
          else _extract_stable_selector original_step in
        let accept :=
          ((true,
            Some (mkIntent idx event_type (strip intent) selector
                    original_step false)),
           self) in
        if _action_requires_selector event_type then
          match selector with
          | None | Some EmptyString =>
              ((false, None),
               mkValidator (validation_errors self)
                 (append (validation_warnings self)
                    ("Step " ++ str_of_nat idx ++ ": Empty selector for "
                       ++ event_type ++ ". Skipping step.")))
          | Some sel =>
              if String.eqb (strip sel) "" then
                ((false, None),
                 mkValidator (validation_errors self)
                   (append (validation_warnings self)
                      ("Step " ++ str_of_nat idx ++ ": Empty selector for "
                         ++ event_type ++ ". Skipping step.")))
              else if negb (_is_valid_css_selector sel) then
                ((false, None),
                 mkValidator
                   (append (validation_errors self)
                      ("Step " ++ str_of_nat idx
                         ++ ": Malformed CSS selector '" ++ sel ++ "'"))
                   (validation_warnings self))
              else accept
          end
        else accept
  end.

(** The comparison in [_deduplicate_consecutive_actions]. *)
Definition is_duplicate (current previous : Intent) : bool :=
  String.eqb (event_type current) (event_type previous)
  && opt_eqb (selector current) (selector previous)
  && String.eqb (intent current) (intent previous).

(** One turn of the loop of [_deduplicate_consecutive_actions]; the
    state is the list [deduplicated] and the validator. *)
Definition dedup_step (acc : list Intent * t) (current : Intent)
    : list Intent * t :=
  let '(deduplicated, self) := acc in
  match last_opt deduplicated with
  | None => acc                      (* deduplicated[-1] of an empty list *)
  | Some previous =>
      if negb (is_duplicate current previous)
      then (append deduplicated current, self)
      else (deduplicated,
            mkValidator (validation_errors self)
              (append (validation_warnings self)
                 ("Step " ++ str_of_nat (step_index current)
                    ++ ": Removed duplicate action (same as step "
                    ++ str_of_nat (step_index previous) ++ ")")))
  end.

(** [_deduplicate_consecutive_actions] *)
Definition _deduplicate_consecutive_actions (self : t) (intents : list Intent)
    : list Intent * t :=
  match intents with
  | [] => ([], self)
  | first :: rest => fold_left dedup_step rest ([first], self)
  end.

(** The validation report. *)
Record Report : Type := mkReport {
  total_input_intents : Z;
  total_valid_intents : Z;
  total_after_dedup : Z;
  removed_by_validation : Z;
  removed_by_dedup : Z;
  removed_steps_details : list (nat * string);
  report_errors : list string;      (* key "validation_errors" *)
  report_warnings : list string     (* key "validation_warnings" *)
}.

(** The state of the first loop of [validate_and_clean_intents]. *)
Record LoopState : Type := mkLoop {
  loop_self : t;
  cleaned_intents : list Intent;
  removed_steps : list (nat * string)
}.

(** One turn of [for idx, intent_obj in enumerate(intents)]. *)
Definition validate_step (st : LoopState) (idx : nat)
    (intent_obj : option IntentObj) : LoopState :=
  let '((is_valid, cleaned), self') :=
    validate_single_intent (loop_self st) intent_obj idx in
  match is_valid, cleaned with
  | true, Some c =>
      mkLoop self' (append (cleaned_intents st) c) (removed_steps st)
  | _, _ =>
      mkLoop self' (cleaned_intents st)
        (append (removed_steps st)
           (idx, match last_opt (validation_errors self') with
                 | Some e => e
                 | None => "Unknown error"
                 end))
  end.

Fixpoint validate_loop (st : LoopState) (idx : nat)
    (intents : list (option IntentObj)) : LoopState :=
  match intents with
  | [] => st
  | intent_obj :: rest =>
      validate_loop (validate_step st idx intent_obj) (S idx) rest
  end.

(** [validate_and_clean_intents] *)
Definition validate_and_clean_intents (self : t)
    (intents : list (option IntentObj)) : (list Intent * Report) * t :=
  let total_input := Z.of_nat (List.length intents) in
  let st := validate_loop (mkLoop self [] []) 0 intents in
  let '(deduplicated_intents, self') :=
    _deduplicate_consecutive_actions (loop_self st) (cleaned_intents st) in
  let removed_due_to_dedup :=
    (Z.of_nat (List.length (cleaned_intents st))
     - Z.of_nat (List.length deduplicated_intents))%Z in
  let report :=
    mkReport total_input
      (Z.of_nat (List.length (cleaned_intents st)))
      (Z.of_nat (List.length deduplicated_intents))
      (Z.of_nat (List.length (removed_steps st)))
      removed_due_to_dedup
      (removed_steps st)
      (validation_errors self')
      (validation_warnings self') in
  ((deduplicated_intents, report), self').

End IntentValidator.

(* ===================================================================== *)
(** ** Calls that may raise *)
(* ===================================================================== *)

(** What a call does: it returns a value, or it raises (the callers here
    catch [Exception]). *)
Inductive outcome (A : Type) : Type :=
| Returns : A -> outcome A
| Raises : outcome A.
Arguments Returns {A} _.
Arguments Raises {A}.

Definition bind {A B : Type} (m : outcome A) (k : A -> outcome B) : outcome B :=
  match m with
  | Returns a => k a
  | Raises => Raises
  end.

Declare Scope outcome_scope.
Delimit Scope outcome_scope with outcome.
Notation "x <- m ;; k" := (bind m (fun x => k))
  (at level 61, m at next level, right associativity) : outcome_scope.

(** [try: body except Exception: handler] *)
Definition try_except {A : Type} (body : outcome A) (handler : outcome A)
    : outcome A :=
  match body with
  | Raises => handler
  | other => other
  end.

(** [[f(x) for x in l]], where [f] may raise. *)
Fixpoint map_outcome {A B : Type} (f : A -> outcome B) (l : list A)
    : outcome (list B) :=
  match l with
  | [] => Returns []
  | x :: rest =>
      bind (f x) (fun y => bind (map_outcome f rest) (fun r => Returns (y :: r)))
  end.

(* ===================================================================== *)
(** ** The standard library's [ipaddress], as far as [urllib.parse] calls it *)
(* ===================================================================== *)

Module Ipaddress.
Import Py.
Local Open Scope outcome_scope.

(** Every character of [s] passes [p]. *)
Definition every (p : ascii -> bool) (s : string) : bool :=
  forallb p (list_ascii_of_string s).

Definition is_hex_digit (c : ascii) : bool :=
  is_ascii_digit c || between 65 70 c || between 97 102 c.

Definition digit_value (c : ascii) : N :=
  if is_ascii_digit c then N.of_nat (code c - 48)
  else if between 65 70 c then N.of_nat (code c - 55)
  else N.of_nat (code c - 87).

(** [int(s, base)] for a string of digits of the base that is not empty. *)
Definition int_of (base : N) (s : string) : N :=
  fold_left (fun n c => n * base + digit_value c)%N (list_ascii_of_string s) 0%N.

(** [_BaseV4._parse_octet] *)
Definition _parse_octet (octet_str : string) : outcome N :=
  if negb (nonempty octet_str) then Raises
  else if negb (every is_ascii_digit octet_str) then Raises
  else if 3 <? String.length octet_str then Raises
  else if negb (String.eqb octet_str "0") && startswith octet_str "0" then Raises
  else
    let octet_int := int_of 10 octet_str in
    if (255 <? octet_int)%N then Raises else Returns octet_int.

(** [_BaseV4._ip_int_from_string] *)
Definition IPv4_ip_int_from_string (ip_str : string) : outcome N :=
  if negb (nonempty ip_str) then Raises
  else
    let octets := split_all "." ip_str in
    if negb (List.length octets =? 4) then Raises
    else
      parsed <- map_outcome _parse_octet octets ;;
      Returns (fold_left (fun n b => n * 256 + b)%N parsed 0%N).

(** [IPv4Address(address)._ip] for a str. *)
Definition IPv4Address (address : string) : outcome N :=
  if contains "/" address then Raises
  else IPv4_ip_int_from_string address.

(** [_BaseV6._parse_hextet]; [int('', 16)] raises. *)
Definition _parse_hextet (hextet_str : string) : outcome N :=
  if negb (every is_hex_digit hextet_str) then Raises
  else if 4 <? String.length hextet_str then Raises
  else if negb (nonempty hextet_str) then Raises
  else Returns (int_of 16 hextet_str).

(** [_BaseV6._split_scope_id] *)
Definition _split_scope_id (ip_str : string) : outcome (string * option string) :=
  match split_once "%" ip_str with
  | (addr, None) => Returns (addr, None)
  | (addr, Some scope_id) =>
      if negb (nonempty scope_id) || contains "%" scope_id then Raises
      else Returns (addr, Some scope_id)
  end.

Definition hex_char (d : N) : ascii :=
  if (d <? 10)%N then ascii_of_N (48 + d) else ascii_of_N (87 + d).

Fixpoint strip_zeros (s : string) : string :=
  match s with
  | String "0" (String _ _ as rest) => strip_zeros rest
  | _ => s
  end.

(** ['%x' % n] for [n] below 2**16. *)
Definition hex16 (n : N) : string :=
  strip_zeros
    (String (hex_char (n / 4096))
       (String (hex_char ((n / 256) mod 16))
          (String (hex_char ((n / 16) mod 16))
             (String (hex_char (n mod 16)) EmptyString))))%N.

(** The loop over the parts between the two ends of the address: the
    index of the empty part, if there is one; a second empty part is an
    error. *)
Fixpoint find_skip (i : nat) (middle : list string) (skip_index : option nat)
    : outcome (option nat) :=
  match middle with
  | [] => Returns skip_index
  | part :: rest =>
      if negb (nonempty part) then
        match skip_index with
        | Some _ => Raises
        | None => find_skip (S i) rest (Some i)
        end
      else find_skip (S i) rest skip_index
  end.

Definition _HEXTET_COUNT : nat := 8.

(** The loops that shift the hextets into [ip_int]. *)
Fixpoint parse_hextets (ip_int : N) (parts : list string) : outcome N :=
  match parts with
  | [] => Returns ip_int
  | part :: rest =>
      hextet <- _parse_hextet part ;;
      parse_hextets (N.lor (N.shiftl ip_int 16) hextet) rest
  end.

(** [_BaseV6._ip_int_from_string] *)
Definition IPv6_ip_int_from_string (ip_str : string) : outcome N :=
  if negb (nonempty ip_str) then Raises
  else
    let parts := split_all ":" ip_str in
    if List.length parts <? 3 then Raises
    else
      parts <-
        (if contains "." (last parts "") then
           ipv4_int <- IPv4Address (last parts "") ;;
           Returns
             (removelast parts
                ++ [ hex16 (N.land (N.shiftr ipv4_int 16) 65535);
                     hex16 (N.land ipv4_int 65535) ])%list
         else Returns parts) ;;
      if _HEXTET_COUNT + 1 <? List.length parts then Raises
      else
        skip_index <- find_skip 1 (removelast (tl parts)) None ;;
        counts <-
          match skip_index with
          | Some skip_index =>
              let parts_hi := skip_index in
              let parts_lo := List.length parts - skip_index - 1 in
              parts_hi <-
                (if negb (nonempty (hd "" parts)) then
                   if 0 <? parts_hi - 1 then Raises else Returns (parts_hi - 1)
                 else Returns parts_hi) ;;
              parts_lo <-
                (if negb (nonempty (last parts "")) then
                   if 0 <? parts_lo - 1 then Raises else Returns (parts_lo - 1)
                 else Returns parts_lo) ;;
              (* parts_skipped < 1 *)
              if _HEXTET_COUNT <? parts_hi + parts_lo + 1 then Raises
              else Returns (parts_hi, parts_lo,
                            _HEXTET_COUNT - (parts_hi + parts_lo))
          | None =>
              if negb (List.length parts =? _HEXTET_COUNT) then Raises
              else if negb (nonempty (hd "" parts)) then Raises
              else if negb (nonempty (last parts "")) then Raises
              else Returns (List.length parts, 0, 0)
          end ;;
        let '(parts_hi, parts_lo, parts_skipped) := counts in
        ip_int <- parse_hextets 0 (firstn parts_hi parts) ;;
        parse_hextets (N.shiftl ip_int (N.of_nat (16 * parts_skipped)))
          (skipn (List.length parts - parts_lo) parts).

(** [IPv6Address(address)] for a str: [_ip] and [_scope_id]. *)
Definition IPv6Address (address : string) : outcome (N * option string) :=
  if contains "/" address then Raises
  else
    split <- _split_scope_id address ;;
    let '(addr_str, scope_id) := split in
    ip_int <- IPv6_ip_int_from_string addr_str ;;
    Returns (ip_int, scope_id).

Inductive address : Type :=
| V4 (ip : N)
| V6 (ip : N) (scope_id : option string).

(** [ip_address(address)] for a str. *)
Definition ip_address (a : string) : outcome address :=
  try_except (ip <- IPv4Address a ;; Returns (V4 ip))
    (try_except (v6 <- IPv6Address a ;; Returns (V6 (fst v6) (snd v6)))
       Raises).

End Ipaddress.

(* ===================================================================== *)
(** ** The standard library's [urllib.parse], as far as the sources use it *)
(* ===================================================================== *)

Module Urllib.
Import Py.
Local Open Scope outcome_scope.

Record ParseResult : Type := mkParseResult {
  scheme : string;
  netloc : string;
  path : string;
  params : string;
  query : string;
  fragment : string
}.

Definition uses_netloc : list string :=
  [ ""; "ftp"; "http"; "gopher"; "nntp"; "telnet"; "imap"; "wais"; "file";
    "mms"; "https"; "shttp"; "snews"; "prospero"; "rtsp"; "rtspu"; "rsync";
    "svn"; "svn+ssh"; "sftp"; "nfs"; "git"; "git+ssh"; "ws"; "wss" ].

Definition uses_params : list string :=
  [ ""; "ftp"; "hdl"; "prospero"; "http"; "imap"; "https"; "shttp"; "rtsp";
    "rtspu"; "sip"; "sips"; "mms"; "sftp"; "tel" ].

Definition is_scheme_char (c : ascii) : bool :=
  is_ascii_letter c || is_ascii_digit c || Re.one_of "+-." c.

Fixpoint all_chars (p : ascii -> bool) (s : string) : bool :=
  match s with
  | EmptyString => true
  | String c s' => p c && all_chars p s'
  end.

(** [url.lstrip(_WHATWG_C0_CONTROL_OR_SPACE)] *)
Fixpoint lstrip_c0 (s : string) : string :=
  match s with
  | EmptyString => EmptyString
  | String c s' => if code c <=? 32 then lstrip_c0 s' else s
  end.

(** The part of [s] before the first of the characters [/?#], and the
    rest from that character on: [_splitnetloc], behind the two slashes. *)
Fixpoint _splitnetloc (s : string) : string * string :=
  match s with
  | EmptyString => (EmptyString, EmptyString)
  | String c s' =>
      if Re.one_of "/?#" c then (EmptyString, s)
      else let '(h, t) := _splitnetloc s' in (String c h, t)
  end.

(** [s.rpartition('@')[2]] *)
Fixpoint after_last_at (s : string) : string :=
  match s with
  | EmptyString => EmptyString
  | String c s' =>
      if contains "@" s' then after_last_at s'
      else if Ascii.eqb c "@" then s' else s
  end.

(** The pattern [v[a-fA-F0-9]+\..+] between [\A] and [\Z]. *)
Definition ipvfuture : Re.regex :=
  Re.Cat (Re.lit "v")
    (Re.Cat (Re.Plus (Re.Chr Ipaddress.is_hex_digit))
       (Re.Cat (Re.lit ".") (Re.Plus Re.dot))).

(** The whole of [s] is in the language of [r]. *)
Fixpoint matches_whole (r : Re.regex) (s : string) : bool :=
  match s with
  | EmptyString => Re.nullable r
  | String c s' => matches_whole (Re.deriv r c) s'
  end.

(** [_check_bracketed_host] *)
Definition _check_bracketed_host (hostname : string) : outcome unit :=
  if startswith hostname "v" then
    if negb (matches_whole ipvfuture hostname) then Raises else Returns tt
  else
    ip <- Ipaddress.ip_address hostname ;;
    match ip with
    | Ipaddress.V4 _ => Raises
    | Ipaddress.V6 _ _ => Returns tt
    end.

(** [_check_bracketed_netloc] *)
Definition _check_bracketed_netloc (netloc : string) : outcome unit :=
  let hostname_and_port := after_last_at netloc in
  match split_once "[" hostname_and_port with
  | (before_bracket, Some bracketed) =>
      if nonempty before_bracket then Raises
      else
        let '(hostname, port) :=
          match split_once "]" bracketed with
          | (h, Some p) => (h, p)
          | (h, None) => (h, EmptyString)
          end in
        if nonempty port && negb (startswith port ":") then Raises
        else _check_bracketed_host hostname
  | (_, None) =>
      let hostname := fst (split_once ":" hostname_and_port) in
      _check_bracketed_host hostname
  end.

Record SplitResult : Type := mkSplitResult {
  s_scheme : string;
  s_netloc : string;
  s_path : string;
  s_query : string;
  s_fragment : string
}.

(** [urlsplit(url)]; [_checknetloc] never raises on the code points
    modelled here. *)
Definition urlsplit (url : string) : outcome SplitResult :=
  let url := lstrip_c0 url in
  let url := replace "009" "" url in
  let url := replace "013" "" url in
  let url := replace "010" "" url in
  let '(scheme, url) :=
    match find_nat ":" url, url with
    | Some (S i), String c0 _ =>
        if is_ascii_letter c0 && all_chars is_scheme_char (take (S i) url)
        then (lower (take (S i) url), drop (S (S i)) url)
        else (EmptyString, url)
    | _, _ => (EmptyString, url)
    end in
  x <- (if String.eqb (take 2 url) "//" then
          let '(netloc, rest) := _splitnetloc (drop 2 url) in
          if (contains "[" netloc && negb (contains "]" netloc))
             || (contains "]" netloc && negb (contains "[" netloc))
          then Raises
          else if contains "[" netloc && contains "]" netloc
          then _ <- _check_bracketed_netloc netloc ;; Returns (netloc, rest)
          else Returns (netloc, rest)
        else Returns (EmptyString, url)) ;;
  let '(netloc, url) := x in
  let '(url, fragment) :=
    match split_once "#" url with
    | (u, Some f) => (u, f)
    | (u, None) => (u, EmptyString)
    end in
  let '(url, query) :=
    match split_once "?" url with
    | (u, Some q) => (u, q)
    | (u, None) => (u, EmptyString)
    end in
  Returns (mkSplitResult scheme netloc url query fragment).

(** [s.rfind('/')], for a string that has a slash. *)
Fixpoint rfind_slash (s : string) : nat :=
  match s with
  | EmptyString => 0
  | String c s' => if contains "/" s' then S (rfind_slash s') else 0
  end.

(** [_splitparams] *)
Definition _splitparams (url : string) : string * string :=
  if contains "/" url then
    let i := find ";" url (Z.of_nat (rfind_slash url)) in
    if (i <? 0)%Z then (url, EmptyString)
    else (slice url 0 i, drop (Z.to_nat (i + 1)) url)
  else
    let i := find ";" url 0 in
    (slice url 0 i, drop (Z.to_nat (i + 1)) url).

(** [urlparse(url)] *)
Definition urlparse (url : string) : outcome ParseResult :=
  r <- urlsplit url ;;
  let '(url, params) :=
    if in_list (s_scheme r) uses_params && contains ";" (s_path r)
    then _splitparams (s_path r)
    else (s_path r, EmptyString) in
  Returns (mkParseResult (s_scheme r) (s_netloc r) url params
             (s_query r) (s_fragment r)).

(** [urlunsplit] *)
Definition urlunsplit (scheme netloc url query fragment : string) : string :=
  let url :=
    if nonempty netloc
       || (nonempty scheme && in_list scheme uses_netloc
           && negb (String.eqb (take 2 url) "//"))
    then
      let url :=
        if nonempty url && negb (String.eqb (take 1 url) "/")
        then "/" ++ url else url in
      "//" ++ netloc ++ url
    else url in
  let url := if nonempty scheme then scheme ++ ":" ++ url else url in
  let url := if nonempty query then url ++ "?" ++ query else url in
  let url := if nonempty fragment then url ++ "#" ++ fragment else url in
  url.

(** [urlunparse] *)
Definition urlunparse (p : ParseResult) : string :=
  let url := if nonempty (params p) then path p ++ ";" ++ params p
             else path p in
  urlunsplit (scheme p) (netloc p) url (query p) (fragment p).

(** A str that may hold any code point, as a list of code points: the
    text that [unquote] decodes.  A [string] is read as such a text
    where one is expected. *)
Definition ustr : Type := list N.

Definition of_string (s : string) : ustr :=
  map N_of_ascii (list_ascii_of_string s).

Coercion of_string : string >-> ustr.

(** A bytes object, as the list of its bytes. *)
Definition bytes : Type := list N.

Definition is_surrogate (cp : N) : bool := ((55296 <=? cp) && (cp <=? 57343))%N.

(** The UTF-8 bytes of a code point. *)
Definition utf8 (cp : N) : bytes :=
  (if cp <? 128 then [cp]
   else if cp <? 2048 then [192 + cp / 64; 128 + cp mod 64]
   else if cp <? 65536
   then [224 + cp / 4096; 128 + (cp / 64) mod 64; 128 + cp mod 64]
   else [240 + cp / 262144; 128 + (cp / 4096) mod 64;
         128 + (cp / 64) mod 64; 128 + cp mod 64])%N.

(** [s.encode('utf-8')] with the default [strict]: a surrogate cannot be
    encoded (and no str holds a number above 10FFFF). *)
Definition encode (s : ustr) : outcome bytes :=
  if existsb (fun cp => is_surrogate cp || (1114111 <? cp)%N) s then Raises
  else Returns (flat_map utf8 s).

Definition is_continuation (b : N) : bool := ((128 <=? b) && (b <=? 191))%N.

(** U+FFFD, which stands for what cannot be decoded. *)
Definition replacement : N := 65533%N.

(** [b.decode('utf-8', 'replace')]: every maximal part of the input that
    cannot begin a character is replaced, and so is a character that the
    end of the input cuts short. *)
Fixpoint decode_replace (b : bytes) : ustr :=
  match b with
  | [] => []
  | ch :: b1 =>
      if (ch <? 128)%N then ch :: decode_replace b1
      else if (ch <? 194)%N then replacement :: decode_replace b1
      else if (ch <? 224)%N then
        match b1 with
        | [] => [replacement]
        | ch2 :: b2 =>
            if is_continuation ch2
            then ((ch - 192) * 64 + (ch2 - 128))%N :: decode_replace b2
            else replacement :: decode_replace b1
        end
      else if (ch <? 240)%N then
        match b1 with
        | [] => [replacement]
        | ch2 :: b2 =>
            if negb (is_continuation ch2)
               || (if (ch2 <? 160)%N then (ch =? 224)%N else (ch =? 237)%N)
            then replacement :: decode_replace b1
            else
              match b2 with
              | [] => [replacement]
              | ch3 :: b3 =>
                  if is_continuation ch3
                  then ((ch - 224) * 4096 + (ch2 - 128) * 64 + (ch3 - 128))%N
                         :: decode_replace b3
                  else replacement :: decode_replace b2
              end
        end
      else if (ch <? 245)%N then
        match b1 with
        | [] => [replacement]
        | ch2 :: b2 =>
            if negb (is_continuation ch2)
               || (if (ch2 <? 144)%N then (ch =? 240)%N else (ch =? 244)%N)
            then replacement :: decode_replace b1
            else
              match b2 with
              | [] => [replacement]
              | ch3 :: b3 =>
                  if negb (is_continuation ch3)
                  then replacement :: decode_replace b2
                  else
                    match b3 with
                    | [] => [replacement]
                    | ch4 :: b4 =>
                        if is_continuation ch4
                        then ((ch - 240) * 262144 + (ch2 - 128) * 4096
                                + (ch3 - 128) * 64 + (ch4 - 128))%N
                               :: decode_replace b4
                        else replacement :: decode_replace b3
                    end
              end
        end
      else replacement :: decode_replace b1
  end.

Definition hex_value (b : N) : option N :=
  (if (48 <=? b) && (b <=? 57) then Some (b - 48)
   else if (65 <=? b) && (b <=? 70) then Some (b - 55)
   else if (97 <=? b) && (b <=? 102) then Some (b - 87)
   else None)%N.

(** The bytes with every [%xx] replaced by the byte it names; a [%] that
    no two hex digits follow stays. *)
Fixpoint unquote_bytes (b : bytes) : bytes :=
  match b with
  | [] => []
  | c :: b' =>
      let keep := c :: unquote_bytes b' in
      if (c =? 37)%N then
        match b' with
        | h :: l :: rest =>
            match hex_value h, hex_value l with
            | Some x, Some y => (16 * x + y)%N :: unquote_bytes rest
            | _, _ => keep
            end
        | _ => keep
        end
      else keep
  end.

(** [unquote_to_bytes(string)] for a str. *)
Definition unquote_to_bytes (string : string) : bytes :=
  unquote_bytes (flat_map utf8 (of_string string)).

(** The loop of [unquote] over the parts of [_asciire.split(string)]:
    a run of ASCII characters is unquoted to bytes and decoded, the
    characters between the runs stay.  [run] is the run being read,
    reversed. *)
Fixpoint unquote_bits (run : string) (s : string) : ustr :=
  match s with
  | EmptyString => decode_replace (unquote_to_bytes (rev_string run))
  | String c s' =>
      if code c <? 128 then unquote_bits (String c run) s'
      else (decode_replace (unquote_to_bytes (rev_string run))
              ++ N_of_ascii c :: unquote_bits EmptyString s')%list
  end.

(** [unquote(s)] with the defaults [utf-8], [replace]. *)
Definition unquote (string : string) : ustr :=
  if negb (contains "%" string) then of_string string
  else unquote_bits EmptyString string.

(** One field of the query in [parse_qsl]: nothing, or a pair. *)
Definition parse_field (name_value : string) : outcome (option (ustr * ustr)) :=
  if negb (nonempty name_value) then Returns None
  else match split_once "=" name_value with
       | (_, None) => Returns None
       | (n, Some v) =>
           if 0 <? String.length v then
             let name := unquote (replace "+" " " n) in
             let value := unquote (replace "+" " " v) in
             Returns (Some (name, value))
           else Returns None
       end.

Fixpoint parse_fields (fields : list string) : outcome (list (ustr * ustr)) :=
  match fields with
  | [] => Returns []
  | f :: rest =>
      x <- parse_field f ;;
      r <- parse_fields rest ;;
      Returns (match x with Some nv => nv :: r | None => r end)
  end.

(** [parse_qsl(qs)] with the defaults. *)
Definition parse_qsl (qs : string) : outcome (list (ustr * ustr)) :=
  parse_fields (if nonempty qs then split_all "&" qs else []).

Fixpoint ustr_eqb (a b : ustr) : bool :=
  match a, b with
  | [], [] => true
  | x :: a', y :: b' => (x =? y)%N && ustr_eqb a' b'
  | _, _ => false
  end.

(** [s.startswith(p)] *)
Fixpoint ustartswith (s p : ustr) : bool :=
  match p, s with
  | [], _ => true
  | _ :: _, [] => false
  | a :: p', b :: s' => (a =? b)%N && ustartswith s' p'
  end.

(** A dict whose keys are such texts, in insertion order. *)
Definition qdict (V : Type) : Type := list (ustr * V).

Fixpoint qdict_get {V : Type} (d : qdict V) (k : ustr) : option V :=
  match d with
  | [] => None
  | (k', v) :: rest => if ustr_eqb k' k then Some v else qdict_get rest k
  end.

(** [d[k] = v] *)
Fixpoint qdict_set {V : Type} (d : qdict V) (k : ustr) (v : V) : qdict V :=
  match d with
  | [] => [(k, v)]
  | (k', v') :: rest =>
      if ustr_eqb k' k then (k, v) :: rest
      else (k', v') :: qdict_set rest k v
  end.

(** [parse_qs(qs)] with the defaults. *)
Definition parse_qs (qs : string) : outcome (qdict (list ustr)) :=
  pairs <- parse_qsl qs ;;
  Returns
    (fold_left
       (fun parsed_result '(name, value) =>
          match qdict_get parsed_result name with
          | Some l => qdict_set parsed_result name (append l value)
          | None => qdict_set parsed_result name [value]
          end)
       pairs []).

Definition hex_digit (n : N) : ascii :=
  if (n <? 10)%N then ascii_of_N (48 + n) else ascii_of_N (55 + n).

Definition percent (b : N) : string :=
  String "%" (String (hex_digit (b / 16)) (String (hex_digit (b mod 16)) EmptyString)).

Definition always_safe (b : N) : bool :=
  let c := ascii_of_N b in
  (b <? 128)%N && (is_ascii_letter c || is_ascii_digit c || Re.one_of "_.-~" c).

(** [quote_plus(s)] with the default [safe=''], byte by byte of the
    encoded text. *)
Definition quote_plus (s : ustr) : outcome string :=
  encoded <- encode s ;;
  Returns
    (String.concat ""
       (map (fun b =>
               if always_safe b then String (ascii_of_N b) EmptyString
               else if (b =? 32)%N then "+"
               else percent b)
          encoded)).

(** [urlencode(query, doseq=True)] for a dict of lists of strings. *)
Definition urlencode (query : qdict (list ustr)) : outcome string :=
  l <- map_outcome
         (fun '(k, v) =>
            k <- quote_plus k ;;
            map_outcome
              (fun elt => elt <- quote_plus elt ;; Returns (k ++ "=" ++ elt))
              v)
         query ;;
  Returns (join "&" (List.concat l)).

End Urllib.

(* ===================================================================== *)
(** ** steps_preprocessor.py *)
(* ===================================================================== *)

Module StepsPreprocessor.
Import Py Urllib.
Local Open Scope outcome_scope.

Definition tracking_patterns : list string :=
  [ "utm_"; "gad"; "ref="; "adgrp"; "hvp"; "hvt"; "hvr";
    "tag="; "crid="; "sprefix="; "rps="; "lpg=" ].

(** [any(key.startswith(t) for t in tracking_patterns)] *)
Definition is_tracking_key (key : ustr) : bool :=
  existsb (fun t => ustartswith key (of_string t)) tracking_patterns.

(** The loop that fills [filtered_params]. *)
Definition filter_params (params : qdict (list ustr)) : qdict (list ustr) :=
  fold_left
    (fun filtered_params '(key, value) =>
       if negb (is_tracking_key key)
       then qdict_set filtered_params key value
       else filtered_params)
    params [].

(** [_strip_tracking_params] *)
Definition _strip_tracking_params (url : string) : outcome string :=
  if negb (nonempty url) then Returns ""
  else
    try_except
      (parsed <- urlparse url ;;
       params <- parse_qs (query parsed) ;;
       let filtered_params := filter_params params in
       new_query <- urlencode filtered_params ;;
       let clean_url :=
         urlunparse
           (mkParseResult (scheme parsed) (netloc parsed) (path parsed)
              (Urllib.params parsed) new_query (fragment parsed)) in
       Returns clean_url)
      (Returns url).

(** [_strip_tracking_params] for a value that may be [None], for which
    [not url] holds as it does for the empty string. *)
Definition strip_tracking (url : option string) : outcome string :=
  match url with
  | None => Returns ""
  | Some url => _strip_tracking_params url
  end.

(** A raw step of the recording: the keys that the preprocessor reads.
    The value under a key is a string or null, which is read as [None];
    a field holds the default of its [.get] when the key is absent.  The
    default of [stepId] depends on the position of the step, so that
    field says whether the key is there. *)
Record RawStep : Type := mkRawStep {
  eventType : option string;        (* .get("eventType", "") *)
  eventElement : option string;     (* .get("eventElement", "") *)
  eventData : option string;        (* .get("eventData", "") *)
  url : option string;              (* .get("url", "") *)
  stepId : option (option string);  (* the value under "stepId", if any *)
  raw_id : option string            (* .get("id", "") *)
}.

(** A method of str called on a value that may be [None], which has no
    such method: AttributeError. *)
Definition method {A : Type} (f : string -> A) (v : option string) : outcome A :=
  match v with
  | Some s => Returns (f s)
  | None => Raises
  end.

Inductive EventCategory : Type := CONTEXT | ACTION.

Inductive NormalizedAction : Type :=
| CLICK | TYPE | SELECT | SUBMIT | HOVER | NAVIGATE.

(** [action.value] *)
Definition action_value (a : NormalizedAction) : string :=
  match a with
  | CLICK => "click" | TYPE => "type" | SELECT => "select"
  | SUBMIT => "submit" | HOVER => "hover" | NAVIGATE => "navigate"
  end.

Inductive ElementRole : Type :=
| BUTTON | TEXTBOX | LINK | CHECKBOX | RADIO | DROPDOWN | TEXTAREA | IMAGE
| OTHER.

(** [role.value] *)
Definition role_value (r : ElementRole) : string :=
  match r with
  | BUTTON => "button" | TEXTBOX => "textbox" | LINK => "link"
  | CHECKBOX => "checkbox" | RADIO => "radio" | DROPDOWN => "dropdown"
  | TEXTAREA => "textarea" | IMAGE => "image" | OTHER => "other"
  end.

Definition CONTEXT_EVENT_TYPES : list string :=
  [ "STEPS_FEATURE_TAB_VISIBLE_EVENT"; "STEPS_FEATURE_TAB_ACTIVATED_EVENT";
    "STEPS_FEATURE_NAVIGATE_EVENT"; "STEPS_FEATURE_PAGE_LOAD_EVENT";
    "STEPS_FEATURE_PAGE_VISIBLE_EVENT"; "STEPS_FEATURE_URL_CHANGED_EVENT";
    "STEPS_FEATURE_WINDOW_FOCUS_EVENT"; "STEPS_FEATURE_WINDOW_BLUR_EVENT" ].

Definition ACTION_EVENT_TYPES : list string :=
  [ "STEPS_FEATURE_CLICK_EVENT"; "STEPS_FEATURE_TYPE_EVENT";
    "STEPS_FEATURE_CHANGE_EVENT"; "STEPS_FEATURE_SELECT_EVENT";
    "STEPS_FEATURE_SUBMIT_EVENT"; "STEPS_FEATURE_HOVER_EVENT";
    "STEPS_FEATURE_FOCUS_EVENT"; "STEPS_FEATURE_BLUR_EVENT";
    "STEPS_FEATURE_KEY_DOWN_EVENT"; "STEPS_FEATURE_KEY_UP_EVENT" ].

(** [_classify_event] *)
Definition _classify_event (step : RawStep) : outcome (EventCategory * string) :=
  event_type <- method strip (eventType step) ;;
  Returns
    (if in_list event_type CONTEXT_EVENT_TYPES then (CONTEXT, event_type)
     else if in_list event_type ACTION_EVENT_TYPES then (ACTION, event_type)
     else if truthy (eventElement step) || truthy (eventData step)
     then (ACTION, event_type)
     else (CONTEXT, event_type)).

(** The dict [element_hints] of a preprocessed step. *)
Record ElementHints : Type := mkElementHints {
  eh_id : string;
  eh_class : string;
  eh_name : string;
  eh_test_id : string;
  eh_aria_label : string;
  eh_tag : string
}.

(** A preprocessed step.  The last two keys are written for context
    events only; for an action step the fields hold the defaults of the
    readers. *)
Record PreprocessedStep : Type := mkPre {
  step_index : nat;
  normalized_action : string;
  element_role : string;
  human_identifier : string;
  visibility : string;
  interactable : bool;
  element_hints : ElementHints;
  value : option string;
  clean_url : string;
  original_event_type : string;
  original_step_id : option string;
  is_context_event : bool;          (* .get("is_context_event", False) *)
  context_type : string             (* .get("context_type", "") *)
}.

(** The dict [context_map] of [_normalize_context_event]. *)
Definition context_map : dict (string * string) :=
  [ ("STEPS_FEATURE_TAB_VISIBLE_EVENT", ("wait", "Tab visibility check"));
    ("STEPS_FEATURE_TAB_ACTIVATED_EVENT", ("wait", "Tab activation"));
    ("STEPS_FEATURE_NAVIGATE_EVENT", ("navigate", "Page navigation"));
    ("STEPS_FEATURE_PAGE_LOAD_EVENT", ("wait", "Page load complete"));
    ("STEPS_FEATURE_PAGE_VISIBLE_EVENT", ("wait", "Page visibility check"));
    ("STEPS_FEATURE_URL_CHANGED_EVENT",
     ("wait", "URL changed - wait for navigation"));
    ("STEPS_FEATURE_WINDOW_FOCUS_EVENT", ("wait", "Window focused"));
    ("STEPS_FEATURE_WINDOW_BLUR_EVENT", ("wait", "Window blurred")) ].

(** [_normalize_context_event] *)
Definition _normalize_context_event (step : RawStep) (event_type : string)
    (idx : nat) : outcome PreprocessedStep :=
  let '(action, description) :=
    match dict_get context_map event_type with
    | Some action_desc => action_desc
    | None => ("wait", "Context event")
    end in
  clean <- strip_tracking (url step) ;;
  Returns
    (mkPre idx action "context_event" description "context" false
       (mkElementHints "" "" "" "" "" "context")
       (Some "") clean event_type
       (match stepId step with
        | Some i => i
        | None => Some ("context_" ++ str_of_nat idx)
        end)
       true event_type).

(** [_determine_normalized_action], for an [event_type] that is a str
    (the caller sees to the other case) and an [event_element] that may
    be [None]: the two branches that call [event_element.lower()] raise
    on it. *)
Definition _determine_normalized_action (event_type : string)
    (event_element event_data : option string)
    : outcome (option NormalizedAction) :=
  let event_lower := lower event_type in
  if contains "click" event_lower then
    match event_element with
    | None => Raises
    | Some event_element =>
        Returns
          (if contains "<input" (lower event_element)
              && contains ("type=" ++ DQ ++ "text" ++ DQ) event_element
           then Some CLICK
           else if contains "<select" (lower event_element) then Some SELECT
           else if contains "<a " (lower event_element) then Some CLICK
           else if contains "<button" (lower event_element) then Some CLICK
           else Some CLICK)
    end
  else if contains "type" event_lower || contains "keyboard" event_lower
          || contains "key_" event_lower then Returns (Some TYPE)
  else if contains "change" event_lower || contains "select" event_lower
  then Returns (Some SELECT)
  else if contains "submit" event_lower then Returns (Some SUBMIT)
  else if contains "hover" event_lower || contains "mouseover" event_lower
  then Returns (Some HOVER)
  else if contains "focus" event_lower then
    element_lower <- method lower event_element ;;
    Returns (if contains "text" element_lower then Some CLICK else None)
  else Returns None.

(** The dict [info] of [_extract_element_info]. *)
Record ElementInfo : Type := mkInfo {
  info_id : string;
  info_class : string;
  info_name : string;
  info_test_id : string;
  info_aria_label : string;
  info_tag : string;
  info_placeholder : string;
  info_value : string
}.

Definition is_quote (c : ascii) : bool := Ascii.eqb c "034" || Ascii.eqb c "'".

Fixpoint take_while (p : ascii -> bool) (s : string) : string :=
  match s with
  | EmptyString => EmptyString
  | String c s' => if p c then String c (take_while p s') else EmptyString
  end.

(** A match of the attribute pattern at the head of [s]: the name and
    the equals sign, a quote of either kind, a run of characters that
    are no quotes and that is not empty, and a quote of either kind.
    Group 1 is the run. *)
Definition attr_here (name s : string) : option string :=
  if startswith s (name ++ "=") then
    match drop (String.length name + 1) s with
    | String q rest =>
        if is_quote q then
          let run := take_while (fun c => negb (is_quote c)) rest in
          match drop (String.length run) rest with
          | String q' _ => if nonempty run && is_quote q' then Some run else None
          | EmptyString => None
          end
        else None
    | EmptyString => None
    end
  else None.

(** Group 1 of [re.search] with the attribute pattern of [name]. *)
Fixpoint attr_search (name s : string) : option string :=
  match attr_here name s with
  | Some v => Some v
  | None =>
      match s with
      | EmptyString => None
      | String _ s' => attr_search name s'
      end
  end.

(** Group 1 of [re.search(r'^<(\w+)', element_html)]. *)
Definition tag_search (element_html : string) : option string :=
  match element_html with
  | String "<" rest =>
      match take_while isword rest with
      | EmptyString => None
      | tag => Some tag
      end
  | _ => None
  end.

(** [m.group(1) if m else default] *)
Definition group_or (m : option string) (default : string) : string :=
  match m with Some v => v | None => default end.

(** [_extract_element_info] *)
Definition _extract_element_info (element_html : string) : ElementInfo :=
  if negb (nonempty element_html) then mkInfo "" "" "" "" "" "" "" ""
  else
    mkInfo
      (group_or (attr_search "id" element_html) "")
      (group_or (attr_search "class" element_html) "")
      (group_or (attr_search "name" element_html) "")
      (group_or (attr_search "data-testid" element_html) "")
      (group_or (attr_search "aria-label" element_html) "")
      (match tag_search element_html with
       | Some tag => lower tag
       | None => ""
       end)
      (group_or (attr_search "placeholder" element_html) "")
      (group_or (attr_search "value" element_html) "").

(** A match of [>([^<]+)</] at the head of [s]: group 1. *)
Definition inner_text_here (s : string) : option string :=
  match s with
  | String ">" rest =>
      let run := take_while (fun c => negb (Ascii.eqb c "<")) rest in
      if nonempty run && startswith (drop (String.length run) rest) "</"
      then Some run else None
  | _ => None
  end.

(** Group 1 of [re.search(r'>([^<]+)</', element_html)]. *)
Fixpoint inner_text_search (s : string) : option string :=
  match inner_text_here s with
  | Some v => Some v
  | None =>
      match s with
      | EmptyString => None
      | String _ s' => inner_text_search s'
      end
  end.

(** [_extract_human_identifier] *)
Definition _extract_human_identifier (element_html event_data : string)
    (element_info : ElementInfo) : string :=
  let from_markup :=
    let inner :=
      match inner_text_search element_html with
      | Some group => strip group
      | None => ""
      end in
    if nonempty inner then slice inner 0 100
    else if nonempty (info_placeholder element_info)
    then "[Input: " ++ info_placeholder element_info ++ "]"
    else if nonempty (info_aria_label element_info)
    then "[" ++ info_aria_label element_info ++ "]"
    else if nonempty (info_id element_info)
    then "[Element with ID: " ++ info_id element_info ++ "]"
    else if nonempty (info_name element_info)
    then "[Named: " ++ info_name element_info ++ "]"
    else "[" ++ info_tag element_info ++ "]" in
  if nonempty event_data && nonempty (strip event_data) then
    let text_clean := slice (strip event_data) 0 100 in
    if 0 <? String.length text_clean then text_clean else from_markup
  else from_markup.

(** [_determine_element_role] *)
Definition _determine_element_role (element_html : string)
    (element_info : ElementInfo) : ElementRole :=
  let tag := lower (info_tag element_info) in
  let html_lower := lower element_html in
  if String.eqb tag "button" then BUTTON
  else if String.eqb tag "a" then LINK
  else if String.eqb tag "input" then
    match attr_search "type" element_html with
    | Some group =>
        let type_val := lower group in
        if String.eqb type_val "checkbox" then CHECKBOX
        else if String.eqb type_val "radio" then RADIO
        else if String.eqb type_val "text" then TEXTBOX
        else if String.eqb type_val "submit" then BUTTON
        else TEXTBOX
    | None => TEXTBOX
    end
  else if String.eqb tag "textarea" then TEXTAREA
  else if String.eqb tag "select" then DROPDOWN
  else if String.eqb tag "img" then IMAGE
  else if contains "button" html_lower then BUTTON
  else OTHER.

(** [_extract_element_info] for a value that may be [None], for which
    [not element_html] holds as it does for the empty string. *)
Definition element_info_of (element_html : option string) : ElementInfo :=
  match element_html with
  | None => mkInfo "" "" "" "" "" "" "" ""
  | Some element_html => _extract_element_info element_html
  end.

(** [_extract_human_identifier] for values that may be [None].  For
    [event_data] it is falsy, like the empty string.  For [element_html]
    the event data can still give the result; after that [re.search]
    is called on the value and raises TypeError. *)
Definition human_identifier_of (element_html event_data : option string)
    (element_info : ElementInfo) : outcome string :=
  let event_data := match event_data with Some d => d | None => "" end in
  match element_html with
  | Some element_html =>
      Returns (_extract_human_identifier element_html event_data element_info)
  | None =>
      if nonempty event_data && nonempty (strip event_data) then
        let text_clean := slice (strip event_data) 0 100 in
        if 0 <? String.length text_clean then Returns text_clean else Raises
      else Raises
  end.

(** [_determine_element_role] for a value that may be [None]: its second
    statement calls [element_html.lower()]. *)
Definition element_role_of (element_html : option string)
    (element_info : ElementInfo) : outcome ElementRole :=
  method (fun element_html => _determine_element_role element_html element_info)
    element_html.

(** [_normalize_action_event].  On [None] for the event type the first
    statement of [_determine_normalized_action], [event_type.lower()],
    raises. *)
Definition _normalize_action_event (step : RawStep) (idx : nat)
    : outcome (option PreprocessedStep) :=
  let event_element := eventElement step in
  let event_data := eventData step in
  match eventType step with
  | None => Raises
  | Some event_type =>
      action <- _determine_normalized_action event_type event_element event_data ;;
      match action with
      | None => Returns None
      | Some action =>
          let element_info := element_info_of event_element in
          human_identifier <-
            human_identifier_of event_element event_data element_info ;;
          element_role <- element_role_of event_element element_info ;;
          clean <- strip_tracking (url step) ;;
          Returns
            (Some
               (mkPre idx (action_value action) (role_value element_role)
                  human_identifier "visible" true
                  (mkElementHints (info_id element_info) (info_class element_info)
                     (info_name element_info) (info_test_id element_info)
                     (info_aria_label element_info) (info_tag element_info))
                  (match action with
                   | TYPE | SELECT => event_data
                   | _ => Some ""
                   end)
                  clean event_type (raw_id step) false ""))
      end
  end.

(** The attributes of the preprocessor that [preprocess] reads and
    writes. *)
Record t : Type := mkPreprocessor {
  raw_steps : list RawStep;
  preprocessed_steps : list PreprocessedStep;
  context_events : list PreprocessedStep;
  filtered_count : nat;
  action_count : nat
}.

(** [__init__] *)
Definition init : t := mkPreprocessor [] [] [] 0 0.

(** One turn of the loop of [preprocess]. *)
Definition preprocess_step (self : t) (idx : nat) (step : RawStep) : outcome t :=
  classified <- _classify_event step ;;
  let '(category, event_type) := classified in
  match category with
  | CONTEXT =>
      context_step <- _normalize_context_event step event_type idx ;;
      Returns
        (mkPreprocessor (raw_steps self)
           (append (preprocessed_steps self) context_step)
           (append (context_events self) context_step)
           (filtered_count self + 1) (action_count self))
  | ACTION =>
      normalized <- _normalize_action_event step idx ;;
      match normalized with
      | Some normalized_step =>
          Returns
            (mkPreprocessor (raw_steps self)
               (append (preprocessed_steps self) normalized_step)
               (context_events self) (filtered_count self)
               (action_count self + 1))
      | None => Returns self
      end
  end.

Fixpoint preprocess_loop (self : t) (idx : nat) (steps : list RawStep)
    : outcome t :=
  match steps with
  | [] => Returns self
  | step :: rest =>
      self <- preprocess_step self idx step ;;
      preprocess_loop self (S idx) rest
  end.

(** [preprocess]: the list returned and the preprocessor afterwards.
    The steps given, if any, take the place of [raw_steps] before the
    test for an empty recording. *)
Definition preprocess (self : t) (steps : option (list RawStep))
    : outcome (list PreprocessedStep * t) :=
  let self :=
    match steps with
    | Some steps =>
        mkPreprocessor steps (preprocessed_steps self) (context_events self)
          (filtered_count self) (action_count self)
    | None => self
    end in
  match raw_steps self with
  | [] => Returns ([], self)
  | _ =>
      self <-
        preprocess_loop (mkPreprocessor (raw_steps self) [] [] 0 0) 0
          (raw_steps self) ;;
      Returns (preprocessed_steps self, self)
  end.

End StepsPreprocessor.

(* ===================================================================== *)
(** ** intent_generator.py *)
(* ===================================================================== *)

Module IntentGenerator.
Import Py.

(** The dict [element_hints]; [None] is a key that is absent. *)
Record Hints : Type := mkHints {
  hint_id : option string;
  hint_class : option string;
  hint_name : option string;
  hint_test_id : option string;
  hint_aria_label : option string;
  hint_tag : option string
}.

(** [hints[key]] behind a truthy [hints.get(key)] *)
Definition get (o : option string) : string :=
  match o with Some s => s | None => EmptyString end.

(** [_build_selector_from_hints] *)
Definition _build_selector_from_hints (hints : Hints) : string :=
  if truthy (hint_id hints) then "#" ++ get (hint_id hints)
  else if truthy (hint_name hints) then "[name='" ++ get (hint_name hints) ++ "']"
  else
    let after_class :=
      if truthy (hint_test_id hints)
      then "[data-testid='" ++ get (hint_test_id hints) ++ "']"
      else if truthy (hint_aria_label hints)
      then "[aria-label='" ++ get (hint_aria_label hints) ++ "']"
      else "" in
    if truthy (hint_class hints) then
      match split_ws (get (hint_class hints)) with
      | first :: _ => "." ++ first
      | [] => after_class
      end
    else after_class.

(** The dict that [_build_selector_from_hints] reads when it is given
    the hints of a preprocessed step: every key is there. *)
Definition hints_of (h : StepsPreprocessor.ElementHints) : Hints :=
  mkHints (Some (StepsPreprocessor.eh_id h))
    (Some (StepsPreprocessor.eh_class h))
    (Some (StepsPreprocessor.eh_name h))
    (Some (StepsPreprocessor.eh_test_id h))
    (Some (StepsPreprocessor.eh_aria_label h))
    (Some (StepsPreprocessor.eh_tag h)).

(** A preprocessed step in the place of [original_step]: the keys that
    the gate and the emitter read.  A preprocessed step has no
    [eventElement] and no [url]. *)
Definition as_original_step (step : StepsPreprocessor.PreprocessedStep)
    : IntentValidator.Step :=
  IntentValidator.mkStep
    (StepsPreprocessor.is_context_event step)
    (StepsPreprocessor.normalized_action step)
    ""
    (Some (StepsPreprocessor.clean_url step))
    None.

(** A value that may be [None] inside an f-string: [None] is written as
    its name. *)
Definition fstr (value : option string) : string :=
  match value with
  | Some s => s
  | None => "None"
  end.

(** [intent_template.get(action, ...)] *)
Definition intent_text (action role identifier value : string) : string :=
  if String.eqb action "click" then "Click on " ++ role ++ ": " ++ identifier
  else if String.eqb action "type"
  then "Type '" ++ value ++ "' in " ++ role ++ ": " ++ identifier
  else if String.eqb action "select"
  then "Select '" ++ value ++ "' from " ++ role ++ ": " ++ identifier
  else if String.eqb action "submit" then "Submit " ++ role ++ ": " ++ identifier
  else if String.eqb action "hover"
  then "Hover over " ++ role ++ ": " ++ identifier
  else if String.eqb action "navigate" then "Navigate to " ++ identifier
  else "Perform " ++ action ++ " on " ++ identifier.

(** [_generate_intent_from_preprocessed]: the keys of the dict that the
    gate reads. *)
Definition _generate_intent_from_preprocessed
    (step : StepsPreprocessor.PreprocessedStep) : IntentValidator.IntentObj :=
  let action := StepsPreprocessor.normalized_action step in
  let role := StepsPreprocessor.element_role step in
  let identifier := StepsPreprocessor.human_identifier step in
  let value := StepsPreprocessor.value step in
  let intent := intent_text action role identifier (fstr value) in
  IntentValidator.mkIntentObj
    (StepsPreprocessor.original_event_type step)
    intent
    (Some (_build_selector_from_hints
             (hints_of (StepsPreprocessor.element_hints step))))
    (as_original_step step).

(** [_generate_intents_from_preprocessed_steps]: the intents returned
    and the validator of the generator afterwards. *)
Definition _generate_intents_from_preprocessed_steps (validator : IntentValidator.t)
    (steps : list StepsPreprocessor.PreprocessedStep)
    : list IntentValidator.Intent * IntentValidator.t :=
  let raw_intents :=
    map (fun step => Some (_generate_intent_from_preprocessed step)) steps in
  let '((intents, _), validator) :=
    IntentValidator.validate_and_clean_intents validator raw_intents in
  (intents, validator).

End IntentGenerator.

(* ===================================================================== *)
(** ** ast_converter.py: the node type *)
(* ===================================================================== *)

Module Ast.

Inductive PlaywrightActionType : Type :=
| NAVIGATE | CLICK | FILL_TEXT | SELECT | WAIT
| SCROLL | HOVER | PRESS | KEYBOARD | SCREENSHOT.

(** [action_type.value] *)
Definition value_of (a : PlaywrightActionType) : string :=
  match a with
  | NAVIGATE => "navigate" | CLICK => "click" | FILL_TEXT => "fill"
  | SELECT => "select" | WAIT => "wait" | SCROLL => "scroll"
  | HOVER => "hover" | PRESS => "press" | KEYBOARD => "keyboard"
  | SCREENSHOT => "screenshot"
  end.

Definition action_eqb (a b : PlaywrightActionType) : bool :=
  String.eqb (value_of a) (value_of b).

(** [PlaywrightAST]; the list [children] stays empty and is left out. *)
Record PlaywrightAST : Type := mkNode {
  action_type : PlaywrightActionType;
  selector : option string;
  value : option string;
  url : option string;
  wait_time : Z;
  description : string;
  element_html : option string
}.

End Ast.

(* ===================================================================== *)
(** ** javascript_code_generator.py *)
(* ===================================================================== *)

Module JavaScriptCodeGenerator.
Import Py Re Urllib Ast.
Local Open Scope outcome_scope.

(** The attributes of the generator object. *)
Record t : Type := mkGen {
  generated_code : string;
  code_warnings : list string;
  code_errors : list string;
  selector_usage_count : dict nat;
  selector_index_map : dict (list nat)
}.

(** [__init__] *)
Definition init : t := mkGen "" [] [] [] [].

Definition add_error (self : t) (msg : string) : t :=
  mkGen (generated_code self) (code_warnings self)
    (append (code_errors self) msg)
    (selector_usage_count self) (selector_index_map self).

Definition add_warning (self : t) (msg : string) : t :=
  mkGen (generated_code self) (append (code_warnings self) msg)
    (code_errors self)
    (selector_usage_count self) (selector_index_map self).

(** In the text of a template a backquote stands for the double quote
    of the source. *)
Definition js (template : string) : string := js_quotes template.

Definition indent : string := "        ".

(** The action types that act on an element. *)
Definition interactive (a : PlaywrightActionType) : bool :=
  match a with
  | CLICK | FILL_TEXT | SELECT | HOVER => true
  | _ => false
  end.

(** The list [malformed_patterns]. *)
Definition malformed_patterns : list pattern :=
  [ Pat true (Chr (one_of "{}()>")) false;                (* ^[{}()>] *)
    Pat false (Chr (one_of "{}()>")) true;                (* [{}()>]$ *)
    Pat false (Chr (one_of "<>")) false;                  (* [\<\>] *)
    Pat true (Cat (Plus letter) (Cat (Star ws) (Cat (lit ">") (Star ws)))) true
                                                          (* ^[a-zA-Z]+\s*>\s*$ *)
  ].

(** [_is_valid_selector] *)
Definition _is_valid_selector (selector : string) : bool :=
  if negb (nonempty selector) then false
  else negb (existsb (fun p => re_search p selector) malformed_patterns).

(** [not s or not s.strip()] for an Optional[str] *)
Definition blank (o : option string) : bool :=
  match o with
  | None => true
  | Some s => negb (nonempty s) || negb (nonempty (strip s))
  end.

(** [_is_node_safe_for_codegen] *)
Definition _is_node_safe_for_codegen (self : t) (node : PlaywrightAST)
    (step_idx : nat) : bool * t :=
  match action_type node with
  | WAIT => (true, self)
  | CLICK | FILL_TEXT | SELECT | HOVER =>
      if blank (selector node) then
        (false,
         add_error self
           ("Step " ++ str_of_nat step_idx ++ ": Missing selector for "
              ++ value_of (action_type node)))
      else
        let sel := match selector node with Some s => s | None => "" end in
        if negb (_is_valid_selector sel) then
          (false,
           add_error self
             ("Step " ++ str_of_nat step_idx ++ ": Malformed selector '"
                ++ sel ++ "' rejected"))
        else (true, self)
  | NAVIGATE =>
      if blank (url node) then
        (false,
         add_error self
           ("Step " ++ str_of_nat step_idx ++ ": Missing URL for navigate action"))
      else (true, self)
  | _ => (true, self)
  end.

(** The loop of [_validate_all_nodes_before_codegen], from index [idx]. *)
Fixpoint validate_nodes (self : t) (idx : nat) (safe_nodes : list PlaywrightAST)
    (ast_nodes : list PlaywrightAST) : list PlaywrightAST * t :=
  match ast_nodes with
  | [] => (safe_nodes, self)
  | node :: rest =>
      let '(ok, self) := _is_node_safe_for_codegen self node idx in
      if ok then validate_nodes self (S idx) (append safe_nodes node) rest
      else
        validate_nodes
          (add_warning self
             ("Step " ++ str_of_nat idx
                ++ ": Node failed safety check, skipped from code generation"))
          (S idx) safe_nodes rest
  end.

(** [_validate_all_nodes_before_codegen] *)
Definition _validate_all_nodes_before_codegen (self : t)
    (ast_nodes : list PlaywrightAST) : list PlaywrightAST * t :=
  validate_nodes self 0 [] ast_nodes.

(** One turn of the loop of [_analyze_selector_usage]. *)
Definition count_node (tables : dict nat * dict (list nat)) (node : PlaywrightAST)
    : dict nat * dict (list nat) :=
  let '(usage, index) := tables in
  if truthy (selector node) && interactive (action_type node) then
    let sel := match selector node with Some s => s | None => "" end in
    let '(usage, index) :=
      match dict_get usage sel with
      | None => (dict_set usage sel 0, dict_set index sel [])
      | Some _ => (usage, index)
      end in
    let n := match dict_get usage sel with Some n => n | None => 0 end in
    let l := match dict_get index sel with Some l => l | None => [] end in
    (dict_set usage sel (n + 1), dict_set index sel (append l n))
  else tables.

(** [_analyze_selector_usage] *)
Definition _analyze_selector_usage (self : t) (ast_nodes : list PlaywrightAST) : t :=
  let '(usage, index) := fold_left count_node ast_nodes ([], []) in
  mkGen (generated_code self) (code_warnings self) (code_errors self) usage index.

(** [_get_locator_with_occurrence] *)
Definition _get_locator_with_occurrence (self : t) (selector : option string)
    (occurrence : nat) : string :=
  if negb (truthy selector) then "page.locator('body')"
  else
    let selector := match selector with Some s => s | None => "" end in
    let escaped_selector := replace "034" ("\" ++ DQ) (replace "'" "\'" selector) in
    let total_count :=
      match dict_get (selector_usage_count self) selector with
      | Some n => n
      | None => 1
      end in
    if 1 <? total_count
    then "page.locator('" ++ escaped_selector ++ "').nth(" ++ str_of_nat occurrence ++ ")"
    else "page.locator('" ++ escaped_selector ++ "').first()".

(** [_escape_string] *)
Definition _escape_string (text : option string) : string :=
  if negb (truthy text) then ""
  else
    let text := match text with Some s => s | None => "" end in
    replace "009" "\t"
      (replace "013" "\r"
         (replace "010" "\n"
            (replace "034" ("\" ++ DQ) text))).

(** A Python value that is either a truthy string or replaced by a
    default: [x or default]. *)
Definition or_default (x : option string) (default : string) : string :=
  if truthy x then match x with Some s => s | None => default end else default.

(** The scheme and host of a parsed URL, [scheme://netloc]. *)
Definition base_of (url : string) : outcome string :=
  parsed <- urlparse url ;;
  Returns (scheme parsed ++ "://" ++ netloc parsed).

(** [_extract_base_url_from_intents] *)
Definition _extract_base_url_from_intents
    (intents : option (list IntentValidator.Intent)) : outcome (option string) :=
  match intents with
  | None | Some [] => Returns None
  | Some (first_intent :: _) =>
      try_except
        (let original_step := IntentValidator.original_step first_intent in
         let url :=
           if truthy (IntentValidator.clean_url original_step)
           then IntentValidator.clean_url original_step
           else IntentValidator.step_url original_step in
         match url with
         | Some u =>
             if nonempty u then base <- base_of u ;; Returns (Some base)
             else Returns None
         | None => Returns None
         end)
        (Returns None)
  end.

(** The first node with a truthy [url], if any. *)
Fixpoint first_with_url (ast_nodes : list PlaywrightAST) : option string :=
  match ast_nodes with
  | [] => None
  | node :: rest =>
      if truthy (url node) then url node else first_with_url rest
  end.

(** [_extract_base_url_from_ast] *)
Definition _extract_base_url_from_ast (ast_nodes : list PlaywrightAST)
    : outcome (option string) :=
  match ast_nodes with
  | [] => Returns None
  | _ =>
      try_except
        (match first_with_url ast_nodes with
         | Some u => base <- base_of u ;; Returns (Some base)
         | None => Returns None
         end)
        (Returns None)
  end.

(** The first node whose action is [NAVIGATE], if any. *)
Fixpoint first_navigate (ast_nodes : list PlaywrightAST) : option PlaywrightAST :=
  match ast_nodes with
  | [] => None
  | node :: rest =>
      if action_eqb (action_type node) NAVIGATE then Some node
      else first_navigate rest
  end.

Definition placeholder_url : string := "https://www.example.com".

(** The local [initial_url] of [_generate_initial_navigation_block]. *)
Definition initial_url (ast_nodes : list PlaywrightAST) (base_url : option string)
    : string :=
  if truthy base_url then or_default base_url ""
  else
    let found :=
      match first_navigate ast_nodes with
      | Some node => url node
      | None => None
      end in
    or_default found placeholder_url.

(** The page-load call of the initial block. *)
Definition initial_goto (escaped_url : string) : string :=
  js "await page.goto(`" ++ escaped_url
    ++ js "`, { waitUntil: `load`, timeout: 30000 });".

(** The text of the initial block around an escaped URL. *)
Definition initial_block_text (escaped_url : string) : string :=
  join NL
    [ indent ++ "// Initial Navigation: Load the base page";
      indent ++ js "console.log(`Initial: Navigating to " ++ escaped_url ++ js "...`);";
      indent ++ "try {";
      indent ++ "    " ++ initial_goto escaped_url;
      indent ++ "    await page.waitForTimeout(1000);";
      indent ++ js "    console.log(`  [OK] Page loaded successfully`);";
      indent ++ "} catch (error) {";
      indent ++ js "    console.warn(`  [WARN] Page load warning: ` + error.message + ` (continuing anyway)`);";
      indent ++ "}" ].

(** [_generate_initial_navigation_block] *)
Definition _generate_initial_navigation_block (ast_nodes : list PlaywrightAST)
    (base_url : option string) : string :=
  initial_block_text (_escape_string (Some (initial_url ast_nodes base_url))).

(** The block every action is wrapped in: a comment, a log line, the
    body of the [try], and the [throw] of the [catch]. *)
Definition action_block (step : string) (title log : string)
    (body : list string) (failure : string) : string :=
  join NL
    (List.app
       [ indent ++ "// Step " ++ step ++ ": " ++ title;
         indent ++ js "console.log(`Step " ++ step ++ ": " ++ log ++ js "`);";
         indent ++ "try {" ]
       (List.app
          (map (fun l => indent ++ "    " ++ l) body)
          [ indent ++ "} catch (error) {";
            indent ++ js "    throw new Error(`" ++ failure ++ " at step " ++ step
                   ++ js ": ` + error.message);";
            indent ++ "}" ])).

(** [_generate_action] *)
Definition _generate_action (self : t) (node : PlaywrightAST) (step_index : nat)
    (occurrence : nat) : string :=
  let i := str_of_nat step_index in
  match action_type node with
  | NAVIGATE =>
      let url := _escape_string (url node) in
      action_block i ("Navigate to " ++ url) ("Navigating to " ++ url ++ "...")
        [ js "await page.goto(`" ++ url ++ js "`, { waitUntil: `networkidle` });";
          js "console.log(`  [OK] Navigation complete`);" ]
        "Navigation failed"
  | CLICK =>
      let locator_code := _get_locator_with_occurrence self (selector node) occurrence in
      action_block i "Click on element" "Clicking on element..."
        [ "const locator = " ++ locator_code ++ ";";
          js "await locator.waitFor({ state: `visible`, timeout: 5000 });";
          "await locator.click();";
          "await page.waitForTimeout(500);";
          js "console.log(`  [OK] Click action complete`);" ]
        "Click failed"
  | FILL_TEXT =>
      let value := _escape_string (value node) in
      let locator_code := _get_locator_with_occurrence self (selector node) occurrence in
      action_block i "Fill input field" "Filling input field..."
        [ "const locator = " ++ locator_code ++ ";";
          js "await locator.waitFor({ state: `visible`, timeout: 5000 });";
          js "await locator.fill(`" ++ value ++ js "`);";
          js "console.log(`  [OK] Fill action complete`);" ]
        "Fill failed"
  | SELECT =>
      let value := _escape_string (value node) in
      let locator_code := _get_locator_with_occurrence self (selector node) occurrence in
      action_block i "Select option" "Selecting option..."
        [ "const locator = " ++ locator_code ++ ";";
          js "await locator.waitFor({ state: `visible`, timeout: 5000 });";
          js "await locator.selectOption(`" ++ value ++ js "`);";
          js "console.log(`  [OK] Select action complete`);" ]
        "Select failed"
  | WAIT =>
      let wait_time := if (wait_time node =? 0)%Z then 5000%Z else wait_time node in
      action_block i "Wait for element"
        ("Waiting " ++ str_of_Z wait_time ++ "ms...")
        [ "await page.waitForTimeout(" ++ str_of_Z wait_time ++ ");";
          js "console.log(`  [OK] Wait complete`);" ]
        "Wait failed"
  | SCROLL =>
      action_block i "Scroll page" "Scrolling down..."
        [ "await page.evaluate(() => window.scrollBy(0, window.innerHeight));";
          "await page.waitForTimeout(500);";
          js "console.log(`  [OK] Scroll complete`);" ]
        "Scroll failed"
  | HOVER =>
      let locator_code := _get_locator_with_occurrence self (selector node) occurrence in
      action_block i "Hover on element" "Hovering on element..."
        [ "const locator = " ++ locator_code ++ ";";
          js "await locator.waitFor({ state: `visible`, timeout: 5000 });";
          "await locator.hover();";
          js "console.log(`  [OK] Hover complete`);" ]
        "Hover failed"
  | PRESS =>
      let key := or_default (value node) "Enter" in
      action_block i "Press key" ("Pressing " ++ key ++ "...")
        [ js "await page.press(`body`, `" ++ key ++ js "`);";
          "await page.waitForTimeout(500);";
          js "console.log(`  [OK] Key press complete`);" ]
        "Key press failed"
  | KEYBOARD =>
      let keys := or_default (value node) "" in
      action_block i "Type text" "Typing text..."
        [ js "await page.keyboard.type(`" ++ _escape_string (Some keys) ++ js "`);";
          js "console.log(`  [OK] Text input complete`);" ]
        "Text input failed"
  | SCREENSHOT =>
      let filename := "screenshot_step_" ++ i ++ ".png" in
      action_block i "Take screenshot" "Taking screenshot..."
        [ js "await page.screenshot({ path: `" ++ filename ++ js "` });";
          js "console.log(`  [OK] Screenshot saved to " ++ filename ++ js "`);" ]
        "Screenshot failed"
  end.

(** The state of the emission loop of [generate_code_from_ast]. *)
Record Emit : Type := mkEmit {
  skip_first_navigate : bool;
  selector_occurrence_counter : dict nat;
  emitted : list string             (* what the loop appends to [lines] *)
}.

(** One turn of [for idx, node in enumerate(safe_nodes)]. *)
Definition emit_node (self : t) (st : Emit) (idx : nat) (node : PlaywrightAST)
    : Emit :=
  if skip_first_navigate st && action_eqb (action_type node) NAVIGATE then
    mkEmit false (selector_occurrence_counter st) (emitted st)
  else
    let '(occurrence, counter) :=
      match selector node with
      | Some sel =>
          if nonempty sel then
            let counter :=
              match dict_get (selector_occurrence_counter st) sel with
              | None => dict_set (selector_occurrence_counter st) sel 0
              | Some _ => selector_occurrence_counter st
              end in
            let occurrence :=
              match dict_get counter sel with Some n => n | None => 0 end in
            (occurrence, dict_set counter sel (occurrence + 1))
          else (0, selector_occurrence_counter st)
      | None => (0, selector_occurrence_counter st)
      end in
    let generated_action := _generate_action self node idx occurrence in
    mkEmit (skip_first_navigate st) counter
      (if nonempty generated_action then append (emitted st) generated_action
       else emitted st).

Fixpoint emit_loop (self : t) (st : Emit) (idx : nat)
    (safe_nodes : list PlaywrightAST) : Emit :=
  match safe_nodes with
  | [] => st
  | node :: rest => emit_loop self (emit_node self st idx node) (S idx) rest
  end.

Definition header : list string :=
  [ "// Auto-generated Playwright JavaScript test script";
    "// This script uses Playwright's high-level APIs with automatic waiting";
    "// All elements are located by ID or class name with proper handling for duplicates";
    "const { chromium } = require('playwright');";
    "";
    "async function runTests() {";
    "    const browser = await chromium.launch();";
    "    const page = await browser.newPage();";
    "    let lastError = null;" ].

Definition footer : list string :=
  [ "";
    "        console.log('[OK] All steps completed successfully');";
    "    } catch (error) {";
    "        console.error('[FAIL] Test execution failed:', error.message);";
    "        lastError = error;";
    "    } finally {";
    "        await browser.close();";
    "    }";
    "}";
    "";
    "runTests().catch(error => {";
    "    console.error('[FAIL] Unrecoverable error:', error);";
    "    process.exit(1);";
    "});" ].

(** The local [base_url] of [generate_code_from_ast]:
    [first_url or from_intents or from_ast or placeholder], each operand
    evaluated only when the ones before it are falsy. *)
Definition base_url (first_url : option string)
    (intents : option (list IntentValidator.Intent))
    (safe_nodes : list PlaywrightAST) : outcome string :=
  if truthy first_url then Returns (or_default first_url "")
  else
    a <- _extract_base_url_from_intents intents ;;
    if truthy a then Returns (or_default a "")
    else
      b <- _extract_base_url_from_ast safe_nodes ;;
      Returns (or_default b placeholder_url).

(** The list [lines] at the end of [generate_code_from_ast]. *)
Definition script_lines (self : t) (safe_nodes : list PlaywrightAST)
    (base_url : string) : list string :=
  let initial_block :=
    _generate_initial_navigation_block safe_nodes (Some base_url) in
  List.concat
    [ header;
      [ ""; "    try {"; "" ];
      if nonempty initial_block then [ initial_block; "" ] else [];
      emitted (emit_loop self (mkEmit true [] []) 0 safe_nodes);
      footer ].

(** [generate_code_from_ast]: the text returned and the generator
    afterwards. *)
Definition generate_code_from_ast (self : t) (ast_nodes : list PlaywrightAST)
    (intents : option (list IntentValidator.Intent)) (first_url : option string)
    : outcome (string * t) :=
  match ast_nodes with
  | [] => Returns ("", self)
  | _ =>
      let '(safe_nodes, self) := _validate_all_nodes_before_codegen self ast_nodes in
      match safe_nodes with
      | [] =>
          Returns ("", add_error self "No valid AST nodes passed safety checks")
      | _ =>
          let self := _analyze_selector_usage self safe_nodes in
          base <- base_url first_url intents safe_nodes ;;
          let code := join NL (script_lines self safe_nodes base) in
          Returns
            (code,
             mkGen code (code_warnings self) (code_errors self)
               (selector_usage_count self) (selector_index_map self))
      end
  end.

End JavaScriptCodeGenerator.

(* ===================================================================== *)
(** ** main.py *)
(* ===================================================================== *)

Module Main.
Import Py Ast.
Local Open Scope outcome_scope.

(** What [JavaScriptCodeTester.test_code] returns. *)
Record TestResults : Type := mkTestResults {
  total_errors : Z;
  errors : list string;
  status : string
}.

(** The summary dict of a run. *)
Record Summary : Type := mkSummary {
  pipeline_status : string;
  failure_reason : option string;
  steps_processed : Z;
  intents_generated : Z;
  ast_nodes_created : Z;
  code_lines : Z;
  js_code_errors : Z;
  test_status : string
}.

Section Pipeline.

(** The stages around the code generator.  They are arbitrary here: what
    is proved of a run holds whatever these stages compute. *)
Variable PreprocessedStep : Type.
Variable generate_intents_for_all_steps :
  list PreprocessedStep -> list IntentValidator.Intent.
Variable convert_all_intents_to_ast :
  list IntentValidator.Intent -> list PlaywrightAST.
Variable validate_ast_sync : list PlaywrightAST -> list PlaywrightAST.
Variable test_code : string -> TestResults.

(** The attributes of [PlaywrightScriptGenerator] that a run reads back. *)
Record t : Type := mkMain {
  steps : list PreprocessedStep;
  intents : list IntentValidator.Intent;
  ast_nodes : list PlaywrightAST;
  generated_code : string;
  test_results : option TestResults;
  code_gen : JavaScriptCodeGenerator.t
}.

(** [_get_failed_summary] *)
Definition _get_failed_summary (self : t) (reason : string) : Summary :=
  mkSummary "ABORTED" (Some reason)
    (Z.of_nat (List.length (steps self)))
    (Z.of_nat (List.length (intents self)))
    (Z.of_nat (List.length (ast_nodes self)))
    0 0 "SKIPPED".

(** [get_summary] *)
Definition get_summary (self : t) : Summary :=
  mkSummary
    (match test_results self with
     | None => "SUCCESS"
     | Some r => if String.eqb (status r) "PASS" then "SUCCESS" else "FAILED"
     end)
    None
    (Z.of_nat (List.length (steps self)))
    (Z.of_nat (List.length (intents self)))
    (Z.of_nat (List.length (ast_nodes self)))
    (if nonempty (generated_code self)
     then Z.of_nat (List.length (split_all "010" (generated_code self)))
     else 0%Z)
    (match test_results self with Some r => total_errors r | None => 0%Z end)
    (match test_results self with Some r => status r | None => "UNKNOWN" end).

(** [generate_code] *)
Definition generate_code (self : t) : outcome t :=
  match ast_nodes self with
  | [] =>
      Returns (mkMain (steps self) (intents self) (ast_nodes self) ""
                 (test_results self) (code_gen self))
  | _ =>
      r <- JavaScriptCodeGenerator.generate_code_from_ast (code_gen self)
             (ast_nodes self) (Some (intents self)) None ;;
      let '(code, gen) := r in
      Returns
        (mkMain (steps self) (intents self) (ast_nodes self)
           (if negb (nonempty code) || (String.length (strip code) =? 0)
            then "" else code)
           (test_results self) gen)
  end.

(** [run_pipeline], from the preprocessed steps on: the summary returned
    and the orchestrator afterwards. *)
Definition run_pipeline (self : t) (preprocessed_steps : list PreprocessedStep)
    (validate_dom : bool) : outcome (Summary * t) :=
  (* load_and_chunk_steps *)
  let self := mkMain preprocessed_steps (intents self) (ast_nodes self)
                (generated_code self) (test_results self) (code_gen self) in
  (* generate_intents *)
  let self := mkMain (steps self) (generate_intents_for_all_steps (steps self))
                (ast_nodes self) (generated_code self) (test_results self)
                (code_gen self) in
  if List.length (intents self) =? 0 then
    Returns (_get_failed_summary self "No valid intents after validation", self)
  else
    (* convert_to_ast *)
    let self := mkMain (steps self) (intents self)
                  (convert_all_intents_to_ast (intents self))
                  (generated_code self) (test_results self) (code_gen self) in
    if List.length (ast_nodes self) =? 0 then
      Returns (_get_failed_summary self "No valid AST nodes after conversion", self)
    else
      (* validate_ast_with_dom *)
      let self :=
        if validate_dom then
          match ast_nodes self with
          | [] => self
          | _ => mkMain (steps self) (intents self)
                   (validate_ast_sync (ast_nodes self))
                   (generated_code self) (test_results self) (code_gen self)
          end
        else self in
      self <- generate_code self ;;
      if negb (nonempty (generated_code self))
         || (String.length (strip (generated_code self)) =? 0)
      then Returns (_get_failed_summary self "Code generation failed", self)
      else
        (* test_code *)
        let self := mkMain (steps self) (intents self) (ast_nodes self)
                      (generated_code self)
                      (Some (test_code (generated_code self))) (code_gen self) in
        Returns (get_summary self, self).

End Pipeline.

End Main.

(* ===================================================================== *)
(** ** ast_converter.py: the converter *)
(* ===================================================================== *)

Module ASTConverter.
Import Py Re Ast.

(** An intent as the converter reads it: the cleaned intent that the
    gate built, and the two keys of its [original_step] that the gate does
    not read. *)
Record IntentObj : Type := mkObj {
  cleaned : IntentValidator.Intent;
  context_type : string;            (* original_step.get("context_type", "") *)
  eventData : string                (* original_step.get("eventData", "") *)
}.

(** The attributes of the converter that its methods write. *)
Record t : Type := mkConverter {
  ast_nodes : list PlaywrightAST;
  conversion_errors : list string;
  conversion_warnings : list string
}.

(** [__init__] *)
Definition init : t := mkConverter [] [] [].

(** [_is_intent_safe_for_ast]; a cleaned intent is never the empty dict. *)
Definition _is_intent_safe_for_ast (intent_obj : IntentObj) : bool :=
  let intent := strip (IntentValidator.intent (cleaned intent_obj)) in
  let event_type := strip (IntentValidator.event_type (cleaned intent_obj)) in
  let selector := IntentValidator.selector (cleaned intent_obj) in
  if negb (nonempty intent) then false
  else if negb (nonempty event_type) then false
  else
    match selector with
    | Some sel =>
        if nonempty sel then
          if negb (nonempty (strip sel)) then false
          else if negb (IntentValidator._is_valid_css_selector sel) then false
          else true
        else true
    | None => true
    end.

(** Group 1 of [re.search(r"action:\s*(\w+)", s)]: behind the first
    [action:] that is followed, after any whitespace, by a word
    character, the run of word characters. *)
Fixpoint action_field (s : string) : option string :=
  let here :=
    if startswith s "action:" then
      match IntentValidator.take_while isword (lstrip (drop 7 s)) with
      | EmptyString => None
      | w => Some w
      end
    else None in
  match here with
  | Some w => Some w
  | None =>
      match s with
      | EmptyString => None
      | String _ s' => action_field s'
      end
  end.

(** The dict [action_map]. *)
Definition action_map : dict PlaywrightActionType :=
  [ ("click", CLICK); ("type", FILL_TEXT); ("fill", FILL_TEXT);
    ("select", SELECT); ("navigate", NAVIGATE); ("wait", WAIT);
    ("scroll", SCROLL); ("hover", HOVER); ("submit", CLICK) ].

(** The chain of substring tests behind the [Action:] field. *)
Definition by_keywords (intent_lower event_lower : string) : PlaywrightActionType :=
  if contains "navigate" intent_lower || contains "tab_visible" event_lower
     || contains "go to" intent_lower then NAVIGATE
  else if contains "click" intent_lower || contains "click_event" event_lower
  then CLICK
  else if contains "type" intent_lower || contains "fill" intent_lower
          || contains "input" intent_lower then FILL_TEXT
  else if contains "select" intent_lower || contains "choose" intent_lower
  then SELECT
  else if contains "wait" intent_lower then WAIT
  else if contains "scroll" intent_lower then SCROLL
  else if contains "hover" intent_lower then HOVER
  else if contains "press" intent_lower then PRESS
  else CLICK.

(** [_determine_action_type] *)
Definition _determine_action_type (intent event_type : string)
    : PlaywrightActionType :=
  let intent_lower := lower intent in
  let event_lower := lower event_type in
  match action_field intent_lower with
  | Some action_val =>
      match dict_get action_map action_val with
      | Some a => a
      | None => by_keywords intent_lower event_lower
      end
  | None => by_keywords intent_lower event_lower
  end.

(** The tag cut out of the markup by the last two branches of
    [_extract_selector]. *)
Definition cut_tag (element_html : string) : string :=
  let tag_end := find " " element_html 0 in
  let tag_end := if (tag_end =? -1)%Z then find ">" element_html 0 else tag_end in
  strip (slice element_html 1 tag_end).

(** [_extract_selector]; none of the guarded blocks can raise on a str,
    except for the index into an empty list, which the model passes on
    as the source does. *)
Definition _extract_selector (step : IntentValidator.Step) : option string :=
  let element_html := IntentValidator.eventElement step in
  if negb (nonempty element_html) then None
  else
    IntentValidator.first_some
      [ (if contains ("id=" ++ DQ) element_html then
           let element_id := IntentValidator.quoted_after ("id=" ++ DQ) element_html in
           if IntentValidator.present element_id then Some ("#" ++ element_id)
           else None
         else None);
        (if contains ("class=" ++ DQ) element_html then
           let classes := IntentValidator.quoted_after ("class=" ++ DQ) element_html in
           if IntentValidator.present classes then
             match split_ws classes with
             | first_class :: _ =>
                 if nonempty first_class then Some ("." ++ first_class) else None
             | [] => None
             end
           else None
         else None);
        (if contains ("placeholder=" ++ DQ) element_html then
           let placeholder :=
             IntentValidator.quoted_after ("placeholder=" ++ DQ) element_html in
           if IntentValidator.present placeholder
           then Some ("[placeholder=" ++ DQ ++ placeholder ++ DQ ++ "]")
           else None
         else None);
        (if contains ("name=" ++ DQ) element_html then
           let name := IntentValidator.quoted_after ("name=" ++ DQ) element_html in
           if IntentValidator.present name
           then Some (cut_tag element_html ++ "[name=" ++ DQ ++ name ++ DQ ++ "]")
           else None
         else None);
        (let tag := cut_tag element_html in
         Some (if nonempty tag then tag else "div")) ].

(** [original_step.get("url", "")] *)
Definition url_or_empty (step : IntentValidator.Step) : string :=
  match IntentValidator.step_url step with Some u => u | None => "" end.

(** [convert_intent_to_ast]: the node, if any, and the converter
    afterwards. *)
Definition convert_intent_to_ast (self : t) (intent_obj : IntentObj)
    : option PlaywrightAST * t :=
  let c := cleaned intent_obj in
  if negb (_is_intent_safe_for_ast intent_obj) then
    (None,
     mkConverter (ast_nodes self)
       (append (conversion_errors self)
          ("Step " ++ str_of_nat (IntentValidator.step_index c)
             ++ ": Intent failed safety check, AST generation refused"))
       (conversion_warnings self))
  else
    let intent := IntentValidator.intent c in
    let event_type := IntentValidator.event_type c in
    let original_step := IntentValidator.original_step c in
    if IntentValidator.ctx_event c then
      let normalized_action :=
        lower (IntentValidator.normalized_action original_step) in
      if String.eqb normalized_action "navigate"
         || String.eqb (lower (context_type intent_obj)) "navigation"
      then
        let nav_url :=
          if truthy (IntentValidator.clean_url original_step)
          then IntentValidator.clean_url original_step
          else IntentValidator.step_url original_step in
        (Some (mkNode NAVIGATE None None nav_url 5000
                 (str_or intent "Navigate (context event)") None),
         self)
      else
        (Some (mkNode WAIT None None (Some (url_or_empty original_step)) 2000
                 (str_or intent "Wait for context event") None),
         self)
    else
      let action_type := _determine_action_type intent event_type in
      let selector :=
        if truthy (IntentValidator.selector c) then IntentValidator.selector c
        else _extract_selector original_step in
      let url := url_or_empty original_step in
      let value := eventData intent_obj in
      let element_html := IntentValidator.eventElement original_step in
      if truthy selector
         && negb (IntentValidator._is_valid_css_selector
                    (match selector with Some sel => sel | None => "" end))
      then
        (None,
         mkConverter (ast_nodes self) (conversion_errors self)
           (append (conversion_warnings self)
              ("Step " ++ str_of_nat (IntentValidator.step_index c)
                 ++ ": Selector '"
                 ++ match selector with Some sel => sel | None => "" end
                 ++ "' failed sanity check, skipping")))
      else
        (Some (mkNode action_type selector (Some value) (Some url) 5000
                 intent (Some element_html)),
         self).

(** One turn of the loop of [convert_all_intents_to_ast]. *)
Definition convert_step (self : t) (intent_obj : IntentObj) : t :=
  match convert_intent_to_ast self intent_obj with
  | (None, self) => self
  | (Some ast_node, self) =>
      mkConverter (append (ast_nodes self) ast_node)
        (conversion_errors self) (conversion_warnings self)
  end.

(** [convert_all_intents_to_ast]: the list returned and the converter
    afterwards. *)
Definition convert_all_intents_to_ast (self : t) (intents : list IntentObj)
    : list PlaywrightAST * t :=
  let self := fold_left convert_step intents (mkConverter [] [] []) in
  (ast_nodes self, self).

End ASTConverter.

(* ===================================================================== *)
(** ** javascript_code_tester.py *)
(* ===================================================================== *)

Module JavaScriptCodeTester.
Import Py Re.

(** [len(re.findall(p, s))] for a pattern no match of which holds the
    start of another, so that the matches are as many as the places
    where the pattern matches.  With [boundary] the pattern has [\b] in
    front of a word character: the character before is not one.
    [prev_word] tells whether the character before is a word character. *)
Fixpoint count_matches (boundary : bool) (r : regex) (prev_word : bool)
    (s : string) : nat :=
  (if (negb boundary || negb prev_word) && match_here (Pat false r false) r s
   then 1 else 0)
  + match s with
    | EmptyString => 0
    | String c s' => count_matches boundary r (isword c) s'
    end.

(** [try\s*\{] behind the [\b] *)
Definition try_block : regex :=
  Cat (lit "t") (Cat (lit "r") (Cat (lit "y") (Cat (Star ws) (lit "{")))).

(** [\}\s*catch\s*\(] *)
Definition catch_block : regex :=
  Cat (lit "}")
    (Cat (Star ws)
       (Cat (lit "c") (Cat (lit "a") (Cat (lit "t") (Cat (lit "c") (Cat (lit "h")
          (Cat (Star ws) (lit "(")))))))).

(** [s.count(sub)] for a [sub] that cannot overlap itself. *)
Fixpoint count_sub (sub s : string) : nat :=
  (if nonempty s && startswith s sub then 1 else 0)
  + match s with
    | EmptyString => 0
    | String _ s' => count_sub sub s'
    end.

(** [_check_syntax] *)
Definition _check_syntax (code : string) : list string :=
  let errors := [] in
  let open_braces := count "{" code in
  let close_braces := count "}" code in
  let errors :=
    if negb (open_braces =? close_braces)
    then append errors
           ("Unbalanced braces: " ++ str_of_nat open_braces ++ " open, "
              ++ str_of_nat close_braces ++ " close")
    else errors in
  let open_parens := count "(" code in
  let close_parens := count ")" code in
  let errors :=
    if negb (open_parens =? close_parens)
    then append errors
           ("Unbalanced parentheses: " ++ str_of_nat open_parens ++ " open, "
              ++ str_of_nat close_parens ++ " close")
    else errors in
  let open_brackets := count "[" code in
  let close_brackets := count "]" code in
  if negb (open_brackets =? close_brackets)
  then append errors
         ("Unbalanced brackets: " ++ str_of_nat open_brackets ++ " open, "
            ++ str_of_nat close_brackets ++ " close")
  else errors.

(** [_check_unclosed_blocks] *)
Definition _check_unclosed_blocks (code : string) : list string :=
  let try_count := count_matches true try_block false code in
  let catch_count := count_matches false catch_block false code in
  if (0 <? try_count) && negb (catch_count =? try_count)
  then [ "Mismatched try-catch blocks: " ++ str_of_nat try_count ++ " try, "
           ++ str_of_nat catch_count ++ " catch" ]
  else [].

(** A match of the selector pattern at the head of [s]: the call
    [page.$(] with a double quote, a run of characters other than the
    double quote that is not empty, a double quote and the closing
    parenthesis.  Group 1, which is the run, and the length of the
    match. *)
Definition selector_call (s : string) : option (string * nat) :=
  if startswith s ("page.$(" ++ DQ) then
    let rest := drop 8 s in
    let run :=
      IntentValidator.take_while (fun c => negb (Ascii.eqb c "034")) rest in
    if nonempty run && startswith (drop (String.length run) rest) (DQ ++ ")")
    then Some (run, 8 + String.length run + 2)
    else None
  else None.

(** [re.findall] of that pattern: the matches from left to right, each
    search starting behind the match before it; [skip] characters are
    still inside the last match. *)
Fixpoint selector_calls (skip : nat) (s : string) : list string :=
  match s with
  | EmptyString => []
  | String _ s' =>
      match skip with
      | S k => selector_calls k s'
      | O =>
          match selector_call s with
          | Some (run, len) => run :: selector_calls (len - 1) s'
          | None => selector_calls 0 s'
          end
      end
  end.

Definition invalid_chars : list ascii :=
  [ "<"; ">"; "&"; "|"; "^"; "$"; "%" ]%char.

(** The inner loop of [_check_invalid_selectors]: the first of the
    characters that the selector holds. *)
Definition first_invalid (selector : string) : option ascii :=
  List.find (fun char => contains (String char EmptyString) selector) invalid_chars.

(** [_check_invalid_selectors] *)
Definition _check_invalid_selectors (code : string) : list string :=
  let selectors := selector_calls 0 code in
  List.concat
    (map (fun selector =>
            match first_invalid selector with
            | Some char =>
                [ "Invalid character '" ++ String char EmptyString
                    ++ "' in selector: " ++ selector ]
            | None => []
            end)
       selectors).

(** The loop of [_check_unescaped_quotes], from line number [line_num]. *)
Fixpoint check_lines (line_num : nat) (lines : list string) : list string :=
  match lines with
  | [] => []
  | line :: rest =>
      if contains DQ line || contains "\'" line then check_lines (S line_num) rest
      else
        let quote_count :=
          (Z.of_nat (count "034" line)
           - Z.of_nat (count_sub ("\" ++ DQ) line))%Z in
        if negb (quote_count mod 2 =? 0)%Z
        then ("Unclosed quote on line " ++ str_of_nat line_num ++ ": "
                ++ slice (strip line) 0 50)
               :: check_lines (S line_num) rest
        else check_lines (S line_num) rest
  end.

(** [_check_unescaped_quotes] *)
Definition _check_unescaped_quotes (code : string) : list string :=
  check_lines 1 (split_all "010" code).

(** The five substring tests at the head of [test_code]. *)
Definition required_pieces : list (string * string) :=
  [ ("require('playwright')", "Missing Playwright import");
    ("async function", "Missing async function");
    ("chromium.launch()", "Missing browser launch");
    ("newPage()", "Missing page creation");
    ("browser.close()", "Missing browser cleanup") ].

(** [test_code] *)
Definition test_code (code : string) : Main.TestResults :=
  let errors :=
    List.concat
      (map (fun '(piece, message) =>
              if negb (contains piece code) then [message] else [])
         required_pieces) in
  let errors := (errors ++ _check_syntax code)%list in
  let errors := (errors ++ _check_unclosed_blocks code)%list in
  let errors := (errors ++ _check_invalid_selectors code)%list in
  let errors := (errors ++ _check_unescaped_quotes code)%list in
  Main.mkTestResults
    (Z.of_nat (List.length errors))
    errors
    (if List.length errors =? 0 then "PASS" else "FAIL").

End JavaScriptCodeTester.

(* ===================================================================== *)
(** * Properties *)
(* ===================================================================== *)

(** ** Strings *)

Section StringFacts.
Import Py.

Lemma lstrip_head (s : string) :
  lstrip s = EmptyString
  \/ exists c t, lstrip s = String c t /\ isspace c = false.
Proof.
  induction s as [|c s IH]; simpl.
  - now left.
  - destruct (isspace c) eqn:E.
    + exact IH.
    + right. now exists c, s.
Qed.

Lemma rstrip_idempotent (s : string) : rstrip (rstrip s) = rstrip s.
Proof.
  induction s as [|c s IH]; simpl; [reflexivity|].
  destruct (rstrip s) as [|d t] eqn:E.
  - destruct (isspace c) eqn:Ec; simpl; [reflexivity|].
    now rewrite Ec.
  - change (rstrip (String c (String d t)))
      with (match rstrip (String d t) with
            | EmptyString => if isspace c then EmptyString else String c EmptyString
            | u => String c u
            end).
    now rewrite IH.
Qed.

Lemma rstrip_keeps_head (c : ascii) (s : string) :
  isspace c = false -> exists t, rstrip (String c s) = String c t.
Proof.
  intros Hc. simpl.
  destruct (rstrip s) as [|d t].
  - rewrite Hc. now exists EmptyString.
  - now exists (String d t).
Qed.

Lemma strip_idempotent (s : string) : strip (strip s) = strip s.
Proof.
  unfold strip.
  destruct (lstrip_head s) as [E | (c & t & E & Hc)]; rewrite E.
  - reflexivity.
  - destruct (rstrip_keeps_head c t Hc) as (u & Hu).
    assert (L : lstrip (rstrip (String c t)) = rstrip (String c t)).
    { rewrite Hu. simpl. now rewrite Hc. }
    rewrite L. apply rstrip_idempotent.
Qed.

Lemma length_zero_nonempty (s : string) :
  (String.length s =? 0) = negb (nonempty s).
Proof. now destruct s. Qed.

Lemma last_opt_append {A : Type} (l : list A) (x : A) :
  last_opt (append l x) = Some x.
Proof.
  unfold append. induction l as [|a l IH]; [reflexivity|].
  simpl. destruct (l ++ [x])%list eqn:E.
  - now destruct l.
  - exact IH.
Qed.

Lemma length_append {A : Type} (l : list A) (x : A) :
  List.length (append l x) = S (List.length l).
Proof. unfold append. rewrite length_app. simpl. lia. Qed.

End StringFacts.

(* ===================================================================== *)
(** ** The safety gate (intent_validator.py) *)
(* ===================================================================== *)

Section ValidatorFacts.
Import Py IntentValidator.

(** The verdict of the grammar check depends on the selector only through
    its stripped form. *)
Lemma is_valid_strip (s : string) :
  _is_valid_css_selector s = true -> _is_valid_css_selector (strip s) = true.
Proof.
  unfold _is_valid_css_selector.
  destruct (nonempty s); simpl; [|discriminate].
  intros H. rewrite strip_idempotent.
  assert (N : nonempty (strip s) = true).
  { unfold valid_stripped in H. rewrite length_zero_nonempty in H.
    destruct (nonempty (strip s)); [reflexivity | discriminate]. }
  now rewrite N.
Qed.

(** C8. The grammar check is a pure verdict: a selector it accepts is
    accepted again, as it is and in the stripped form the check works on;
    and it rejects the empty string, two spaces, the empty brackets, a
    selector with angle brackets, and an element name followed by a
    lone [>]. *)
Theorem is_valid_idempotent_and_rejections :
  (forall s : string,
      _is_valid_css_selector s = true ->
      _is_valid_css_selector s = true
      /\ _is_valid_css_selector (strip s) = true)
  /\ _is_valid_css_selector "" = false
  /\ _is_valid_css_selector "  " = false
  /\ _is_valid_css_selector "[]" = false
  /\ _is_valid_css_selector "<div>" = false
  /\ _is_valid_css_selector "p>" = false.
Proof.
  split.
  - intros s H. split; [exact H | now apply is_valid_strip].
  - repeat split; vm_compute; reflexivity.
Qed.

Lemma is_valid_idempotent_witness :
  _is_valid_css_selector " #go " = true
  /\ _is_valid_css_selector (strip " #go ") = true.
Proof.
  apply (proj1 is_valid_idempotent_and_rejections " #go ").
  vm_compute; reflexivity.
Defined.

(** C6. An intent whose step is a context event, or whose normalized
    action is [wait], is accepted, and the cleaned intent has the empty
    selector, whatever text and selector came in. *)
Theorem context_intent_accepted (self : t) (io : IntentObj) (idx : nat) :
  is_context_event (io_original_step io) = true
  \/ normalized_action (io_original_step io) = "wait" ->
  exists cleaned self',
    validate_single_intent self (Some io) idx = ((true, Some cleaned), self')
    /\ selector cleaned = Some ""
    /\ ctx_event cleaned = true
    /\ step_index cleaned = idx.
Proof.
  intros H. unfold validate_single_intent.
  assert (G : is_context_event (io_original_step io)
              || String.eqb (normalized_action (io_original_step io)) "wait"
              = true).
  { destruct H as [H | H]; rewrite H; [reflexivity|].
    rewrite String.eqb_refl. apply orb_true_r. }
  rewrite G. eexists. eexists. repeat split; reflexivity.
Qed.

Lemma context_intent_accepted_witness :
  exists cleaned self',
    validate_single_intent init
      (Some (mkIntentObj "click" "" (Some "<bad>")
               (mkStep false "wait" "" None None))) 3
    = ((true, Some cleaned), self')
    /\ selector cleaned = Some ""
    /\ ctx_event cleaned = true
    /\ step_index cleaned = 3.
Proof.
  apply (context_intent_accepted init
           (mkIntentObj "click" "" (Some "<bad>")
              (mkStep false "wait" "" None None)) 3).
  right. reflexivity.
Defined.

End ValidatorFacts.

Section DedupFacts.
Import Py IntentValidator.








Lemma last_opt_none {A : Type} (l : list A) : last_opt l = None -> l = [].
Proof.
  induction l as [|a l IH]; [reflexivity|].
  simpl. destruct l; [discriminate|]. intros H. now specialize (IH H).
Qed.









(** The intents that passed the gate, in the order of the input. *)
Definition accepted (self : t) (intents : list (option IntentObj)) : list Intent :=
  cleaned_intents (validate_loop (mkLoop self [] []) 0 intents).





End DedupFacts.

Section ReportFacts.
Import Py IntentValidator.

Lemma validate_step_counts (st : LoopState) (idx : nat) (io : option IntentObj) :
  List.length (cleaned_intents (validate_step st idx io))
  + List.length (removed_steps (validate_step st idx io))
  = S (List.length (cleaned_intents st) + List.length (removed_steps st)).
Proof.
  unfold validate_step.
  destruct (validate_single_intent (loop_self st) io idx) as [[ok c] self'].
  destruct ok, c; simpl; rewrite length_append; lia.
Qed.

Lemma validate_loop_counts (intents : list (option IntentObj)) :
  forall (st : LoopState) (idx : nat),
    List.length (cleaned_intents (validate_loop st idx intents))
    + List.length (removed_steps (validate_loop st idx intents))
    = List.length (cleaned_intents st) + List.length (removed_steps st)
      + List.length intents.
Proof.
  induction intents as [|io rest IH]; intros st idx; simpl.
  - lia.
  - rewrite IH, validate_step_counts. lia.
Qed.

(** C10. In the report of [validate_and_clean_intents] the valid and the
    rejected steps add up to the input, the count after deduplication is
    the valid count less the duplicates removed, and the list returned
    has that many items. *)
Theorem report_consistent (self : t) (intents : list (option IntentObj)) :
  let result := fst (validate_and_clean_intents self intents) in
  let kept_intents := fst result in
  let report := snd result in
  (total_valid_intents report + removed_by_validation report
   = total_input_intents report)%Z
  /\ (total_after_dedup report
      = total_valid_intents report - removed_by_dedup report)%Z
  /\ Z.of_nat (List.length kept_intents) = total_after_dedup report
  /\ total_input_intents report = Z.of_nat (List.length intents).
Proof.
  unfold validate_and_clean_intents.
  pose proof (validate_loop_counts intents (mkLoop self [] []) 0) as H.
  simpl in H.
  destruct (_deduplicate_consecutive_actions
              (loop_self (validate_loop (mkLoop self [] []) 0 intents))
              (cleaned_intents (validate_loop (mkLoop self [] []) 0 intents)))
    as [d s'].
  simpl. repeat split; lia.
Qed.

(** C9 fails on a step dropped for an empty selector.  The gate writes
    the message that names the cause to its warnings and leaves its error
    list empty, so the entry recorded for the step reads [Unknown error];
    the warning itself is gone from the report once the next step is
    validated.  Step 0 below is a click with no selector to be had;
    step 1, with a malformed selector, shows an entry whose cause is
    recorded. *)
Theorem empty_selector_reason_lost :
  let no_selector :=
    Some (mkIntentObj "click" "Click on button: Go" None empty_step) in
  let malformed :=
    Some (mkIntentObj "click" "Click on button: Go" (Some "<go>") empty_step) in
  validate_single_intent init no_selector 0
  = ((false, None),
     mkValidator [] ["Step 0: Empty selector for click. Skipping step."])
  /\ removed_steps_details
       (snd (fst (validate_and_clean_intents init [no_selector])))
     = [ (0, "Unknown error") ]
  /\ removed_steps_details
       (snd (fst (validate_and_clean_intents init [no_selector; malformed])))
     = [ (0, "Unknown error"); (1, "Step 1: Malformed CSS selector '<go>'") ]
  /\ report_warnings
       (snd (fst (validate_and_clean_intents init [no_selector; malformed])))
     = [].
Proof. vm_compute. repeat split; reflexivity. Qed.

(** The general shape of the loss: whenever the gate drops a step with
    nothing in its error list, the entry is the placeholder. *)
Lemma dropped_without_error_is_unknown (st : LoopState) (idx : nat)
    (io : option IntentObj) (self' : t) :
  validate_single_intent (loop_self st) io idx = ((false, None), self') ->
  validation_errors self' = [] ->
  removed_steps (validate_step st idx io)
  = append (removed_steps st) (idx, "Unknown error").
Proof.
  intros H E. unfold validate_step. rewrite H. simpl. now rewrite E.
Qed.

End ReportFacts.

(* ===================================================================== *)
(** ** The selector policy (intent_generator.py) *)
(* ===================================================================== *)

Section SelectorPolicyFacts.
Import Py IntentGenerator.

(** C1 as stated fails on the hints: a name outranks a data-testid, a
    class outranks an aria-label, and hints with nothing but a tag give
    the empty selector, not the tag.  So it is not the case that hints
    without an id but with a data-testid always give a selector on the
    data-testid, nor that hints with only a tag give the tag. *)
Lemma hints_priority_counterexample :
  (_build_selector_from_hints
     (mkHints None None (Some "n") (Some "t") None (Some "input"))
   = "[name='n']"
   /\ _build_selector_from_hints
        (mkHints None (Some "b c") None None (Some "Close") (Some "div"))
      = ".b"
   /\ _build_selector_from_hints
        (mkHints None None None None None (Some "button"))
      = "")
  /\ ~ (forall (hints : Hints) (v : string),
          truthy (hint_id hints) = false ->
          hint_test_id hints = Some v -> v <> "" ->
          startswith (_build_selector_from_hints hints) "[data-testid" = true)
  /\ ~ (forall (hints : Hints) (v : string),
          truthy (hint_id hints) = false -> truthy (hint_test_id hints) = false ->
          truthy (hint_name hints) = false ->
          truthy (hint_aria_label hints) = false ->
          truthy (hint_class hints) = false ->
          hint_tag hints = Some v ->
          _build_selector_from_hints hints = v).
Proof.
  split; [vm_compute; repeat split; reflexivity|]. split.
  - intros H.
    specialize (H (mkHints None None (Some "n") (Some "t") None (Some "input"))
                  "t" eq_refl eq_refl).
    vm_compute in H. discriminate H. discriminate.
  - intros H.
    specialize (H (mkHints None None None None None (Some "button")) "button"
                  eq_refl eq_refl eq_refl eq_refl eq_refl eq_refl).
    vm_compute in H. discriminate H.
Qed.

(** The first class token of the hints, if the class has one. *)
Definition first_class (hints : Hints) : option string :=
  if truthy (hint_class hints) then
    match split_ws (get (hint_class hints)) with
    | first :: _ => Some first
    | [] => None
    end
  else None.

(** C1, amended. The selector built from the hints uses exactly one
    source, by the priority id, name, class (first token), test_id,
    aria_label; with none of these it is the empty string. *)
Theorem hints_priority (hints : Hints) :
  (forall v, hint_id hints = Some v -> v <> "" ->
     _build_selector_from_hints hints = "#" ++ v)
  /\ (truthy (hint_id hints) = false ->
      forall v, hint_name hints = Some v -> v <> "" ->
        _build_selector_from_hints hints = "[name='" ++ v ++ "']")
  /\ (truthy (hint_id hints) = false -> truthy (hint_name hints) = false ->
      forall c, first_class hints = Some c ->
        _build_selector_from_hints hints = "." ++ c)
  /\ (truthy (hint_id hints) = false -> truthy (hint_name hints) = false ->
      first_class hints = None ->
      forall v, hint_test_id hints = Some v -> v <> "" ->
        _build_selector_from_hints hints = "[data-testid='" ++ v ++ "']")
  /\ (truthy (hint_id hints) = false -> truthy (hint_name hints) = false ->
      first_class hints = None -> truthy (hint_test_id hints) = false ->
      forall v, hint_aria_label hints = Some v -> v <> "" ->
        _build_selector_from_hints hints = "[aria-label='" ++ v ++ "']")
  /\ (truthy (hint_id hints) = false -> truthy (hint_name hints) = false ->
      first_class hints = None -> truthy (hint_test_id hints) = false ->
      truthy (hint_aria_label hints) = false ->
      _build_selector_from_hints hints = "").
Proof.
  assert (T : forall o v, o = Some v -> v <> "" -> truthy o = true /\ get o = v).
  { intros o v -> N. destruct v; [contradiction | now split]. }
  unfold _build_selector_from_hints, first_class.
  repeat split.
  - intros v E N. destruct (T _ _ E N) as [-> ->]. reflexivity.
  - intros I v E N. rewrite I. destruct (T _ _ E N) as [-> ->]. reflexivity.
  - intros I Nm c. rewrite I, Nm.
    destruct (truthy (hint_class hints)); [|discriminate].
    destruct (split_ws (get (hint_class hints))); [discriminate|].
    now intros [= ->].
  - intros I Nm C v E N. rewrite I, Nm.
    destruct (T _ _ E N) as [-> ->].
    destruct (truthy (hint_class hints)); [|reflexivity].
    destruct (split_ws (get (hint_class hints))); [reflexivity | discriminate].
  - intros I Nm C Ti v E N. rewrite I, Nm, Ti.
    destruct (T _ _ E N) as [-> ->].
    destruct (truthy (hint_class hints)); [|reflexivity].
    destruct (split_ws (get (hint_class hints))); [reflexivity | discriminate].
  - intros I Nm C Ti A. rewrite I, Nm, Ti, A.
    destruct (truthy (hint_class hints)); [|reflexivity].
    destruct (split_ws (get (hint_class hints))); [reflexivity | discriminate].
Qed.

Lemma hints_priority_witness :
  _build_selector_from_hints
    (mkHints (Some "a") (Some "b") None None None None) = "#a"
  /\ _build_selector_from_hints
       (mkHints None (Some "b c") (Some "n") None None None) = "[name='n']".
Proof.
  split.
  - apply (proj1 (hints_priority
                    (mkHints (Some "a") (Some "b") None None None None)) "a");
      [reflexivity | discriminate].
  - refine (proj1 (proj2 (hints_priority
                     (mkHints None (Some "b c") (Some "n") None None None)))
              _ "n" _ _);
      [reflexivity | reflexivity | discriminate].
Defined.

(** The extractor that works on the markup, for comparison: on these
    elements it takes id, then name, then aria-label, then the first
    class, then the tag.  An element with a data-testid and no id gets an
    id selector, because the search for the id marker finds the end of
    the data-testid marker. *)
Example markup_extractor_examples :
  let element (html : string) :=
    IntentValidator._extract_stable_selector
      (IntentValidator.mkStep false "" (js_quotes html) None None) in
  element "<button id=`a` class=`b`>Go</button>" = Some "#a"
  /\ element "<input name=`n` class=`b c`>" = Some (js_quotes "[name=`n`]")
  /\ element "<a aria-label=`Close` class=`b`>x</a>"
     = Some (js_quotes "[aria-label=`Close`]")
  /\ element "<div class=`b c`>x</div>" = Some ".b"
  /\ element "<div>x</div>" = Some "div"
  /\ element "<button data-testid=`t` name=`n`>Go</button>" = Some "#t".
Proof. vm_compute. repeat split; reflexivity. Qed.

End SelectorPolicyFacts.

(* ===================================================================== *)
(** ** URL cleaning (steps_preprocessor.py) *)
(* ===================================================================== *)

Section UrlCleaningFacts.
Import Py Urllib StepsPreprocessor.

(** C4 fails on the keys [ref] and [tag]: the denylist entries for them
    end in an equals sign and are matched against parsed keys, which
    never carry one, so both keys pass the filter and stay in the cleaned
    URL.  The [utm_] prefix is stripped as claimed. *)
Theorem ref_and_tag_keys_survive :
  is_tracking_key "ref" = false
  /\ is_tracking_key "tag" = false
  /\ _strip_tracking_params "https://x.test/?ref=abc&q=1"
     = Returns "https://x.test/?ref=abc&q=1"
  /\ _strip_tracking_params "https://x.test/p?tag=aff-20&utm_source=a&q=1#top"
     = Returns "https://x.test/p?tag=aff-20&q=1#top"
  /\ _strip_tracking_params "https://x.test/?utm_source=a&q=1"
     = Returns "https://x.test/?q=1".
Proof. vm_compute. repeat split; reflexivity. Qed.

(** Other ways in which a query is not preserved as it was: a parameter
    with a blank value is dropped, a repeated key is moved next to its
    first occurrence, and a key is dropped when a denylist entry is a
    proper prefix of it. *)
Example query_not_preserved :
  _strip_tracking_params "https://x.test/?a=&q=1" = Returns "https://x.test/?q=1"
  /\ _strip_tracking_params "https://x.test/?a=1&b=2&a=3"
     = Returns "https://x.test/?a=1&a=3&b=2"
  /\ _strip_tracking_params "https://x.test/?gadget=7&q=1"
     = Returns "https://x.test/?q=1".
Proof. vm_compute. repeat split; reflexivity. Qed.

End UrlCleaningFacts.

(* ===================================================================== *)
(** ** The emitter (javascript_code_generator.py) *)
(* ===================================================================== *)

Section OccurrenceFacts.
Import Py Ast JavaScriptCodeGenerator.

Definition click_node (sel : string) : PlaywrightAST :=
  mkNode CLICK (Some sel) None None 5000 "Click on element" None.

(** A wait lowered from an action intent keeps the selector that the
    gate resolved for it. *)
Definition wait_node (sel : string) : PlaywrightAST :=
  mkNode WAIT (Some sel) None None 5000 "Wait for element to appear" None.

(** The text returned for a node list, with no intents and no override;
    the empty string when the run does not return. *)
Definition script_of (ast_nodes : list PlaywrightAST) : string :=
  match generate_code_from_ast init ast_nodes None None with
  | Returns (code, _) => code
  | _ => ""
  end.

(** The occurrence table built for a node list. *)
Definition table_of (ast_nodes : list PlaywrightAST) : dict (list nat) :=
  selector_index_map (_analyze_selector_usage init ast_nodes).

(** The interactive nodes of a list that carry the selector [sel]. *)
Definition uses (sel : string) (node : PlaywrightAST) : bool :=
  truthy (selector node) && interactive (action_type node)
  && opt_eqb (selector node) (Some sel).

Definition usage (sel : string) (ast_nodes : list PlaywrightAST) : nat :=
  List.length (filter (uses sel) ast_nodes).

Lemma dict_get_set_same {V : Type} (d : dict V) (k : string) (v : V) :
  dict_get (dict_set d k v) k = Some v.
Proof.
  induction d as [|[k' v'] d IH]; simpl.
  - now rewrite String.eqb_refl.
  - destruct (String.eqb_spec k' k) as [->|N]; simpl.
    + now rewrite String.eqb_refl.
    + destruct (String.eqb_spec k' k); [contradiction | exact IH].
Qed.

Lemma dict_get_set_other {V : Type} (d : dict V) (k k' : string) (v : V) :
  k <> k' -> dict_get (dict_set d k v) k' = dict_get d k'.
Proof.
  intros N. induction d as [|[k0 v0] d IH]; simpl.
  - destruct (String.eqb_spec k k'); [contradiction | reflexivity].
  - destruct (String.eqb_spec k0 k) as [->|N0]; simpl.
    + destruct (String.eqb_spec k k'); [contradiction | reflexivity].
    + destruct (String.eqb_spec k0 k'); [reflexivity | exact IH].
Qed.

(** A count that starts from an entry of the table, or from none. *)
Definition counted (start : option nat) (n : nat) : option nat :=
  match n, start with
  | 0, _ => start
  | _, Some m => Some (m + n)
  | _, None => Some n
  end.

Lemma count_node_usage (tables : dict nat * dict (list nat))
    (node : PlaywrightAST) (sel : string) :
  dict_get (fst (count_node tables node)) sel
  = counted (dict_get (fst tables) sel) (if uses sel node then 1 else 0).
Proof.
  destruct tables as [u i]. unfold count_node, uses. simpl.
  destruct (truthy (selector node)) eqn:T; simpl; [|reflexivity].
  destruct (interactive (action_type node)); simpl; [|reflexivity].
  destruct (selector node) as [s|]; [|discriminate]. simpl.
  destruct (String.eqb_spec s sel) as [->|N].
  - destruct (dict_get u sel) as [m|] eqn:G; simpl.
    + rewrite G, dict_get_set_same. reflexivity.
    + rewrite !dict_get_set_same. reflexivity.
  - destruct (dict_get u s) as [m|] eqn:G; simpl.
    + rewrite dict_get_set_other by exact N. reflexivity.
    + rewrite dict_get_set_other by exact N.
      rewrite dict_get_set_other by exact N. reflexivity.
Qed.

Lemma counted_counted (start : option nat) (a b : nat) :
  counted (counted start a) b = counted start (a + b).
Proof.
  destruct a, b, start; simpl; try reflexivity;
    try (f_equal; lia); now rewrite Nat.add_0_r.
Qed.

Lemma fold_count_usage (ast_nodes : list PlaywrightAST) (sel : string) :
  forall tables : dict nat * dict (list nat),
    dict_get (fst (fold_left count_node ast_nodes tables)) sel
    = counted (dict_get (fst tables) sel) (usage sel ast_nodes).
Proof.
  induction ast_nodes as [|n rest IH]; intros tables; simpl.
  - reflexivity.
  - rewrite IH, count_node_usage, counted_counted. unfold usage. simpl.
    now destruct (uses sel n).
Qed.

(** The table of [_analyze_selector_usage] holds, for every selector, the
    number of interactive nodes that carry it. *)
Lemma usage_count_spec (self : t) (ast_nodes : list PlaywrightAST) (sel : string) :
  dict_get (selector_usage_count (_analyze_selector_usage self ast_nodes)) sel
  = counted None (usage sel ast_nodes).
Proof.
  unfold _analyze_selector_usage.
  pose proof (fold_count_usage ast_nodes sel ([], [])) as H.
  destruct (fold_left count_node ast_nodes ([], [])) as [u i].
  exact H.
Qed.

(** The form of the reference is decided by that number alone: the
    first-match form up to one use, the indexed form from two uses on. *)
Lemma locator_form (self : t) (ast_nodes : list PlaywrightAST)
    (sel : string) (occurrence : nat) :
  sel <> "" ->
  _get_locator_with_occurrence (_analyze_selector_usage self ast_nodes)
    (Some sel) occurrence
  = "page.locator('" ++ replace "034" ("\" ++ DQ) (replace "'" "\'" sel)
      ++ (if 1 <? usage sel ast_nodes
          then "').nth(" ++ str_of_nat occurrence ++ ")"
          else "').first()").
Proof.
  intros N. unfold _get_locator_with_occurrence.
  assert (T : truthy (Some sel) = true) by (destruct sel; [contradiction | reflexivity]).
  rewrite T. simpl. rewrite usage_count_spec.
  destruct (usage sel ast_nodes) as [|[|k]]; reflexivity.
Qed.

(** The node carries the selector [sel]. *)
Definition carries (sel : string) (node : PlaywrightAST) : bool :=
  opt_eqb (selector node) (Some sel).

(** The number of nodes already walked that carry the selector of
    [node]; 0 for a node without a selector. *)
Definition earlier_uses (seen : list PlaywrightAST) (node : PlaywrightAST) : nat :=
  match selector node with
  | Some sel =>
      if nonempty sel then List.length (filter (carries sel) seen) else 0
  | None => 0
  end.

(** The nodes that get an action block, each with its step number and
    its occurrence: all but the first navigate node, numbered by their
    place in the list and counted against all nodes walked before. *)
Fixpoint annotate (skip : bool) (idx : nat) (seen : list PlaywrightAST)
    (safe_nodes : list PlaywrightAST) : list (PlaywrightAST * nat * nat) :=
  match safe_nodes with
  | [] => []
  | node :: rest =>
      if skip && action_eqb (action_type node) NAVIGATE
      then annotate false (S idx) seen rest
      else (node, idx, earlier_uses seen node)
             :: annotate skip (S idx) (append seen node) rest
  end.

(** The counter of the emission loop agrees with the nodes walked. *)
Definition counter_agrees (counter : dict nat) (seen : list PlaywrightAST) : Prop :=
  forall sel : string,
    sel <> "" ->
    dict_get counter sel = counted None (List.length (filter (carries sel) seen)).

Lemma generated_action_nonempty (self : t) (node : PlaywrightAST) (idx occ : nat) :
  nonempty (_generate_action self node idx occ) = true.
Proof. unfold _generate_action. destruct (action_type node); reflexivity. Qed.

Lemma carries_append (sel : string) (seen : list PlaywrightAST)
    (node : PlaywrightAST) :
  List.length (filter (carries sel) (append seen node))
  = List.length (filter (carries sel) seen) + (if carries sel node then 1 else 0).
Proof.
  unfold append. rewrite filter_app, length_app. simpl.
  now destruct (carries sel node).
Qed.

Lemma emit_node_spec (self : t) (st : Emit) (idx : nat) (node : PlaywrightAST)
    (seen : list PlaywrightAST) :
  counter_agrees (selector_occurrence_counter st) seen ->
  (skip_first_navigate st && action_eqb (action_type node) NAVIGATE = true ->
   emit_node self st idx node
   = mkEmit false (selector_occurrence_counter st) (emitted st))
  /\ (skip_first_navigate st && action_eqb (action_type node) NAVIGATE = false ->
      skip_first_navigate (emit_node self st idx node) = skip_first_navigate st
      /\ emitted (emit_node self st idx node)
         = append (emitted st)
             (_generate_action self node idx (earlier_uses seen node))
      /\ counter_agrees (selector_occurrence_counter (emit_node self st idx node))
           (append seen node)).
Proof.
  intros A. unfold emit_node. split; intros G; rewrite G; [reflexivity|].
  unfold earlier_uses.
  destruct (selector node) as [s|] eqn:Es.
  - destruct (nonempty s) eqn:Ns.
    + assert (Ne : s <> "") by (intros ->; discriminate).
      pose proof (A s Ne) as As.
      destruct (List.length (filter (carries s) seen)) as [|k] eqn:Ek;
        simpl in As; rewrite As; simpl.
      * rewrite dict_get_set_same, generated_action_nonempty.
        repeat split. intros sel Hsel. rewrite carries_append.
        unfold carries at 2. rewrite Es. simpl.
        destruct (String.eqb_spec s sel) as [->|N].
        -- rewrite dict_get_set_same, Ek. reflexivity.
        -- rewrite !dict_get_set_other by exact N.
           rewrite Nat.add_0_r. now apply A.
      * rewrite As, generated_action_nonempty.
        repeat split. intros sel Hsel. rewrite carries_append.
        unfold carries at 2. rewrite Es. simpl.
        destruct (String.eqb_spec s sel) as [->|N].
        -- rewrite dict_get_set_same, Ek. reflexivity.
        -- rewrite dict_get_set_other by exact N.
           rewrite Nat.add_0_r. now apply A.
    + rewrite generated_action_nonempty. repeat split.
      intros sel Hsel. rewrite carries_append. unfold carries at 2.
      rewrite Es. simpl.
      destruct (String.eqb_spec s sel) as [->|N].
      * destruct sel; [contradiction | discriminate].
      * rewrite Nat.add_0_r. now apply A.
  - rewrite generated_action_nonempty. repeat split.
    intros sel Hsel. rewrite carries_append. unfold carries at 2.
    rewrite Es. simpl. rewrite Nat.add_0_r. now apply A.
Qed.

Lemma emit_loop_spec (self : t) (safe_nodes : list PlaywrightAST) :
  forall (st : Emit) (idx : nat) (seen : list PlaywrightAST),
    counter_agrees (selector_occurrence_counter st) seen ->
    emitted (emit_loop self st idx safe_nodes)
    = (emitted st
       ++ map (fun '(node, i, occ) => _generate_action self node i occ)
            (annotate (skip_first_navigate st) idx seen safe_nodes))%list.
Proof.
  induction safe_nodes as [|node rest IH]; intros st idx seen A; simpl.
  - now rewrite app_nil_r.
  - destruct (emit_node_spec self st idx node seen A) as [Hskip Hemit].
    destruct (skip_first_navigate st && action_eqb (action_type node) NAVIGATE)
      eqn:G.
    + rewrite (Hskip eq_refl). rewrite (IH _ _ seen); [reflexivity | exact A].
    + destruct (Hemit eq_refl) as (Hs & He & Hc).
      rewrite (IH _ _ (append seen node) Hc), He, Hs.
      unfold append. simpl. now rewrite <- app_assoc.
Qed.

(** What the emission loop appends to the script: one action block for
    every node but the first navigate node, with the occurrence counted
    over all earlier nodes that carry the same selector, whatever their
    action. *)
Lemma emitted_blocks (self : t) (safe_nodes : list PlaywrightAST) :
  emitted (emit_loop self (mkEmit true [] []) 0 safe_nodes)
  = map (fun '(node, i, occ) => _generate_action self node i occ)
      (annotate true 0 [] safe_nodes).
Proof.
  rewrite (emit_loop_spec self safe_nodes (mkEmit true [] []) 0 []).
  - reflexivity.
  - intros sel _. reflexivity.
Qed.

(** C5 fails when a node that is not interactive carries the selector of
    later interactive nodes.  The table counts the two clicks as
    occurrences 0 and 1, but the emission loop counts the wait node as
    well, and the clicks are emitted as occurrences 1 and 2.  With clicks
    alone the indices are 0, 1, 2, and a selector used once gets the
    first-match form. *)
Theorem occurrence_counts_every_selector_node :
  table_of [wait_node ".item"; click_node ".item"; click_node ".item"]
  = [(".item", [0; 1])]
  /\ (let code := script_of [wait_node ".item"; click_node ".item"; click_node ".item"] in
      contains "page.locator('.item').nth(0)" code = false
      /\ contains "page.locator('.item').nth(1)" code = true
      /\ contains "page.locator('.item').nth(2)" code = true)
  /\ (let code := script_of [click_node ".item"; click_node ".item"; click_node ".item"] in
      contains "page.locator('.item').nth(0)" code = true
      /\ contains "page.locator('.item').nth(1)" code = true
      /\ contains "page.locator('.item').nth(2)" code = true
      /\ contains "page.locator('.item').nth(3)" code = false)
  /\ (let code := script_of [click_node "#go"] in
      contains "page.locator('#go').first()" code = true
      /\ contains ".nth(" code = false).
Proof. vm_compute. repeat split; reflexivity. Qed.

End OccurrenceFacts.

Section TextFacts.
Import Py.

(** [sub] is a piece of [s]. *)
Definition occurs (sub s : string) : Prop :=
  exists a b : string, s = a ++ sub ++ b.

Lemma append_assoc (a b c : string) : (a ++ b) ++ c = a ++ (b ++ c).
Proof. induction a as [|x a IH]; simpl; [reflexivity | now rewrite IH]. Qed.

Lemma append_nil_r (a : string) : a ++ "" = a.
Proof. induction a as [|x a IH]; simpl; [reflexivity | now rewrite IH]. Qed.

Lemma occurs_refl (s : string) : occurs s s.
Proof. exists "", "". simpl. now rewrite append_nil_r. Qed.

Lemma occurs_app_l (x a b : string) : occurs x a -> occurs x (a ++ b).
Proof.
  intros (u & v & ->). exists u, (v ++ b).
  now rewrite !append_assoc.
Qed.

Lemma occurs_app_r (x a b : string) : occurs x b -> occurs x (a ++ b).
Proof.
  intros (u & v & ->). exists (a ++ u), v.
  now rewrite !append_assoc.
Qed.

Lemma occurs_trans (x y z : string) : occurs x y -> occurs y z -> occurs x z.
Proof.
  intros (a & b & ->) (c & d & ->).
  exists (c ++ a), (b ++ d). now rewrite !append_assoc.
Qed.

Lemma occurs_join (sep x : string) (l : list string) :
  In x l -> occurs x (join sep l).
Proof.
  induction l as [|y l IH]; intros H; [contradiction|].
  destruct H as [-> | H].
  - destruct l; [apply occurs_refl|].
    apply occurs_app_l, occurs_refl.
  - destruct l as [|z l]; [contradiction|].
    change (join sep (y :: z :: l)) with (y ++ sep ++ join sep (z :: l)).
    apply occurs_app_r, occurs_app_r, IH, H.
Qed.

End TextFacts.

Section InitialNavigationFacts.
Import Py Urllib Ast JavaScriptCodeGenerator.

Definition nav_node (u : string) : PlaywrightAST :=
  mkNode NAVIGATE None None (Some u) 5000 "Navigate to page" None.

(** A click lowered from a raw step: the node carries the URL of the page
    the step was recorded on. *)
Definition click_on_page (sel page_url : string) : PlaywrightAST :=
  mkNode CLICK (Some sel) None (Some page_url) 5000 "Click on element" None.

(** The URL of the step of the first intent: [clean_url], else [url]. *)
Definition intent_url (intents : option (list IntentValidator.Intent))
    : option string :=
  match intents with
  | Some (first_intent :: _) =>
      let s := IntentValidator.original_step first_intent in
      if truthy (IntentValidator.clean_url s) then IntentValidator.clean_url s
      else if truthy (IntentValidator.step_url s) then IntentValidator.step_url s
      else None
  | _ => None
  end.

(** The origin [scheme://netloc] of a URL that may be missing, or none
    when the URL is missing or does not parse. *)
Inductive origin_of (u : option string) : option string -> Prop :=
| origin_missing : u = None -> origin_of u None
| origin_parsed (v : string) (p : ParseResult) :
    u = Some v -> urlparse v = Returns p ->
    origin_of u (Some (scheme p ++ "://" ++ netloc p))
| origin_raises (v : string) :
    u = Some v -> urlparse v = Raises -> origin_of u None.

(** The target that the emitter computes: the override, else the origin
    of the URL of the first intent's step, else the origin of the URL of
    the first surviving node that has one, else the placeholder. *)
Inductive chosen_target (first_url : option string)
    (intents : option (list IntentValidator.Intent))
    (safe_nodes : list PlaywrightAST) : string -> Prop :=
| by_override (u : string) :
    first_url = Some u -> u <> "" ->
    chosen_target first_url intents safe_nodes u
| by_first_intent (b : string) :
    truthy first_url = false ->
    origin_of (intent_url intents) (Some b) ->
    chosen_target first_url intents safe_nodes b
| by_first_node_url (b : string) :
    truthy first_url = false ->
    origin_of (intent_url intents) None ->
    origin_of (first_with_url safe_nodes) (Some b) ->
    chosen_target first_url intents safe_nodes b
| by_placeholder :
    truthy first_url = false ->
    origin_of (intent_url intents) None ->
    origin_of (first_with_url safe_nodes) None ->
    chosen_target first_url intents safe_nodes placeholder_url.

Lemma origin_nonempty (a b : string) : nonempty (a ++ "://" ++ b) = true.
Proof. now destruct a. Qed.

Lemma truthy_some (o : option string) :
  truthy o = true -> exists v, o = Some v /\ v <> "" /\ or_default o "" = v.
Proof.
  destruct o as [v|]; [|discriminate]. destruct v; [discriminate|].
  intros _. eexists. repeat split. discriminate.
Qed.

(** What the base extraction makes of a URL that is there. *)
Lemma base_of_spec (v : string) :
  exists r,
    try_except (bind (base_of v) (fun base => Returns (Some base))) (Returns None)
    = Returns r
    /\ origin_of (Some v) r
    /\ (r = None \/ truthy r = true).
Proof.
  unfold base_of.
  destruct (urlparse v) as [p|] eqn:E; simpl.
  - eexists. split; [reflexivity|]. split.
    + now apply origin_parsed with (v := v).
    + right. apply origin_nonempty.
  - exists None. split; [reflexivity|]. split.
    + now apply origin_raises with (v := v).
    + now left.
Qed.

Lemma from_intents_spec (intents : option (list IntentValidator.Intent)) :
  exists r, _extract_base_url_from_intents intents = Returns r
            /\ origin_of (intent_url intents) r
            /\ (r = None \/ truthy r = true).
Proof.
  assert (N : exists r : option string,
             Returns (@None string) = Returns r
             /\ origin_of None r /\ (r = None \/ truthy r = true)).
  { exists None. repeat split; [now constructor | now left]. }
  destruct intents as [[|i rest]|]; simpl; try exact N.
  destruct (truthy (IntentValidator.clean_url (IntentValidator.original_step i)))
    eqn:Tc.
  - destruct (IntentValidator.clean_url (IntentValidator.original_step i))
      as [v|]; [|discriminate].
    simpl in Tc. rewrite Tc. apply base_of_spec.
  - destruct (IntentValidator.step_url (IntentValidator.original_step i))
      as [v|]; [|exact N].
    simpl. destruct (nonempty v) eqn:Tv; [|exact N].
    apply base_of_spec.
Qed.

Lemma first_with_url_truthy (nodes : list PlaywrightAST) (v : string) :
  first_with_url nodes = Some v -> nonempty v = true.
Proof.
  induction nodes as [|n nodes IH]; simpl; [discriminate|].
  destruct (truthy (url n)) eqn:T; [|exact IH].
  intros E. now rewrite E in T.
Qed.

Lemma from_ast_spec (safe_nodes : list PlaywrightAST) :
  exists r, _extract_base_url_from_ast safe_nodes = Returns r
            /\ origin_of (first_with_url safe_nodes) r
            /\ (r = None \/ truthy r = true).
Proof.
  unfold _extract_base_url_from_ast.
  destruct safe_nodes as [|n rest] eqn:En.
  - exists None. repeat split; [now constructor | now left].
  - rewrite <- En in *. clear En.
    destruct (first_with_url safe_nodes) as [v|] eqn:F.
    + apply base_of_spec.
    + exists None. repeat split; [now constructor | now left].
Qed.

(** The target computed by the emitter is the one that [chosen_target]
    names, and it is never empty. *)
Lemma base_url_spec (first_url : option string)
    (intents : option (list IntentValidator.Intent))
    (safe_nodes : list PlaywrightAST) :
  exists target,
    base_url first_url intents safe_nodes = Returns target
    /\ chosen_target first_url intents safe_nodes target
    /\ nonempty target = true.
Proof.
  unfold base_url.
  destruct (truthy first_url) eqn:T.
  - destruct (truthy_some _ T) as (v & E & N & D).
    exists v. rewrite D. repeat split.
    + now apply by_override.
    + destruct v; [contradiction | reflexivity].
  - destruct (from_intents_spec intents) as (a & Ea & Oa & Ta).
    rewrite Ea. simpl.
    destruct Ta as [-> | Ta].
    + simpl.
      destruct (from_ast_spec safe_nodes) as (b & Eb & Ob & Tb).
      rewrite Eb. simpl.
      destruct Tb as [-> | Tb].
      * exists placeholder_url. repeat split. now apply by_placeholder.
      * destruct (truthy_some _ Tb) as (v & -> & N & D).
        exists v. unfold or_default. rewrite Tb. repeat split.
        -- now apply by_first_node_url.
        -- exact Tb.
    + rewrite Ta.
      destruct (truthy_some _ Ta) as (v & -> & N & D).
      exists v. rewrite D. repeat split.
      * now apply by_first_intent.
      * exact Ta.
Qed.

Lemma initial_url_given (safe_nodes : list PlaywrightAST) (target : string) :
  nonempty target = true -> initial_url safe_nodes (Some target) = target.
Proof. intros N. unfold initial_url, or_default. simpl. now rewrite N. Qed.

Lemma initial_goto_in_lines (self : t) (safe_nodes : list PlaywrightAST)
    (target : string) :
  nonempty target = true ->
  occurs (initial_goto (_escape_string (Some target)))
    (join NL (script_lines self safe_nodes target)).
Proof.
  intros N.
  pose proof (initial_url_given safe_nodes target N) as U.
  set (e := _escape_string (Some target)).
  assert (B : _generate_initial_navigation_block safe_nodes (Some target)
              = initial_block_text e).
  { unfold _generate_initial_navigation_block. now rewrite U. }
  apply occurs_trans with (y := initial_block_text e).
  - apply occurs_trans with (y := indent ++ "    " ++ initial_goto e).
    + apply occurs_app_r, occurs_app_r, occurs_refl.
    + apply occurs_join. simpl. tauto.
  - apply occurs_join. unfold script_lines. rewrite B.
    apply in_concat. exists [initial_block_text e; ""]. split.
    + replace (nonempty (initial_block_text e)) with true by reflexivity.
      simpl. tauto.
    + now left.
Qed.

(** C3. The URL of the first navigate node is lost.  For the nodes of a
    navigation to https://x.test/login and a click, with no override and
    no intents, the initial page-load call carries https://x.test, the
    scheme and host only; the loop then leaves the navigate node out as
    already handled, so its URL appears nowhere in the script.  Without
    any navigate node the target is taken from the URL of a click node,
    not from the placeholder.  The cause holds for every input: the
    target handed to [_generate_initial_navigation_block] is never empty
    (an extractor gives [scheme://netloc], the last operand is the
    placeholder), so the branch of that function that looks for the
    first navigate node is never taken.  So it is not the case that,
    with no override, the initial page-load call always carries the URL
    of the first navigate node. *)
Theorem first_navigate_url_is_lost :
  (let nodes := [nav_node "https://x.test/login"; click_node "#go"] in
   option_map url (first_navigate nodes) = Some (Some "https://x.test/login")
   /\ contains (initial_goto "https://x.test/login") (script_of nodes) = false
   /\ contains (initial_goto "https://x.test") (script_of nodes) = true
   /\ contains "https://x.test/login" (script_of nodes) = false)
  /\ (let nodes := [click_on_page "#go" "https://shop.test/cart"] in
      first_navigate nodes = None
      /\ contains (initial_goto placeholder_url) (script_of nodes) = false
      /\ contains (initial_goto "https://shop.test") (script_of nodes) = true)
  /\ (forall (first_url : option string)
             (intents : option (list IntentValidator.Intent))
             (safe_nodes : list PlaywrightAST),
         exists target,
           base_url first_url intents safe_nodes = Returns target
           /\ nonempty target = true
           /\ initial_url safe_nodes (Some target) = target)
  /\ ~ (forall (ast_nodes : list PlaywrightAST) (node : PlaywrightAST)
               (code : string) (self' : t),
          first_navigate ast_nodes = Some node ->
          generate_code_from_ast init ast_nodes None None = Returns (code, self') ->
          contains (initial_goto (_escape_string (url node))) code = true).
Proof.
  split; [vm_compute; repeat split; reflexivity|].
  split; [vm_compute; repeat split; reflexivity|].
  split.
  - intros first_url intents safe_nodes.
    destruct (base_url_spec first_url intents safe_nodes) as (target & E & _ & N).
    exists target. split; [exact E|]. split; [exact N|].
    now apply initial_url_given.
  - intros H.
    destruct (generate_code_from_ast init
                [nav_node "https://x.test/login"; click_node "#go"] None None)
      as [[code self']|] eqn:E; [|vm_compute in E; discriminate E].
    specialize (H [nav_node "https://x.test/login"; click_node "#go"]
                  (nav_node "https://x.test/login") code self' eq_refl E).
    vm_compute in E. injection E as <- _.
    vm_compute in H. discriminate H.
Qed.

(** What the emitter does instead.  Whenever some node survives the
    re-validation, it returns a script whose initial page-load call
    carries the target of [chosen_target]: the override if one is given;
    else the scheme and host of the URL of the first intent's step; else
    the scheme and host of the URL of the first surviving node that has
    one, whatever its action; else the placeholder. *)
Lemma initial_target_computed (self : t) (ast_nodes : list PlaywrightAST)
    (intents : option (list IntentValidator.Intent)) (first_url : option string) :
  let safe_nodes := fst (_validate_all_nodes_before_codegen self ast_nodes) in
  safe_nodes <> [] ->
  exists code self' target,
    generate_code_from_ast self ast_nodes intents first_url = Returns (code, self')
    /\ chosen_target first_url intents safe_nodes target
    /\ occurs (initial_goto (_escape_string (Some target))) code.
Proof.
  intros safe_nodes S. subst safe_nodes.
  unfold generate_code_from_ast.
  destruct ast_nodes as [|n rest] eqn:En; [now contradiction S|].
  rewrite <- En in *. clear En.
  destruct (_validate_all_nodes_before_codegen self ast_nodes) as [safe self1].
  simpl in *.
  destruct safe as [|s0 srest] eqn:Es; [now contradiction S|].
  rewrite <- Es in *. clear Es.
  destruct (base_url_spec first_url intents safe) as (target & E & C & N).
  rewrite E. simpl.
  eexists. eexists. exists target. split; [reflexivity|]. split; [exact C|].
  now apply initial_goto_in_lines.
Qed.

End InitialNavigationFacts.

Section EmptyOutputFacts.
Import Py Ast JavaScriptCodeGenerator.

Definition no_safe_nodes_error : string :=
  "No valid AST nodes passed safety checks".

(** C7 as stated fails on the empty node list: nothing survives the
    re-validation, nothing is emitted, and no error is recorded.  So it is
    not the case that an empty list after re-validation always leaves an
    entry in the error accumulator. *)
Lemma empty_input_records_no_error :
  (fst (_validate_all_nodes_before_codegen init []) = []
   /\ generate_code_from_ast init [] None None = Returns ("", init)
   /\ code_errors init = [])
  /\ ~ (forall (self : t) (ast_nodes : list PlaywrightAST)
               (intents : option (list IntentValidator.Intent))
               (first_url : option string),
          fst (_validate_all_nodes_before_codegen self ast_nodes) = [] ->
          exists self',
            generate_code_from_ast self ast_nodes intents first_url
            = Returns ("", self')
            /\ code_errors self' <> []).
Proof.
  split; [vm_compute; repeat split; reflexivity|].
  intros H.
  destruct (H init [] None None eq_refl) as (self' & E & N).
  vm_compute in E. injection E as <-. now apply N.
Qed.

(** The emitter on a non-empty list of which nothing survives. *)
Lemma nothing_safe_is_error (self : t) (ast_nodes : list PlaywrightAST)
    (intents : option (list IntentValidator.Intent)) (first_url : option string) :
  ast_nodes <> [] ->
  fst (_validate_all_nodes_before_codegen self ast_nodes) = [] ->
  generate_code_from_ast self ast_nodes intents first_url
  = Returns ("", add_error (snd (_validate_all_nodes_before_codegen self ast_nodes))
                   no_safe_nodes_error).
Proof.
  intros N E. unfold generate_code_from_ast.
  destruct ast_nodes as [|n rest] eqn:En; [now contradiction N|].
  rewrite <- En in *. clear En.
  destruct (_validate_all_nodes_before_codegen self ast_nodes) as [safe self1].
  simpl in E. subst safe. reflexivity.
Qed.

(** In either case the emitter returns the empty text. *)
Lemma nothing_safe_is_empty (self : t) (ast_nodes : list PlaywrightAST)
    (intents : option (list IntentValidator.Intent)) (first_url : option string) :
  fst (_validate_all_nodes_before_codegen self ast_nodes) = [] ->
  exists self',
    generate_code_from_ast self ast_nodes intents first_url = Returns ("", self').
Proof.
  intros E. destruct ast_nodes as [|n rest] eqn:En.
  - now exists self.
  - eexists. apply nothing_safe_is_error; [discriminate | exact E].
Qed.

Section Run.
Variable PreprocessedStep : Type.
Variable generate_intents : list PreprocessedStep -> list IntentValidator.Intent.
Variable convert : list IntentValidator.Intent -> list PlaywrightAST.
Variable validate_ast_sync : list PlaywrightAST -> list PlaywrightAST.
Variable test_code : string -> Main.TestResults.

Definition run (self : Main.t PreprocessedStep)
    (preprocessed_steps : list PreprocessedStep) (validate_dom : bool)
    : outcome (Main.Summary * Main.t PreprocessedStep) :=
  Main.run_pipeline PreprocessedStep generate_intents convert
    validate_ast_sync test_code self preprocessed_steps validate_dom.

(** The run ends aborted, for the given reason. *)
Definition aborted (r : outcome (Main.Summary * Main.t PreprocessedStep))
    (reason : string) : Prop :=
  exists summary self',
    r = Returns (summary, self')
    /\ Main.pipeline_status summary = "ABORTED"
    /\ Main.failure_reason summary = Some reason
    /\ Main.code_lines summary = 0%Z.

(** The nodes handed to the emitter in a run. *)
Definition nodes_for_emitter (preprocessed_steps : list PreprocessedStep)
    (validate_dom : bool) : list PlaywrightAST :=
  let nodes := convert (generate_intents preprocessed_steps) in
  if validate_dom then validate_ast_sync nodes else nodes.

Lemma length_zero {A : Type} (l : list A) :
  (List.length l =? 0) = match l with [] => true | _ => false end.
Proof. now destruct l. Qed.

Lemma run_without_intents (self : Main.t PreprocessedStep)
    (preprocessed_steps : list PreprocessedStep) (validate_dom : bool) :
  generate_intents preprocessed_steps = [] ->
  aborted (run self preprocessed_steps validate_dom)
    "No valid intents after validation".
Proof.
  intros E. unfold run, Main.run_pipeline. simpl. rewrite E. simpl.
  eexists. eexists. repeat split.
Qed.

Lemma run_without_nodes (self : Main.t PreprocessedStep)
    (preprocessed_steps : list PreprocessedStep) (validate_dom : bool) :
  generate_intents preprocessed_steps <> [] ->
  convert (generate_intents preprocessed_steps) = [] ->
  aborted (run self preprocessed_steps validate_dom)
    "No valid AST nodes after conversion".
Proof.
  intros N E. unfold run, Main.run_pipeline. simpl.
  rewrite length_zero.
  destruct (generate_intents preprocessed_steps) as [|i rest] eqn:Ei;
    [contradiction|].
  rewrite E. simpl. eexists. eexists. repeat split.
Qed.

Lemma run_without_safe_nodes (self : Main.t PreprocessedStep)
    (preprocessed_steps : list PreprocessedStep) (validate_dom : bool) :
  generate_intents preprocessed_steps <> [] ->
  convert (generate_intents preprocessed_steps) <> [] ->
  fst (_validate_all_nodes_before_codegen (Main.code_gen _ self)
         (nodes_for_emitter preprocessed_steps validate_dom)) = [] ->
  aborted (run self preprocessed_steps validate_dom) "Code generation failed".
Proof.
  intros Ni Nn E. unfold run, Main.run_pipeline. simpl.
  rewrite !length_zero.
  destruct (generate_intents preprocessed_steps) as [|i irest] eqn:Ei;
    [contradiction|].
  destruct (convert (i :: irest)) as [|n nrest] eqn:Ec; [contradiction|].
  unfold nodes_for_emitter in E. rewrite Ei, Ec in E.
  assert (G : forall nodes,
             fst (_validate_all_nodes_before_codegen (Main.code_gen _ self) nodes)
             = [] ->
             exists gen,
               Main.generate_code _
                 (Main.mkMain _ preprocessed_steps (i :: irest) nodes
                    (Main.generated_code _ self) (Main.test_results _ self)
                    (Main.code_gen _ self))
               = Returns
                   (Main.mkMain _ preprocessed_steps (i :: irest) nodes ""
                      (Main.test_results _ self) gen)).
  { intros nodes H. unfold Main.generate_code. simpl.
    destruct nodes as [|m mrest] eqn:Em.
    - eexists. reflexivity.
    - rewrite <- Em in *.
      destruct (nothing_safe_is_empty (Main.code_gen _ self) nodes
                  (Some (i :: irest)) None H) as (gen & Eg).
      rewrite Eg. simpl. now exists gen. }
  destruct validate_dom; simpl.
  - destruct (G _ E) as (gen & Eg). rewrite Eg. simpl.
    eexists. eexists. repeat split.
  - destruct (G _ E) as (gen & Eg). rewrite Eg. simpl.
    eexists. eexists. repeat split.
Qed.

End Run.

(** C7, amended. When the emitter is given a non-empty node list of
    which nothing survives the re-validation, it returns the empty text
    and records the error; given the empty list it returns the empty
    text and records nothing.  A run in which nothing reaches or survives
    the emitter ends aborted: for want of intents, for want of nodes, or
    with the failed code generation. *)
Theorem empty_output_is_reported :
  (forall (self : t) (ast_nodes : list PlaywrightAST)
          (intents : option (list IntentValidator.Intent))
          (first_url : option string),
      ast_nodes <> [] ->
      fst (_validate_all_nodes_before_codegen self ast_nodes) = [] ->
      exists self',
        generate_code_from_ast self ast_nodes intents first_url
        = Returns ("", self')
        /\ last_opt (code_errors self') = Some no_safe_nodes_error)
  /\ (forall (self : t) (intents : option (list IntentValidator.Intent))
             (first_url : option string),
         generate_code_from_ast self [] intents first_url = Returns ("", self))
  /\ (forall (PreprocessedStep : Type)
             (generate_intents : list PreprocessedStep -> list IntentValidator.Intent)
             (convert : list IntentValidator.Intent -> list PlaywrightAST)
             (validate_ast_sync : list PlaywrightAST -> list PlaywrightAST)
             (test_code : string -> Main.TestResults)
             (self : Main.t PreprocessedStep)
             (preprocessed_steps : list PreprocessedStep) (validate_dom : bool),
         let r := run _ generate_intents convert validate_ast_sync test_code
                    self preprocessed_steps validate_dom in
         (generate_intents preprocessed_steps = [] ->
          aborted _ r "No valid intents after validation")
         /\ (generate_intents preprocessed_steps <> [] ->
             convert (generate_intents preprocessed_steps) = [] ->
             aborted _ r "No valid AST nodes after conversion")
         /\ (generate_intents preprocessed_steps <> [] ->
             convert (generate_intents preprocessed_steps) <> [] ->
             fst (_validate_all_nodes_before_codegen (Main.code_gen _ self)
                    (nodes_for_emitter _ generate_intents convert
                       validate_ast_sync preprocessed_steps validate_dom)) = [] ->
             aborted _ r "Code generation failed")).
Proof.
  split; [|split].
  - intros self ast_nodes intents first_url N E.
    eexists. split.
    + now apply nothing_safe_is_error.
    + simpl. apply last_opt_append.
  - reflexivity.
  - intros. subst r. split; [|split].
    + apply run_without_intents.
    + apply run_without_nodes.
    + apply run_without_safe_nodes.
Qed.

Lemma empty_output_is_reported_witness :
  exists self',
    generate_code_from_ast init [mkNode CLICK (Some "<go>") None None 5000 "" None]
      None None
    = Returns ("", self')
    /\ last_opt (code_errors self') = Some no_safe_nodes_error.
Proof.
  apply (proj1 empty_output_is_reported init
           [mkNode CLICK (Some "<go>") None None 5000 "" None] None None).
  - discriminate.
  - vm_compute. reflexivity.
Defined.

End EmptyOutputFacts.

(* ===================================================================== *)
(** ** The matcher *)
(* ===================================================================== *)

Section RegexFacts.
Import Py Re.

(** The language of a regular expression. *)
Inductive matches : regex -> string -> Prop :=
| MEps : matches Eps ""
| MChr (p : ascii -> bool) (c : ascii) :
    p c = true -> matches (Chr p) (String c "")
| MCat (a b : regex) (s t : string) :
    matches a s -> matches b t -> matches (Cat a b) (s ++ t)
| MAltL (a b : regex) (s : string) : matches a s -> matches (Alt a b) s
| MAltR (a b : regex) (s : string) : matches b s -> matches (Alt a b) s
| MStar0 (a : regex) : matches (Star a) ""
| MStarS (a : regex) (s t : string) :
    matches a s -> matches (Star a) t -> matches (Star a) (s ++ t).

Lemma append_eq_nil (s t : string) : s ++ t = "" -> s = "" /\ t = "".
Proof. destruct s; simpl; [now split | discriminate]. Qed.

Lemma matches_eps_inv (w : string) : matches Eps w -> w = "".
Proof. now inversion 1. Qed.

Lemma matches_nul_inv (w : string) : matches Nul w -> False.
Proof. inversion 1. Qed.

Lemma matches_chr_inv (p : ascii -> bool) (w : string) :
  matches (Chr p) w -> exists c, w = String c "" /\ p c = true.
Proof. inversion 1; subst. now eexists. Qed.

Lemma matches_cat_inv (a b : regex) (w : string) :
  matches (Cat a b) w ->
  exists s t, w = s ++ t /\ matches a s /\ matches b t.
Proof. inversion 1; subst. now eexists; eexists. Qed.

Lemma matches_alt_inv (a b : regex) (w : string) :
  matches (Alt a b) w -> matches a w \/ matches b w.
Proof. inversion 1; subst; [now left | now right]. Qed.

Lemma nullable_spec (r : regex) : nullable r = true <-> matches r "".
Proof.
  induction r as [| |p|a IHa b IHb|a IHa b IHb|a IHa]; simpl.
  - split; [discriminate | intros H; now apply matches_nul_inv in H].
  - split; [constructor | reflexivity].
  - split; [discriminate|].
    intros H. apply matches_chr_inv in H. destruct H as (c & E & _).
    discriminate.
  - rewrite andb_true_iff, IHa, IHb. split.
    + intros [Ha Hb]. change "" with ("" ++ ""). now constructor.
    + intros H. apply matches_cat_inv in H.
      destruct H as (s & t & E & Hs & Ht). symmetry in E.
      destruct (append_eq_nil _ _ E) as [-> ->]. now split.
  - rewrite orb_true_iff, IHa, IHb. split.
    + intros [H | H]; [now apply MAltL | now apply MAltR].
    + apply matches_alt_inv.
  - split; [constructor | reflexivity].
Qed.

Lemma star_cons (a : regex) (c : ascii) (s : string) :
  matches (Star a) (String c s) ->
  exists s1 s2, s = s1 ++ s2 /\ matches a (String c s1) /\ matches (Star a) s2.
Proof.
  intros H. remember (Star a) as r eqn:Er. remember (String c s) as w eqn:Ew.
  revert c s Ew.
  induction H as [| | | | | |a' u v Hu _ Hv IHv]; try discriminate.
  injection Er as ->. intros c s Ew.
  destruct u as [|d u]; simpl in Ew.
  - now apply IHv.
  - injection Ew as -> <-. now exists u, v.
Qed.

Lemma deriv_spec (r : regex) (c : ascii) (s : string) :
  matches (deriv r c) s <-> matches r (String c s).
Proof.
  revert s.
  induction r as [| |p|a IHa b IHb|a IHa b IHb|a IHa]; intros s; simpl.
  - split; intros H; now apply matches_nul_inv in H.
  - split; intros H.
    + now apply matches_nul_inv in H.
    + apply matches_eps_inv in H. discriminate.
  - destruct (p c) eqn:E; split; intros H.
    + apply matches_eps_inv in H. subst. now constructor.
    + apply matches_chr_inv in H. destruct H as (d & [= -> ->] & _).
      constructor.
    + now apply matches_nul_inv in H.
    + apply matches_chr_inv in H. destruct H as (d & [= -> ->] & H).
      congruence.
  - assert (Fwd : forall w, matches (Cat (deriv a c) b) w ->
                            matches (Cat a b) (String c w)).
    { intros w H. apply matches_cat_inv in H.
      destruct H as (u & v & -> & Hu & Hv).
      change (String c (u ++ v)) with (String c u ++ v).
      constructor; [now apply IHa | exact Hv]. }
    assert (Bwd : matches (Cat a b) (String c s) ->
                  matches (Cat (deriv a c) b) s
                  \/ (matches a "" /\ matches (deriv b c) s)).
    { intros H. apply matches_cat_inv in H.
      destruct H as (u & v & E & Hu & Hv).
      destruct u as [|d u]; simpl in E.
      - right. subst v. split; [exact Hu | now apply IHb].
      - injection E as <- ->. left.
        constructor; [now apply IHa | exact Hv]. }
    destruct (nullable a) eqn:Na.
    + split.
      * intros H. apply matches_alt_inv in H. destruct H as [H | H].
        -- now apply Fwd.
        -- change (String c s) with ("" ++ String c s).
           constructor; [now apply nullable_spec | now apply IHb].
      * intros H. destruct (Bwd H) as [H' | [_ Hb]];
          [now apply MAltL | now apply MAltR].
    + split.
      * apply Fwd.
      * intros H. destruct (Bwd H) as [H' | [Ha _]]; [exact H'|].
        apply nullable_spec in Ha. congruence.
  - split; intros H; apply matches_alt_inv in H; destruct H as [H | H];
      first [apply MAltL; now apply IHa | apply MAltR; now apply IHb].
  - split.
    + intros H. apply matches_cat_inv in H.
      destruct H as (u & v & -> & Hu & Hv).
      change (String c (u ++ v)) with (String c u ++ v).
      constructor; [now apply IHa | exact Hv].
    + intros H. destruct (star_cons a c s H) as (u & v & -> & Hu & Hv).
      constructor; [now apply IHa | exact Hv].
Qed.

(** [match_here] finds a prefix in the language that ends where the
    pattern may stop. *)
Lemma match_here_spec (p : pattern) (s : string) :
  forall r : regex,
    match_here p r s = true
    <-> exists a b, s = a ++ b /\ matches r a /\ stop_ok p b = true.
Proof.
  induction s as [|c s IH]; intros r; simpl.
  - rewrite orb_false_r, andb_true_iff, nullable_spec. split.
    + intros [H1 H2]. now exists "", "".
    + intros (a & b & E & Ha & Hb). symmetry in E.
      destruct (append_eq_nil _ _ E) as [-> ->]. now split.
  - rewrite orb_true_iff, andb_true_iff, nullable_spec, IH. split.
    + intros [[H1 H2] | (a & b & -> & Ha & Hb)].
      * now exists "", (String c s).
      * exists (String c a), b. repeat split; [now apply deriv_spec | exact Hb].
    + intros (a & b & E & Ha & Hb). destruct a as [|d a]; simpl in E.
      * left. subst b. now split.
      * injection E as <- ->. right. exists a, b.
        repeat split; [now apply deriv_spec | exact Hb].
Qed.

(** [search_from] finds such a piece anywhere. *)
Lemma search_from_spec (p : pattern) (s : string) :
  search_from p s = true
  <-> exists pre a b,
        s = pre ++ a ++ b /\ matches (body p) a /\ stop_ok p b = true.
Proof.
  induction s as [|c s IH]; cbn [search_from].
  - rewrite orb_false_r, match_here_spec. split.
    + intros (a & b & E & H). now exists "", a, b.
    + intros (pre & a & b & E & H). symmetry in E.
      destruct (append_eq_nil _ _ E) as [-> E'].
      now exists a, b.
  - rewrite orb_true_iff, match_here_spec, IH. split.
    + intros [(a & b & E & H) | (pre & a & b & -> & H)].
      * now exists "", a, b.
      * now exists (String c pre), a, b.
    + intros (pre & a & b & E & H). destruct pre as [|d pre]; simpl in E.
      * left. now exists a, b.
      * injection E as <- ->. right. now exists pre, a, b.
Qed.

(** Some character of the string is in the class. *)
Fixpoint has (f : ascii -> bool) (s : string) : bool :=
  match s with
  | EmptyString => false
  | String c s' => f c || has f s'
  end.

Lemma has_app (f : ascii -> bool) (a b : string) :
  has f (a ++ b) = has f a || has f b.
Proof.
  induction a as [|c a IH]; simpl; [reflexivity|].
  now rewrite IH, orb_assoc.
Qed.

(** The one character of a string in the language of a class is of the
    class. *)
Lemma matches_chr (f : ascii -> bool) (a : string) :
  matches (Chr f) a -> has f a = true.
Proof.
  intros H. apply matches_chr_inv in H. destruct H as (c & -> & E).
  simpl. now rewrite E.
Qed.

(** A search for one character of a class, anywhere and with no end
    anchor, is the test that the string has such a character. *)
Lemma search_class (f : ascii -> bool) (s : string) :
  search_from (Pat false (Chr f) false) s = has f s.
Proof.
  apply eq_true_iff_eq. rewrite search_from_spec. simpl. split.
  - intros (pre & a & b & -> & Ha & _).
    rewrite !has_app, (matches_chr _ _ Ha). now rewrite orb_true_r.
  - induction s as [|c s IH]; simpl; [discriminate|].
    destruct (f c) eqn:E.
    + intros _. exists "", (String c ""), s. repeat split. now constructor.
    + simpl. intros H. destruct (IH H) as (pre & a & b & -> & Hm).
      now exists (String c pre), a, b.
Qed.

End RegexFacts.

(* ===================================================================== *)
(** ** The selector grammar (intent_validator.py, javascript_code_generator.py) *)
(* ===================================================================== *)

Section GrammarFacts.
Import Py Re IntentValidator.

(** The class that the body of an expression starts with, when it starts
    with one. *)
Fixpoint head_class (r : regex) : option (ascii -> bool) :=
  match r with
  | Chr f => Some f
  | Cat a _ => head_class a
  | _ => None
  end.

Lemma head_matches (r : regex) (f : ascii -> bool) (w : string) :
  head_class r = Some f -> matches r w ->
  exists c w', w = String c w' /\ f c = true.
Proof.
  revert w. induction r as [| |p|a IHa b _|a _ b _|a _]; intros w E H;
    try discriminate; simpl in E.
  - injection E as ->. apply matches_chr_inv in H.
    destruct H as (c & -> & Hc). now exists c, "".
  - apply matches_cat_inv in H. destruct H as (s & t & -> & Hs & _).
    destruct (IHa _ E Hs) as (c & s' & -> & Hc).
    now exists c, (s' ++ t).
Qed.

(** A pattern that starts with a class finds nothing in a string without a
    character of that class. *)
Lemma no_class_no_match (p : pattern) (f : ascii -> bool) (s : string) :
  head_class (body p) = Some f -> has f s = false ->
  re_search p s = false /\ re_match p s = false.
Proof.
  intros E H.
  assert (M : match_here p (body p) s = false).
  { apply not_true_is_false. rewrite match_here_spec.
    intros (a & b & -> & Ha & _).
    destruct (head_matches _ _ _ E Ha) as (c & a' & -> & Hc).
    simpl in H. now rewrite Hc in H. }
  assert (S : search_from p s = false).
  { apply not_true_is_false. rewrite search_from_spec.
    intros (pre & a & b & -> & Ha & _).
    destruct (head_matches _ _ _ E Ha) as (c & a' & -> & Hc).
    rewrite !has_app in H. simpl in H. rewrite Hc in H.
    now rewrite orb_true_r in H. }
  unfold re_search, re_match. now destruct (bol p).
Qed.

(** An anchored pattern that starts with a class looks at the first
    character only to fail. *)
Lemma first_char_rejects (p : pattern) (f : ascii -> bool) (c : ascii) (s : string) :
  head_class (body p) = Some f -> f c = false ->
  match_here p (body p) (String c s) = false.
Proof.
  intros E H. apply not_true_is_false. rewrite match_here_spec.
  intros (a & b & Es & Ha & _).
  destruct (head_matches _ _ _ E Ha) as (d & a' & -> & Hd).
  injection Es as ->. congruence.
Qed.

(** An anchored class, with no end anchor, is a test of the first
    character. *)
Lemma anchored_class (f : ascii -> bool) (s : string) :
  match_here (Pat true (Chr f) false) (Chr f) s
  = match s with String c _ => f c | EmptyString => false end.
Proof.
  apply eq_true_iff_eq. rewrite match_here_spec. split.
  - intros (a & b & -> & Ha & _). apply matches_chr_inv in Ha.
    now destruct Ha as (c & -> & Hc).
  - destruct s as [|c s]; [discriminate|]. intros Hc.
    exists (String c ""), s. repeat split. now constructor.
Qed.

Lemma matches_star_class (f : ascii -> bool) (s : string) :
  Urllib.all_chars f s = true -> matches (Star (Chr f)) s.
Proof.
  induction s as [|c s IH]; simpl; [constructor|].
  rewrite andb_true_iff. intros [Hc Hs].
  change (String c s) with (String c "" ++ s).
  constructor; [now constructor | now apply IH].
Qed.

Lemma star_class_matches (f : ascii -> bool) (s : string) :
  matches (Star (Chr f)) s -> Urllib.all_chars f s = true.
Proof.
  intros H. remember (Star (Chr f)) as r eqn:Er.
  induction H as [| | | | | |a u v Hu _ Hv IHv]; try discriminate.
  - reflexivity.
  - injection Er as ->. apply matches_chr_inv in Hu.
    destruct Hu as (c & -> & Hc). simpl. rewrite Hc. now apply IHv.
Qed.

Lemma matches_plus_class (f : ascii -> bool) (s : string) :
  s <> "" -> Urllib.all_chars f s = true -> matches (Plus (Chr f)) s.
Proof.
  destruct s as [|c s]; [contradiction|]. intros _. simpl.
  rewrite andb_true_iff. intros [Hc Hs].
  change (String c s) with (String c "" ++ s).
  constructor; [now constructor | now apply matches_star_class].
Qed.

Lemma has_none (f g : ascii -> bool) (s : string) :
  (forall c, g c = true -> f c = false) ->
  Urllib.all_chars g s = true -> has f s = false.
Proof.
  intros I. induction s as [|c s IH]; simpl; [reflexivity|].
  rewrite andb_true_iff. intros [Hc Hs]. now rewrite (I c Hc), IH.
Qed.

Lemma count_none (c : ascii) (s : string) :
  has (Ascii.eqb c) s = false -> count c s = 0.
Proof.
  induction s as [|d s IH]; simpl; [reflexivity|].
  rewrite orb_false_iff. intros [Hd Hs].
  rewrite Ascii.eqb_sym, Hd. now apply IH.
Qed.

Lemma rstrip_no_space (s : string) :
  has isspace s = false -> rstrip s = s.
Proof.
  induction s as [|c s IH]; simpl; [reflexivity|].
  rewrite orb_false_iff. intros [Hc Hs]. rewrite (IH Hs), Hc.
  now destruct s.
Qed.

Lemma strip_no_space (s : string) : has isspace s = false -> strip s = s.
Proof.
  intros H. unfold strip.
  assert (L : lstrip s = s).
  { destruct s as [|c s]; [reflexivity|]. simpl in *.
    apply orb_false_iff in H. now rewrite (proj1 H). }
  rewrite L. now apply rstrip_no_space.
Qed.

(** The characters of an identifier, with the two sigils. *)
Definition name_char (c : ascii) : bool := ident_char c || one_of "#." c.

Lemma name_char_plain (c : ascii) :
  name_char c = true ->
  isspace c = false /\ one_of "{}()>" c = false /\ one_of "<>" c = false
  /\ ((code c =? 10) || (code c =? 13)) = false
  /\ Ascii.eqb "[" c = false /\ Ascii.eqb "]" c = false
  /\ Ascii.eqb "(" c = false /\ Ascii.eqb ")" c = false.
Proof.
  destruct c as [[|] [|] [|] [|] [|] [|] [|] [|]];
    intros H; try discriminate H; repeat split; reflexivity.
Qed.

(** The selector made of a sigil and a name of letters, digits, [_] and
    [-]. *)
Lemma sigil_selector_valid (sigil : ascii) (name : string) :
  sigil = "#"%char \/ sigil = "."%char ->
  name <> "" -> Urllib.all_chars ident_char name = true ->
  _is_valid_css_selector (String sigil name) = true.
Proof.
  intros Hs Hn Hi.
  set (t := String sigil name).
  assert (G : Urllib.all_chars name_char t = true).
  { unfold t. simpl. apply andb_true_iff. split.
    - destruct Hs as [-> | ->]; reflexivity.
    - clear -Hi. revert Hi. induction name as [|c n IH]; [reflexivity|].
      simpl. rewrite andb_true_iff. intros [Hc Hr].
      rewrite (IH Hr). unfold name_char. now rewrite Hc. }
  assert (N : forall f, (forall c, name_char c = true -> f c = false) ->
                        has f t = false).
  { intros f I. now apply has_none with (g := name_char). }
  pose proof (N isspace (fun c H => proj1 (name_char_plain c H))) as Nsp.
  unfold _is_valid_css_selector. change (nonempty (String sigil name)) with true.
  simpl negb. cbv iota. fold t. rewrite (strip_no_space t Nsp).
  unfold valid_stripped.
  change (String.length t =? 0) with false. cbv iota.
  (* the nine patterns that reject *)
  assert (R : existsb (fun p => re_search p t) invalid_patterns = false).
  { assert (Q : forall p f, head_class (body p) = Some f ->
                            (forall c, name_char c = true -> f c = false) ->
                            re_search p t = false).
    { intros p f E I. exact (proj1 (no_class_no_match p f t E (N f I))). }
    unfold invalid_patterns. cbn [existsb].
    (* ^\s*$ *)
    assert (P0 : re_search (Pat true (Star ws) true) t = false).
    { apply not_true_is_false. unfold re_search. cbn [bol body].
      rewrite match_here_spec. intros (a & b & E & Ha & Hb).
      apply star_class_matches in Ha.
      destruct a as [|c a].
      - simpl in E. subst b. unfold t in Hb. cbn in Hb.
        destruct name; [contradiction | discriminate].
      - unfold t in E. injection E as <- _. simpl in Ha.
        destruct Hs as [-> | ->]; discriminate. }
    rewrite P0.
    rewrite (Q (Pat true (Cat (lit "[") (lit "]")) false) (Ascii.eqb "[") eq_refl)
      by (intros c H; apply (name_char_plain c H)).
    rewrite (Q (Pat true (Cat (lit "(") (lit ")")) true) (Ascii.eqb "(") eq_refl)
      by (intros c H; apply (name_char_plain c H)).
    rewrite (Q (Pat true (Chr (one_of "{}()>")) false) _ eq_refl)
      by (intros c H; apply (name_char_plain c H)).
    rewrite (Q (Pat false (Chr (one_of "{}()>")) true) _ eq_refl)
      by (intros c H; apply (name_char_plain c H)).
    rewrite (Q (Pat false (Cat ws (Cat ws (Star ws))) false) _ eq_refl)
      by (intros c H; apply (name_char_plain c H)).
    rewrite (Q (Pat false (Chr (one_of "<>")) false) _ eq_refl)
      by (intros c H; apply (name_char_plain c H)).
    rewrite (Q (Pat false (Chr (fun c => (code c =? 10) || (code c =? 13))) false)
               _ eq_refl)
      by (intros c H; apply (name_char_plain c H)).
    assert (P8 : re_search
                   (Pat true (Cat (lit ">") (Cat (Star ws) (Chr isword))) false) t
                 = false).
    { unfold re_search. cbn [bol body]. unfold t.
      apply first_char_rejects with (f := Ascii.eqb ">"); [reflexivity|].
      destruct Hs as [-> | ->]; reflexivity. }
    rewrite P8. reflexivity. }
  rewrite R. cbv iota.
  rewrite (count_none "[" t), (count_none "]" t), (count_none "(" t),
    (count_none ")" t);
    try (apply N; intros c H; apply (name_char_plain c H)).
  change (negb (0 =? 0)) with false. cbv iota.
  assert (E : re_match element_then_gt t = false).
  { unfold re_match, t.
    apply first_char_rejects with (f := is_ascii_letter); [reflexivity|].
    destruct Hs as [-> | ->]; reflexivity. }
  rewrite E. cbv iota.
  assert (V : existsb (fun p => re_match p t) valid_start_patterns = true).
  { assert (A : forall f s,
               re_match (Pat true (Chr f) false) s
               = match s with String c _ => f c | EmptyString => false end)
      by (intros; apply anchored_class).
    unfold valid_start_patterns, lit, letter, t. cbn [existsb].
    rewrite !A. destruct Hs as [-> | ->]; reflexivity. }
  rewrite V. simpl negb. cbv iota.
  assert (M : forall p, body p = Cat (lit sigil) (Plus (Chr ident_char)) ->
                        eol p = true -> re_match p t = true).
  { intros p Eb Ee. unfold re_match. rewrite match_here_spec.
    exists t, "". repeat split.
    - now rewrite append_nil_r.
    - rewrite Eb. unfold t. change (String sigil name) with (String sigil "" ++ name).
      constructor.
      + constructor. apply Ascii.eqb_refl.
      + now apply matches_plus_class.
    - unfold stop_ok. now rewrite Ee. }
  assert (S0 : forall s, startswith s "" = true) by (now destruct s).
  unfold shape_ok, t.
  destruct Hs as [-> | ->]; cbn [startswith Ascii.eqb Bool.eqb andb];
    rewrite S0; now apply M.
Qed.

End GrammarFacts.

Section AcceptedSelectorFacts.
Import Py Re IntentValidator.

Lemma has_lstrip (f : ascii -> bool) (s : string) :
  (forall c, f c = true -> isspace c = false) -> has f (lstrip s) = has f s.
Proof.
  intros I. induction s as [|c s IH]; simpl; [reflexivity|].
  destruct (isspace c) eqn:E; [|reflexivity].
  rewrite IH. destruct (f c) eqn:Fc; [|reflexivity].
  rewrite (I c Fc) in E. discriminate.
Qed.

Lemma has_rstrip (f : ascii -> bool) (s : string) :
  (forall c, f c = true -> isspace c = false) -> has f (rstrip s) = has f s.
Proof.
  intros I. induction s as [|c s IH]; simpl; [reflexivity|].
  destruct (rstrip s) as [|d u] eqn:E.
  - rewrite <- IH. simpl. destruct (isspace c) eqn:Ec; simpl.
    + destruct (f c) eqn:Fc; [|reflexivity].
      rewrite (I c Fc) in Ec. discriminate.
    + reflexivity.
  - now rewrite <- IH.
Qed.

Lemma has_strip (f : ascii -> bool) (s : string) :
  (forall c, f c = true -> isspace c = false) -> has f (strip s) = has f s.
Proof. intros I. unfold strip. now rewrite has_rstrip, has_lstrip. Qed.

(** Two whitespace characters side by side. *)
Fixpoint double_space (s : string) : bool :=
  match s with
  | String c s' =>
      match s' with
      | String d _ => (isspace c && isspace d) || double_space s'
      | EmptyString => false
      end
  | EmptyString => false
  end.

Lemma double_space_found (s : string) :
  double_space s = true ->
  search_from (Pat false (Cat ws (Cat ws (Star ws))) false) s = true.
Proof.
  induction s as [|c s IH]; [discriminate|].
  cbn [double_space search_from]. destruct s as [|d r]; [discriminate|].
  rewrite orb_true_iff. intros [H | H].
  - apply andb_true_iff in H. destruct H as [Hc Hd].
    apply orb_true_iff. left. apply match_here_spec.
    exists (String c (String d "")), r. repeat split.
    change (String c (String d "")) with (String c "" ++ (String d "" ++ "")).
    repeat constructor; assumption.
  - apply orb_true_iff. right. now apply IH.
Qed.

(** What [valid_stripped] has checked when it accepts. *)
Lemma valid_stripped_inv (t : string) :
  valid_stripped t = true ->
  t <> ""
  /\ existsb (fun p => re_search p t) invalid_patterns = false
  /\ count "[" t = count "]" t
  /\ count "(" t = count ")" t
  /\ existsb (fun p => re_match p t) valid_start_patterns = true.
Proof.
  unfold valid_stripped.
  destruct t as [|c t]; [discriminate|]. cbn [String.length Nat.eqb].
  destruct (existsb _ invalid_patterns); [discriminate|].
  destruct (count "[" (String c t) =? count "]" (String c t)) eqn:B;
    [|discriminate].
  destruct (count "(" (String c t) =? count ")" (String c t)) eqn:P;
    [|discriminate].
  cbn [negb]. destruct (re_match element_then_gt (String c t)); [discriminate|].
  destruct (existsb _ valid_start_patterns); [|discriminate].
  intros _. apply Nat.eqb_eq in B, P. repeat split; try assumption.
  discriminate.
Qed.

Lemma space_not_bracket (f : ascii -> bool) :
  f = one_of "<>" \/ f = one_of "{}()>" ->
  forall c, f c = true -> isspace c = false.
Proof.
  intros [-> | ->] c; destruct c as [[|] [|] [|] [|] [|] [|] [|] [|]];
    intros H; try discriminate H; reflexivity.
Qed.

(** X1. Every selector that the grammar check accepts has no angle bracket
    in it.  Without the whitespace around it, it is not empty, has no
    line break and no two whitespace characters side by side, has as many
    opening as closing brackets of either kind, and begins with a hash, a
    dot, an opening square bracket or a letter. *)
Theorem accepted_selector_shape (s : string) :
  _is_valid_css_selector s = true ->
  has (one_of "<>") s = false
  /\ strip s <> ""
  /\ has (fun c => (code c =? 10) || (code c =? 13)) (strip s) = false
  /\ double_space (strip s) = false
  /\ count "[" (strip s) = count "]" (strip s)
  /\ count "(" (strip s) = count ")" (strip s)
  /\ exists c rest,
       strip s = String c rest
       /\ (one_of "#.[" c || is_ascii_letter c) = true.
Proof.
  unfold _is_valid_css_selector. destruct (nonempty s); [|discriminate].
  cbn [negb]. intros H.
  destruct (valid_stripped_inv _ H) as (Hne & Hinv & Hb & Hp & Hst).
  set (t := strip s) in *.
  unfold invalid_patterns in Hinv. cbn [existsb] in Hinv.
  repeat (apply orb_false_iff in Hinv; destruct Hinv as [? Hinv]).
  repeat split; try assumption.
  - rewrite <- (has_strip (one_of "<>") s)
      by (apply space_not_bracket; now left).
    fold t. now rewrite <- search_class.
  - now rewrite <- search_class.
  - apply not_true_is_false. intros D. apply double_space_found in D.
    unfold re_search in *. cbn [bol] in *. congruence.
  - destruct t as [|c rest]; [contradiction|]. exists c, rest.
    split; [reflexivity|].
    assert (A : forall f u,
               re_match (Pat true (Chr f) false) u
               = match u with String c _ => f c | EmptyString => false end)
      by (intros; apply anchored_class).
    unfold valid_start_patterns, lit, letter in Hst. cbn [existsb] in Hst.
    rewrite !A in Hst. rewrite orb_false_r in Hst.
    cbn [one_of]. rewrite orb_false_r.
    now rewrite <- !orb_assoc in *.
Qed.

Lemma accepted_selector_shape_witness :
  has (one_of "<>") " [name='q'] " = false
  /\ strip " [name='q'] " <> ""
  /\ has (fun c => (code c =? 10) || (code c =? 13)) (strip " [name='q'] ") = false
  /\ double_space (strip " [name='q'] ") = false
  /\ count "[" (strip " [name='q'] ") = count "]" (strip " [name='q'] ")
  /\ count "(" (strip " [name='q'] ") = count ")" (strip " [name='q'] ")
  /\ exists c rest,
       strip " [name='q'] " = String c rest
       /\ (one_of "#.[" c || is_ascii_letter c) = true.
Proof.
  apply (accepted_selector_shape " [name='q'] "). vm_compute. reflexivity.
Defined.

End AcceptedSelectorFacts.

Section GateAndEmitterFacts.
Import Py Re IntentValidator.

Lemma rstrip_spaces (b : string) :
  Urllib.all_chars isspace b = true -> rstrip b = "".
Proof.
  induction b as [|c b IH]; simpl; [reflexivity|].
  rewrite andb_true_iff. intros [Hc Hb]. now rewrite (IH Hb), Hc.
Qed.

Lemma rstrip_end (x : string) (c : ascii) (b : string) :
  isspace c = false -> Urllib.all_chars isspace b = true ->
  rstrip (x ++ String c b) = x ++ String c "".
Proof.
  intros Hc Hb. induction x as [|d x IH]; simpl.
  - now rewrite (rstrip_spaces b Hb), Hc.
  - rewrite IH. now destruct x.
Qed.

Lemma lstrip_keeps (pre : string) (c : ascii) (b : string) :
  isspace c = false ->
  exists pre', lstrip (pre ++ String c b) = pre' ++ String c b.
Proof.
  intros Hc. induction pre as [|d pre IH]; simpl.
  - rewrite Hc. now exists "".
  - destruct (isspace d); [exact IH|]. now exists (String d pre).
Qed.

Lemma at_dollar_spaces (b : string) :
  at_dollar b = true -> Urllib.all_chars isspace b = true.
Proof.
  destruct b as [|c [|d b]]; simpl; try discriminate; [reflexivity|].
  intros H. apply Nat.eqb_eq in H. unfold isspace, between. rewrite H.
  reflexivity.
Qed.

(** A string in the language of the pattern for an element followed by
    a lone [>] has a [>] in it. *)
Lemma element_gt_has_gt (a : string) :
  matches (Cat (Plus letter) (Cat (Star ws) (Cat (lit ">") (Star ws)))) a ->
  has (one_of "<>") a = true.
Proof.
  intros H.
  apply matches_cat_inv in H. destruct H as (s1 & r1 & -> & _ & H).
  apply matches_cat_inv in H. destruct H as (s2 & r2 & -> & _ & H).
  apply matches_cat_inv in H. destruct H as (s3 & r3 & -> & H & _).
  apply matches_chr_inv in H. destruct H as (c & -> & Hc).
  apply Ascii.eqb_eq in Hc. subst c.
  rewrite !has_app. simpl. now rewrite !orb_true_r.
Qed.

Lemma valid_selector_no_angle (s : string) :
  _is_valid_css_selector s = true ->
  has (one_of "<>") s = false /\ strip s <> "".
Proof.
  unfold _is_valid_css_selector. destruct (nonempty s); [|discriminate].
  cbn [negb]. intros H.
  destruct (valid_stripped_inv _ H) as (Hne & Hinv & _).
  unfold invalid_patterns in Hinv. cbn [existsb] in Hinv.
  repeat (apply orb_false_iff in Hinv; destruct Hinv as [? Hinv]).
  split; [|exact Hne].
  rewrite <- (has_strip (one_of "<>") s)
    by (apply space_not_bracket; now left).
  now rewrite <- search_class.
Qed.

Lemma valid_selector_passes_emitter (s : string) :
  _is_valid_css_selector s = true ->
  JavaScriptCodeGenerator._is_valid_selector s = true
  /\ JavaScriptCodeGenerator.blank (Some s) = false.
Proof.
  intros V.
  destruct (valid_selector_no_angle s V) as (Hlt & Hne).
  unfold _is_valid_css_selector in V.
  destruct (nonempty s) eqn:Ns; [|discriminate]. cbn [negb] in V.
  destruct (valid_stripped_inv _ V) as (_ & Hinv & _).
  unfold invalid_patterns in Hinv. cbn [existsb] in Hinv.
  repeat (apply orb_false_iff in Hinv; destruct Hinv as [? Hinv]).
  assert (Sp : forall c, one_of "{}()>" c = true -> isspace c = false)
    by (apply space_not_bracket; now right).
  split.
  - unfold JavaScriptCodeGenerator._is_valid_selector. rewrite Ns. cbn [negb].
    apply negb_true_iff.
    unfold JavaScriptCodeGenerator.malformed_patterns. cbn [existsb].
    rewrite !orb_false_iff. repeat split.
    + (* ^[{}()>] *)
      apply not_true_is_false. intros M.
      unfold re_search in M. cbn [bol body] in M. rewrite anchored_class in M.
      destruct s as [|c s']; [discriminate|].
      assert (L : lstrip (String c s') = String c s')
        by (simpl; now rewrite (Sp c M)).
      destruct (rstrip_keeps_head c s' (Sp c M)) as (u & Hu).
      unfold re_search in H2. cbn [bol body] in H2.
      rewrite anchored_class in H2. unfold strip in H2. rewrite L, Hu in H2.
      congruence.
    + (* [{}()>]$ *)
      apply not_true_is_false. intros M.
      unfold re_search in M. cbn [bol] in M. apply search_from_spec in M.
      destruct M as (pre & a & b & E & Ha & Hb). cbn [body] in Ha.
      apply matches_chr_inv in Ha. destruct Ha as (c & -> & Hc).
      unfold stop_ok in Hb. cbn [eol] in Hb. apply at_dollar_spaces in Hb.
      destruct (lstrip_keeps pre c b (Sp c Hc)) as (pre' & L).
      assert (St : strip s = pre' ++ String c "").
      { unfold strip. rewrite E. simpl. rewrite L.
        now apply rstrip_end; [apply Sp|]. }
      unfold re_search in H3. cbn [bol] in H3.
      assert (T : search_from (Pat false (Chr (one_of "{}()>")) true) (strip s)
                  = true).
      { apply search_from_spec. exists pre', (String c ""), "".
        rewrite St. repeat split. now constructor. }
      congruence.
    + (* [\<\>] *)
      unfold re_search. cbn [bol]. now rewrite search_class.
    + (* ^[a-zA-Z]+\s*>\s*$ *)
      apply not_true_is_false. intros M.
      unfold re_search in M. cbn [bol body] in M. apply match_here_spec in M.
      destruct M as (a & b & -> & Ha & _).
      apply element_gt_has_gt in Ha. rewrite has_app, Ha in Hlt. discriminate.
  - unfold JavaScriptCodeGenerator.blank. rewrite Ns.
    destruct (strip s); [contradiction | reflexivity].
Qed.

(** X2. The final check of the emitter never rejects what the grammar
    check of the gate has accepted: such a selector is not blank and
    matches none of the emitter's malformed patterns, so
    [_is_node_safe_for_codegen] lets every click, fill, select or hover
    node that carries it through and records nothing. *)
Theorem gate_check_implies_emitter_check (s : string) :
  _is_valid_css_selector s = true ->
  JavaScriptCodeGenerator._is_valid_selector s = true
  /\ JavaScriptCodeGenerator.blank (Some s) = false
  /\ forall (self : JavaScriptCodeGenerator.t) (node : Ast.PlaywrightAST)
            (step_idx : nat),
       Ast.selector node = Some s ->
       JavaScriptCodeGenerator.interactive (Ast.action_type node) = true ->
       JavaScriptCodeGenerator._is_node_safe_for_codegen self node step_idx
       = (true, self).
Proof.
  intros V. destruct (valid_selector_passes_emitter s V) as (E1 & E2).
  split; [exact E1|]. split; [exact E2|].
  intros self node step_idx Es I.
  unfold JavaScriptCodeGenerator._is_node_safe_for_codegen.
  rewrite Es, E2, E1.
  destruct (Ast.action_type node); try discriminate I; reflexivity.
Qed.

Lemma gate_check_implies_emitter_check_witness :
  JavaScriptCodeGenerator._is_valid_selector "[data-testid='t']" = true
  /\ JavaScriptCodeGenerator.blank (Some "[data-testid='t']") = false
  /\ forall (self : JavaScriptCodeGenerator.t) (node : Ast.PlaywrightAST)
            (step_idx : nat),
       Ast.selector node = Some "[data-testid='t']" ->
       JavaScriptCodeGenerator.interactive (Ast.action_type node) = true ->
       JavaScriptCodeGenerator._is_node_safe_for_codegen self node step_idx
       = (true, self).
Proof.
  apply (gate_check_implies_emitter_check "[data-testid='t']").
  vm_compute. reflexivity.
Defined.

End GateAndEmitterFacts.

Section SigilSelectorFacts.
Import Py Re IntentValidator.

Lemma rstrip_cons (c : ascii) (s : string) :
  isspace c = false -> rstrip (String c s) = String c (rstrip s).
Proof. intros Hc. simpl. destruct (rstrip s); [now rewrite Hc | reflexivity]. Qed.

Lemma is_valid_sigil_strip (sigil : ascii) (name : string) :
  isspace sigil = false ->
  _is_valid_css_selector (String sigil name)
  = valid_stripped (String sigil (rstrip name)).
Proof.
  intros Hs. unfold _is_valid_css_selector, strip. cbn [nonempty negb lstrip].
  rewrite Hs. now rewrite rstrip_cons.
Qed.

Lemma valid_stripped_shape (t : string) :
  valid_stripped t = true -> shape_ok t = true.
Proof.
  unfold valid_stripped.
  destruct (String.length t =? 0); [discriminate|].
  destruct (existsb _ invalid_patterns); [discriminate|].
  destruct (negb (count "[" t =? count "]" t)); [discriminate|].
  destruct (negb (count "(" t =? count ")" t)); [discriminate|].
  destruct (re_match element_then_gt t); [discriminate|].
  destruct (negb (existsb _ valid_start_patterns)); [discriminate|].
  exact (fun H => H).
Qed.

Lemma no_line_break (t : string) :
  valid_stripped t = true ->
  has (fun c => (code c =? 10) || (code c =? 13)) t = false.
Proof.
  intros V. destruct (valid_stripped_inv _ V) as (_ & Hinv & _).
  unfold invalid_patterns in Hinv. cbn [existsb] in Hinv.
  repeat (apply orb_false_iff in Hinv; destruct Hinv as [? Hinv]).
  now rewrite <- search_class.
Qed.

Lemma plus_class_matches (f : ascii -> bool) (s : string) :
  matches (Plus (Chr f)) s -> s <> "" /\ Urllib.all_chars f s = true.
Proof.
  intros H. apply matches_cat_inv in H. destruct H as (a & b & -> & Ha & Hb).
  apply matches_chr_inv in Ha. destruct Ha as (c & -> & Hc).
  apply star_class_matches in Hb. simpl. rewrite Hc, Hb. now split.
Qed.

(** X3. A selector that begins with a hash or a dot is accepted by the
    grammar check exactly when the sigil is followed by one or more
    letters, digits, underscores or hyphens and then by whitespace only. *)
Theorem sigil_selector_accepted_iff (name : string) :
  (_is_valid_css_selector (String "#" name) = true
   <-> rstrip name <> "" /\ Urllib.all_chars ident_char (rstrip name) = true)
  /\ (_is_valid_css_selector (String "." name) = true
      <-> rstrip name <> "" /\ Urllib.all_chars ident_char (rstrip name) = true).
Proof.
  assert (K : forall sigil p,
             sigil = "#"%char \/ sigil = "."%char ->
             p = Pat true (Cat (lit sigil) (Plus (Chr ident_char))) true ->
             shape_ok (String sigil (rstrip name))
             = re_match p (String sigil (rstrip name)) ->
             (_is_valid_css_selector (String sigil name) = true
              <-> rstrip name <> ""
                  /\ Urllib.all_chars ident_char (rstrip name) = true)).
  { intros sigil p Hs -> Sh.
    assert (Sp : isspace sigil = false) by (destruct Hs as [-> | ->]; reflexivity).
    rewrite (is_valid_sigil_strip sigil name Sp). split.
    - intros V. pose proof (no_line_break _ V) as NB.
      apply valid_stripped_shape in V. rewrite Sh in V.
      unfold re_match in V. cbn [body] in V. apply match_here_spec in V.
      destruct V as (a & b & E & Ha & Hb).
      apply matches_cat_inv in Ha. destruct Ha as (a1 & a2 & -> & H1 & H2).
      apply matches_chr_inv in H1. destruct H1 as (c & -> & _).
      apply plus_class_matches in H2. destruct H2 as (Hne & Hall).
      simpl in E. injection E as _ E.
      unfold stop_ok in Hb. cbn [eol] in Hb.
      destruct b as [|d [|e b]]; simpl in Hb; try discriminate.
      + rewrite append_nil_r in E. rewrite E. now split.
      + exfalso. apply Nat.eqb_eq in Hb.
        rewrite E in NB. cbn [has] in NB. rewrite has_app in NB. simpl in NB.
        fold (code d) in NB. unfold code in *. rewrite Hb in NB. simpl in NB.
        rewrite !orb_true_r in NB. discriminate.
    - intros [Hne Hall].
      rewrite <- (rstrip_idempotent name).
      rewrite <- (is_valid_sigil_strip sigil (rstrip name) Sp).
      now apply sigil_selector_valid. }
  assert (S0 : forall s, startswith s "" = true) by (now destruct s).
  split.
  - apply (K "#"%char id_shape); [now left | reflexivity |].
    unfold shape_ok. cbn [startswith Ascii.eqb Bool.eqb andb].
    now rewrite S0.
  - apply (K "."%char class_shape); [now right | reflexivity |].
    unfold shape_ok. cbn [startswith Ascii.eqb Bool.eqb andb].
    now rewrite S0.
Qed.

End SigilSelectorFacts.

(* ===================================================================== *)
(** ** What the gate lets through (intent_validator.py) *)
(* ===================================================================== *)

Section GateInvariantFacts.
Import Py Re IntentValidator.

(** What holds of an intent that the gate has built: its text is
    stripped and not empty; a context event carries the empty selector;
    an action whose event type requires a selector carries one that the
    grammar check accepts. *)
Definition safe_intent (c : Intent) : Prop :=
  strip (intent c) = intent c
  /\ intent c <> ""
  /\ (ctx_event c = true -> selector c = Some "")
  /\ (ctx_event c = false ->
      _action_requires_selector (event_type c) = true ->
      exists sel, selector c = Some sel /\ _is_valid_css_selector sel = true).

Lemma nonempty_neq (s : string) : nonempty s = true -> s <> "".
Proof. destruct s; [discriminate | discriminate]. Qed.

Lemma single_intent_cases (self : t) (io : option IntentObj) (idx : nat) :
  let '((ok, cleaned), self') := validate_single_intent self io idx in
  if ok then
    exists o c,
      io = Some o /\ cleaned = Some c /\ safe_intent c
      /\ step_index c = idx
      /\ event_type c = io_event_type o
      /\ original_step c = io_original_step o
      /\ validation_errors self' = [] /\ validation_warnings self' = []
  else
    cleaned = None
    /\ List.length (validation_errors self')
       + List.length (validation_warnings self') = 1.
Proof.
  unfold validate_single_intent.
  destruct io as [o|]; [|simpl; split; reflexivity].
  destruct (is_context_event (io_original_step o)
            || String.eqb (normalized_action (io_original_step o)) "wait").
  - exists o. eexists. repeat split; try reflexivity; cbn [intent ctx_event selector].
    + unfold str_or. destruct (nonempty (strip (io_intent o)));
        [apply strip_idempotent | reflexivity].
    + unfold str_or. destruct (nonempty (strip (io_intent o))) eqn:E;
        [now apply nonempty_neq | discriminate].
    + discriminate.
  - destruct (nonempty (io_intent o)) eqn:N1; cbn [negb orb];
      [|split; reflexivity].
    destruct (nonempty (strip (io_intent o))) eqn:N2; cbn [negb];
      [|split; reflexivity].
    set (sel := if truthy (io_selector o) then io_selector o
                else _extract_stable_selector (io_original_step o)).
    assert (Base : forall s : option string,
               strip (intent (mkIntent idx (io_event_type o)
                                (strip (io_intent o)) s
                                (io_original_step o) false))
               = intent (mkIntent idx (io_event_type o)
                           (strip (io_intent o)) s (io_original_step o) false)
               /\ intent (mkIntent idx (io_event_type o)
                            (strip (io_intent o)) s (io_original_step o) false)
                  <> "").
    { intros s. cbn [intent]. split;
        [apply strip_idempotent | now apply nonempty_neq]. }
    destruct (_action_requires_selector (io_event_type o)) eqn:R.
    + destruct sel as [[|a s]|]; try (split; reflexivity).
      destruct (String.eqb (strip (String a s)) ""); [split; reflexivity|].
      destruct (_is_valid_css_selector (String a s)) eqn:V; cbn [negb];
        [|split; reflexivity].
      exists o. eexists. repeat split; try reflexivity; try apply Base.
      * discriminate.
      * intros _ _. cbn [selector]. now exists (String a s).
    + exists o. eexists. repeat split; try reflexivity; try apply Base.
      * discriminate.
      * cbn [event_type]. intros _ R'. congruence.
Qed.

(** X4. The two results of [validate_single_intent].  An accepted step comes
    with a cleaned intent that is safe, carries the index, event type and
    step it was built from, and leaves both accumulators empty; a
    rejected step comes with no intent and with exactly one message, in
    one of the two accumulators.  Whatever the accumulators held before
    the call is gone. *)
Theorem validate_single_intent_outcome (self : t) (io : option IntentObj)
    (idx : nat) :
  (forall other : t,
      validate_single_intent other io idx = validate_single_intent self io idx)
  /\ let '((ok, cleaned), self') := validate_single_intent self io idx in
     if ok then
       exists o c,
         io = Some o /\ cleaned = Some c /\ safe_intent c
         /\ step_index c = idx
         /\ event_type c = io_event_type o
         /\ original_step c = io_original_step o
         /\ validation_errors self' = [] /\ validation_warnings self' = []
     else
       cleaned = None
       /\ List.length (validation_errors self')
          + List.length (validation_warnings self') = 1.
Proof.
  split.
  - intros other. reflexivity.
  - exact (single_intent_cases self io idx).
Qed.

(** One list is the other with some items left out, the order kept. *)
Inductive subseq {A : Type} : list A -> list A -> Prop :=
| sub_nil : subseq [] []
| sub_skip (a : A) (l1 l2 : list A) : subseq l1 l2 -> subseq l1 (a :: l2)
| sub_take (a : A) (l1 l2 : list A) : subseq l1 l2 -> subseq (a :: l1) (a :: l2).







Lemma subseq_length {A : Type} (a b : list A) :
  subseq a b -> List.length a <= List.length b.
Proof. intros H. induction H; simpl; lia. Qed.

Lemma sorted_snoc (l : list nat) (x : nat) :
  StronglySorted lt l -> Forall (fun y => y < x) l ->
  StronglySorted lt (l ++ [x]).
Proof.
  induction l as [|a l IH]; intros S F; simpl.
  - constructor; constructor.
  - inversion S; subst. inversion F; subst.
    constructor; [now apply IH|].
    apply Forall_app. split; [assumption | now constructor].
Qed.









Lemma validate_loop_snoc (pre : list (option IntentObj)) (x : option IntentObj) :
  forall (st : LoopState) (idx : nat),
    validate_loop st idx (pre ++ [x])
    = validate_step (validate_loop st idx pre) (idx + List.length pre) x.
Proof.
  induction pre as [|y pre IH]; intros st idx; simpl.
  - now rewrite Nat.add_0_r.
  - rewrite IH. f_equal. lia.
Qed.

(** The state of the validation loop after a prefix of the input. *)
Definition loop_after (self : t) (pre : list (option IntentObj)) : LoopState :=
  validate_loop (mkLoop self [] []) 0 pre.

Lemma loop_after_snoc (self : t) (pre : list (option IntentObj))
    (x : option IntentObj) :
  loop_after self (pre ++ [x])
  = validate_step (loop_after self pre) (List.length pre) x.
Proof. unfold loop_after. now rewrite validate_loop_snoc. Qed.

(** The invariant of the validation loop: the accepted intents are safe
    and carry the positions they came from, in increasing order; the
    positions accepted and the positions reported as removed are, taken
    together, the positions seen so far, each once. *)
Lemma loop_invariant (self : t) (pre : list (option IntentObj)) :
  let st := loop_after self pre in
  Forall safe_intent (cleaned_intents st)
  /\ StronglySorted lt (map step_index (cleaned_intents st))
  /\ Forall (fun c => step_index c < List.length pre) (cleaned_intents st)
  /\ Permutation
       (map step_index (cleaned_intents st) ++ map fst (removed_steps st))
       (seq 0 (List.length pre)).
Proof.
  induction pre as [|x pre IH] using rev_ind.
  - cbv zeta. unfold loop_after. simpl. repeat split; constructor.
  - cbv zeta in *. rewrite loop_after_snoc. destruct IH as (F & Srt & B & P).
    rewrite length_app. cbn [List.length]. rewrite Nat.add_1_r.
    assert (B' : Forall (fun c => step_index c < S (List.length pre))
                   (cleaned_intents (loop_after self pre))).
    { eapply Forall_impl; [|exact B]. cbv beta. intros c Hc. lia. }
    rewrite seq_S. cbn [Nat.add].
    unfold validate_step.
    pose proof (single_intent_cases (loop_self (loop_after self pre)) x
                  (List.length pre)) as C.
    destruct (validate_single_intent (loop_self (loop_after self pre)) x
                (List.length pre)) as [[ok cleaned] self'].
    destruct ok.
    + destruct C as (o & c & _ & -> & Sc & Ic & _).
      cbn [cleaned_intents removed_steps]. unfold append.
      rewrite map_app. cbn [map]. rewrite Ic.
      repeat split.
      * apply Forall_app. split; [assumption | now constructor].
      * apply sorted_snoc; [assumption|].
        apply Forall_map. exact B.
      * apply Forall_app. split; [assumption|]. constructor; [lia | constructor].
      * rewrite <- app_assoc.
        apply Permutation_trans
          with ((map step_index (cleaned_intents (loop_after self pre))
                 ++ map fst (removed_steps (loop_after self pre)))
                ++ [List.length pre])%list.
        -- rewrite <- app_assoc. apply Permutation_app_head.
           apply Permutation_app_comm.
        -- now apply Permutation_app_tail.
    + destruct C as (-> & _).
      cbn [cleaned_intents removed_steps]. unfold append.
      rewrite map_app. cbn [map fst].
      repeat split; try assumption.
      rewrite app_assoc. now apply Permutation_app_tail.
Qed.


(** X7. No input position is lost without a record: the positions of the
    intents that passed the validation and the positions listed in
    [removed_steps_details] are together the positions 0 .. n-1 of the
    input, each exactly once. *)
Theorem every_step_accepted_or_reported (self : t)
    (intents : list (option IntentObj)) :
  Permutation
    (map step_index (accepted self intents)
     ++ map fst (removed_steps_details
                   (snd (fst (validate_and_clean_intents self intents)))))
    (seq 0 (List.length intents)).
Proof.
  destruct (loop_invariant self intents) as (_ & _ & _ & P).
  unfold validate_and_clean_intents.
  destruct (_deduplicate_consecutive_actions _ _) as [d s']. exact P.
Qed.

Lemma validate_step_self (st : LoopState) (idx : nat) (io : option IntentObj) :
  loop_self (validate_step st idx io)
  = snd (validate_single_intent (loop_self st) io idx).
Proof.
  unfold validate_step.
  destruct (validate_single_intent (loop_self st) io idx) as [[ok c] self'].
  now destruct ok, c.
Qed.

(** The accumulators that come in play no part in the result. *)
Lemma validate_single_intent_resets (s1 s2 : t) (io : option IntentObj)
    (idx : nat) :
  validate_single_intent s1 io idx = validate_single_intent s2 io idx.
Proof. reflexivity. Qed.

(** The deduplication adds one warning for each item it leaves out and
    touches nothing else of the validator. *)
Lemma fold_dedup_messages (rest : list Intent) :
  forall (d : list Intent) (s : t),
    d <> [] ->
    let r := fold_left dedup_step rest (d, s) in
    validation_errors (snd r) = validation_errors s
    /\ exists ws,
         validation_warnings (snd r) = (validation_warnings s ++ ws)%list
         /\ List.length (fst r) + List.length ws
            = List.length d + List.length rest.
Proof.
  induction rest as [|c rest IH]; intros d s N; cbv zeta.
  - simpl. split; [reflexivity|]. exists []. rewrite app_nil_r.
    split; [reflexivity | simpl; lia].
  - cbn [fold_left]. unfold dedup_step at 2 4 6.
    destruct (last_opt d) as [p|] eqn:E.
    + destruct (is_duplicate c p); cbn [negb].
      * destruct (IH d
                    (mkValidator (validation_errors s)
                       (append (validation_warnings s)
                          ("Step " ++ str_of_nat (step_index c)
                             ++ ": Removed duplicate action (same as step "
                             ++ str_of_nat (step_index p) ++ ")"))) N)
          as (He & ws & Hw & Hl).
        cbn [validation_errors validation_warnings] in He, Hw.
        split; [exact He|].
        eexists (_ :: ws). split.
        -- rewrite Hw. unfold append. rewrite <- app_assoc. reflexivity.
        -- cbn [List.length]. lia.
      * assert (N' : append d c <> []).
        { unfold append. intros H. now apply app_eq_nil in H as [_ H]. }
        destruct (IH (append d c) s N') as (He & ws & Hw & Hl).
        split; [exact He|]. exists ws. split; [exact Hw|].
        rewrite length_append in Hl. cbn [List.length]. lia.
    + apply last_opt_none in E. contradiction.
Qed.

(** X8. The two message lists of the report tell about the last input item
    only.  For a non-empty input the error list of the report is the one
    that the validation of the last item left, so it never holds more
    than one entry however many steps were rejected; the warning list is
    the one that the last item left, followed by one warning for each
    intent that the deduplication removed.  For an empty input the
    validator's lists are reported as they were. *)
Theorem report_messages_from_last_step (self : t)
    (pre : list (option IntentObj)) (last : option IntentObj) :
  let report := snd (fst (validate_and_clean_intents self (pre ++ [last]))) in
  let after_last := snd (validate_single_intent self last (List.length pre)) in
  report_errors report = validation_errors after_last
  /\ List.length (report_errors report) <= 1
  /\ (exists dedup_warnings,
        report_warnings report
        = (validation_warnings after_last ++ dedup_warnings)%list
        /\ Z.of_nat (List.length dedup_warnings) = removed_by_dedup report)
  /\ report_errors (snd (fst (validate_and_clean_intents self [])))
     = validation_errors self.
Proof.
  cbv zeta.
  assert (L : loop_self (loop_after self (pre ++ [last]))
              = snd (validate_single_intent self last (List.length pre))).
  { rewrite loop_after_snoc, validate_step_self.
    now rewrite (validate_single_intent_resets _ self). }
  assert (B : List.length
                (validation_errors
                   (snd (validate_single_intent self last (List.length pre))))
              <= 1).
  { pose proof (single_intent_cases self last (List.length pre)) as C.
    destruct (validate_single_intent self last (List.length pre))
      as [[ok c] s'].
    destruct ok; cbn [snd].
    - destruct C as (o & i & _ & _ & _ & _ & _ & _ & -> & _). simpl. lia.
    - destruct C as (_ & C). lia. }
  unfold validate_and_clean_intents. fold (loop_after self (pre ++ [last])).
  set (st := loop_after self (pre ++ [last])) in *.
  unfold _deduplicate_consecutive_actions.
  destruct (cleaned_intents st) as [|first rest] eqn:Ec.
  - cbn [fst snd report_errors report_warnings removed_by_dedup List.length].
    rewrite L. repeat split; try assumption.
    exists []. now rewrite app_nil_r.
  - assert (N : [first] <> []) by discriminate.
    destruct (fold_dedup_messages rest [first] (loop_self st) N)
      as (He & ws & Hw & Hl). cbv zeta in He, Hw, Hl.
    destruct (fold_left dedup_step rest ([first], loop_self st)) as [d s'].
    cbn [fst snd] in *.
    cbn [report_errors report_warnings removed_by_dedup].
    rewrite He, Hw, L. repeat split; try assumption.
    exists ws. split; [reflexivity|]. cbn [List.length] in *. lia.
Qed.

End GateInvariantFacts.

(* ===================================================================== *)
(** ** The re-validation and the escapes of the emitter
       (javascript_code_generator.py) *)
(* ===================================================================== *)

Section EmitterFacts.
Import Py Re Ast JavaScriptCodeGenerator.

(** The test that [_is_node_safe_for_codegen] applies to a node, as a
    predicate of the node alone. *)
Definition node_ok (node : PlaywrightAST) : bool :=
  if interactive (action_type node) then
    negb (blank (selector node))
    && _is_valid_selector (match selector node with Some s => s | None => "" end)
  else if action_eqb (action_type node) NAVIGATE then negb (blank (url node))
  else true.

(** The positions, counted from [idx], of the nodes that fail the test. *)
Fixpoint dropped_from (idx : nat) (ast_nodes : list PlaywrightAST) : list nat :=
  match ast_nodes with
  | [] => []
  | node :: rest =>
      if node_ok node then dropped_from (S idx) rest
      else idx :: dropped_from (S idx) rest
  end.

Definition skip_warning (idx : nat) : string :=
  "Step " ++ str_of_nat idx
    ++ ": Node failed safety check, skipped from code generation".

Lemma node_safe_cases (self : t) (node : PlaywrightAST) (idx : nat) :
  fst (_is_node_safe_for_codegen self node idx) = node_ok node
  /\ (node_ok node = true -> snd (_is_node_safe_for_codegen self node idx) = self)
  /\ (node_ok node = false ->
      exists msg,
        snd (_is_node_safe_for_codegen self node idx) = add_error self msg
        /\ startswith msg ("Step " ++ str_of_nat idx ++ ": ") = true).
Proof.
  assert (P : forall a b, startswith (a ++ b) a = true).
  { induction a as [|c a IH]; intros b; [now destruct b|].
    simpl. now rewrite Ascii.eqb_refl, IH. }
  assert (Q : forall rest,
             startswith ("Step " ++ str_of_nat idx ++ ": " ++ rest)
               ("Step " ++ str_of_nat idx ++ ": ") = true).
  { intros rest.
    replace ("Step " ++ str_of_nat idx ++ ": " ++ rest)
      with (("Step " ++ str_of_nat idx ++ ": ") ++ rest); [apply P|].
    now rewrite !append_assoc. }
  unfold _is_node_safe_for_codegen, node_ok.
  destruct (action_type node); cbn [interactive action_eqb value_of String.eqb];
    try (repeat split; [discriminate]);
    try (destruct (blank (selector node)); cbn [negb andb];
         [ repeat split; [discriminate|]; intros _; eexists; split;
           [reflexivity | apply Q]
         | destruct (_is_valid_selector _); cbn [negb];
           [ repeat split; discriminate
           | repeat split; [discriminate|]; intros _; eexists; split;
             [reflexivity | apply Q] ] ]).
  destruct (blank (url node)); cbn [negb].
  - repeat split; [discriminate|]. intros _. eexists. split; [reflexivity | apply Q].
  - repeat split. discriminate.
Qed.

Lemma validate_nodes_spec (ast_nodes : list PlaywrightAST) :
  forall (self : t) (idx : nat) (safe_nodes : list PlaywrightAST),
    let r := validate_nodes self idx safe_nodes ast_nodes in
    fst r = (safe_nodes ++ filter node_ok ast_nodes)%list
    /\ code_warnings (snd r)
       = (code_warnings self ++ map skip_warning (dropped_from idx ast_nodes))%list
    /\ (exists errs,
          code_errors (snd r) = (code_errors self ++ errs)%list
          /\ Forall2 (fun e i => startswith e ("Step " ++ str_of_nat i ++ ": ") = true)
               errs (dropped_from idx ast_nodes))
    /\ generated_code (snd r) = generated_code self
    /\ selector_usage_count (snd r) = selector_usage_count self
    /\ selector_index_map (snd r) = selector_index_map self.
Proof.
  induction ast_nodes as [|node rest IH]; intros self idx safe_nodes; cbv zeta.
  - simpl. rewrite !app_nil_r. repeat split. exists []. rewrite app_nil_r.
    split; [reflexivity | constructor].
  - cbn [validate_nodes filter dropped_from].
    destruct (node_safe_cases self node idx) as (Hf & Hok & Hbad).
    destruct (_is_node_safe_for_codegen self node idx) as [ok self1].
    cbn [fst snd] in *. subst ok.
    destruct (node_ok node).
    + rewrite (Hok eq_refl).
      destruct (IH self (S idx) (append safe_nodes node))
        as (H1 & H2 & H3 & H4 & H5 & H6). cbv zeta in *.
      repeat split; try assumption.
      rewrite H1. unfold append. now rewrite <- app_assoc.
    + destruct (Hbad eq_refl) as (msg & -> & Hm).
      destruct (IH (add_warning (add_error self msg) (skip_warning idx))
                  (S idx) safe_nodes)
        as (H1 & H2 & (errs & H3 & H3') & H4 & H5 & H6). cbv zeta in *.
      fold (skip_warning idx).
      repeat split; try assumption.
      * rewrite H2. cbn [code_warnings add_warning add_error map]. unfold append.
        now rewrite <- app_assoc.
      * exists (msg :: errs). split.
        -- rewrite H3. cbn [code_errors add_warning add_error]. unfold append.
           now rewrite <- app_assoc.
        -- now constructor.
Qed.

(** X9. The re-validation before the emission is a filter.  The nodes that
    [_validate_all_nodes_before_codegen] returns are the nodes that pass
    the test, in the order of the input; for every node left out it
    appends one warning, which names the position of the node in the
    input, and one error that begins with the same position; the text
    and the two selector tables of the generator are not touched. *)
Theorem revalidation_is_a_filter (self : t) (ast_nodes : list PlaywrightAST) :
  let r := _validate_all_nodes_before_codegen self ast_nodes in
  fst r = filter node_ok ast_nodes
  /\ code_warnings (snd r)
     = (code_warnings self ++ map skip_warning (dropped_from 0 ast_nodes))%list
  /\ (exists errs,
        code_errors (snd r) = (code_errors self ++ errs)%list
        /\ Forall2 (fun e i => startswith e ("Step " ++ str_of_nat i ++ ": ") = true)
             errs (dropped_from 0 ast_nodes))
  /\ List.length (dropped_from 0 ast_nodes) + List.length (fst r)
     = List.length ast_nodes
  /\ generated_code (snd r) = generated_code self
  /\ selector_usage_count (snd r) = selector_usage_count self
  /\ selector_index_map (snd r) = selector_index_map self.
Proof.
  cbv zeta. unfold _validate_all_nodes_before_codegen.
  destruct (validate_nodes_spec ast_nodes self 0 [])
    as (H1 & H2 & H3 & H4 & H5 & H6). cbv zeta in *.
  simpl in H1. repeat split; try assumption.
  rewrite H1. clear. generalize 0.
  induction ast_nodes as [|node rest IH]; intros idx; simpl; [reflexivity|].
  specialize (IH (S idx)). destruct (node_ok node); simpl; lia.
Qed.

(** The index table is kept in step with the count table. *)
Definition tables_agree (tables : dict nat * dict (list nat)) : Prop :=
  forall sel : string,
    dict_get (snd tables) sel = option_map (seq 0) (dict_get (fst tables) sel).

Lemma count_node_agree (tables : dict nat * dict (list nat))
    (node : PlaywrightAST) :
  tables_agree tables -> tables_agree (count_node tables node).
Proof.
  destruct tables as [u i]. unfold tables_agree, count_node. cbn [fst snd].
  intros A.
  destruct (truthy (selector node) && interactive (action_type node));
    [|exact A].
  set (s := match selector node with Some s => s | None => "" end).
  destruct (dict_get u s) as [m|] eqn:G.
  - rewrite G. intros sel. cbn [fst snd].
    destruct (String.eqb_spec s sel) as [<-|N].
    + rewrite !dict_get_set_same, A, G. cbn [option_map]. unfold append.
      now rewrite Nat.add_1_r, seq_S.
    + rewrite !dict_get_set_other by exact N. apply A.
  - rewrite !dict_get_set_same. intros sel. cbn [fst snd].
    destruct (String.eqb_spec s sel) as [<-|N].
    + now rewrite !dict_get_set_same.
    + rewrite !dict_get_set_other by exact N. apply A.
Qed.

Lemma fold_count_agree (ast_nodes : list PlaywrightAST) :
  forall tables : dict nat * dict (list nat),
    tables_agree tables -> tables_agree (fold_left count_node ast_nodes tables).
Proof.
  induction ast_nodes as [|n rest IH]; intros tables A; simpl; [exact A|].
  now apply IH, count_node_agree.
Qed.

(** X10. The two tables that [_analyze_selector_usage] builds, whatever the
    generator held before.  A selector has an entry exactly when some
    interactive node carries it; its count is the number of interactive
    nodes that carry it, and its index list is 0, 1, .., count - 1.  The
    messages and the text of the generator are not touched. *)
Theorem selector_tables_spec (self : t) (ast_nodes : list PlaywrightAST)
    (sel : string) :
  let g := _analyze_selector_usage self ast_nodes in
  let n := usage sel ast_nodes in
  dict_get (selector_usage_count g) sel = (if n =? 0 then None else Some n)
  /\ dict_get (selector_index_map g) sel
     = (if n =? 0 then None else Some (seq 0 n))
  /\ code_errors g = code_errors self
  /\ code_warnings g = code_warnings self
  /\ generated_code g = generated_code self.
Proof.
  cbv zeta. unfold _analyze_selector_usage.
  pose proof (fold_count_usage ast_nodes sel ([], [])) as U.
  assert (A0 : tables_agree (([], []) : dict nat * dict (list nat)))
    by (intros k; reflexivity).
  pose proof (fold_count_agree ast_nodes _ A0 sel) as I.
  destruct (fold_left count_node ast_nodes ([], [])) as [u i].
  cbn [fst snd selector_usage_count selector_index_map code_errors
       code_warnings generated_code] in *.
  rewrite I, U. cbn [dict_get].
  destruct (usage sel ast_nodes); repeat split; reflexivity.
Qed.

(** Every occurrence of the character [q] stands right behind a
    backslash; [prev] tells whether the text so far ends in one. *)
Fixpoint guarded_from (q : ascii) (prev : bool) (s : string) : bool :=
  match s with
  | EmptyString => true
  | String c s' =>
      (if Ascii.eqb c q then prev else true)
      && guarded_from q (Ascii.eqb c "\") s'
  end.

Definition guarded (q : ascii) (s : string) : bool := guarded_from q false s.

Lemma replace_guards (q : ascii) (s : string) :
  q <> "\"%char ->
  forall prev, guarded_from q prev (replace q (String "\" (String q "")) s) = true.
Proof.
  intros N. induction s as [|a s IH]; intros prev; [reflexivity|].
  cbn [replace]. destruct (Ascii.eqb_spec a q) as [->|Na].
  - cbn [String.append guarded_from]. rewrite !Ascii.eqb_refl.
    destruct (Ascii.eqb_spec "\"%char q) as [E|_]; [now symmetry in E|].
    now rewrite IH.
  - cbn [guarded_from]. destruct (Ascii.eqb_spec a q); [contradiction|].
    now rewrite IH.
Qed.

Lemma guarded_app_plain (q : ascii) (new rest : string) :
  has (Ascii.eqb q) new = false ->
  (forall prev, guarded_from q prev rest = true) ->
  forall prev, guarded_from q prev (new ++ rest) = true.
Proof.
  intros H R. induction new as [|c new IH]; intros prev; [apply R|].
  cbn [has] in H. apply orb_false_iff in H. destruct H as [Hc Hn].
  cbn [String.append guarded_from]. rewrite Ascii.eqb_sym, Hc.
  now rewrite (IH Hn).
Qed.

Lemma guarded_weaken (q : ascii) (s : string) (prev : bool) :
  guarded_from q false s = true -> guarded_from q prev s = true.
Proof.
  destruct s as [|c s]; [reflexivity|]. cbn [guarded_from].
  destruct (Ascii.eqb c q); [discriminate|]. exact (fun H => H).
Qed.

Lemma replace_keeps_guard (q c : ascii) (new : string) (s : string) :
  c <> q -> c <> "\"%char -> has (Ascii.eqb q) new = false ->
  forall prev, guarded_from q prev s = true ->
               guarded_from q prev (replace c new s) = true.
Proof.
  intros Nq Nb Hn. induction s as [|a s IH]; intros prev G; [reflexivity|].
  cbn [replace]. cbn [guarded_from] in G.
  apply andb_true_iff in G. destruct G as [G1 G2].
  destruct (Ascii.eqb_spec a c) as [->|Na].
  - destruct (Ascii.eqb_spec c "\"%char) as [E|_]; [contradiction|].
    apply guarded_app_plain; [exact Hn|].
    intros p. apply guarded_weaken. now apply IH.
  - cbn [guarded_from]. rewrite G1. now rewrite (IH _ G2).
Qed.

Lemma replace_removes (c : ascii) (new s : string) :
  has (Ascii.eqb c) new = false -> has (Ascii.eqb c) (replace c new s) = false.
Proof.
  intros H. induction s as [|a s IH]; [reflexivity|].
  cbn [replace]. destruct (Ascii.eqb_spec a c) as [->|N].
  - now rewrite has_app, H, IH.
  - cbn [has]. rewrite IH.
    destruct (Ascii.eqb_spec c a); [now subst | reflexivity].
Qed.

Lemma replace_adds_none (d c : ascii) (new s : string) :
  has (Ascii.eqb d) new = false -> has (Ascii.eqb d) s = false ->
  has (Ascii.eqb d) (replace c new s) = false.
Proof.
  intros H. induction s as [|a s IH]; [reflexivity|].
  cbn [has replace]. rewrite orb_false_iff. intros [Ha Hs].
  destruct (Ascii.eqb a c).
  - now rewrite has_app, H, IH.
  - cbn [has]. now rewrite Ha, IH.
Qed.

Lemma replace_absent (c : ascii) (new s : string) :
  has (Ascii.eqb c) s = false -> replace c new s = s.
Proof.
  induction s as [|a s IH]; [reflexivity|].
  cbn [has replace]. rewrite orb_false_iff. intros [Ha Hs].
  rewrite Ascii.eqb_sym, Ha. now rewrite IH.
Qed.

(** X11. What [_escape_string] returns has no raw line feed, carriage return
    or tab in it, and every double quote in it stands right behind a
    backslash.  A text with none of these four characters is returned as
    it is; a backslash of the text is not doubled. *)
Theorem escape_string_guards (text : option string) :
  let e := _escape_string text in
  guarded "034" e = true
  /\ has (Ascii.eqb "010") e = false
  /\ has (Ascii.eqb "013") e = false
  /\ has (Ascii.eqb "009") e = false
  /\ (forall s, text = Some s ->
       has (Ascii.eqb "034") s = false -> has (Ascii.eqb "010") s = false ->
       has (Ascii.eqb "013") s = false -> has (Ascii.eqb "009") s = false ->
       e = s)
  /\ _escape_string (Some "\") = "\".
Proof.
  cbv zeta. unfold _escape_string.
  destruct (truthy text) eqn:T; cbn [negb].
  - destruct text as [s|]; [|discriminate].
    repeat split.
    + unfold guarded.
      repeat (apply replace_keeps_guard;
              [discriminate | discriminate | reflexivity |]).
      apply (replace_guards "034"). discriminate.
    + do 2 (apply replace_adds_none; [reflexivity|]).
      now apply replace_removes.
    + apply replace_adds_none; [reflexivity|]. now apply replace_removes.
    + now apply replace_removes.
    + intros s' [= <-] H1 H2 H3 H4.
      rewrite (replace_absent "034") by exact H1.
      rewrite (replace_absent "010") by exact H2.
      rewrite (replace_absent "013") by exact H3.
      now apply replace_absent.
  - repeat split. intros s ->. now destruct s.
Qed.

Lemma escape_string_guards_witness :
  _escape_string (Some "a b") = "a b".
Proof.
  apply (proj1 (proj2 (proj2 (proj2 (proj2
           (escape_string_guards (Some "a b")))))) "a b");
    reflexivity.
Defined.

(** A quote of either kind. *)
Definition either_quote (c : ascii) : bool :=
  Ascii.eqb c "'" || Ascii.eqb c "034".

(** The text with the backslash taken out wherever it stands right in
    front of a quote of either kind. *)
Fixpoint unguard (s : string) : string :=
  match s with
  | EmptyString => EmptyString
  | String c rest =>
      match rest with
      | String q rest' =>
          if Ascii.eqb c "\" && either_quote q then String q (unguard rest')
          else String c (unguard rest)
      | EmptyString => String c EmptyString
      end
  end.

(** The two [replace] calls of the emitter, character by character. *)
Fixpoint escape_quotes (s : string) : string :=
  match s with
  | EmptyString => EmptyString
  | String c s' =>
      if either_quote c then String "\" (String c (escape_quotes s'))
      else String c (escape_quotes s')
  end.

Lemma replace_twice_escapes (s : string) :
  replace "034" ("\" ++ DQ) (replace "'" "\'" s) = escape_quotes s.
Proof.
  unfold DQ. cbn [String.append].
  induction s as [|c s IH]; [reflexivity|].
  cbn [replace escape_quotes]. unfold either_quote.
  destruct (Ascii.eqb_spec c "'") as [->|N1].
  - cbn [String.append replace Ascii.eqb Bool.eqb andb orb]. now rewrite IH.
  - cbn [replace orb]. destruct (Ascii.eqb_spec c "034") as [->|N2].
    + cbn [String.append]. now rewrite IH.
    + now rewrite IH.
Qed.

Lemma escape_quotes_head (s : string) :
  match escape_quotes s with
  | String q _ => either_quote q = false \/ s = EmptyString
  | EmptyString => True
  end.
Proof.
  destruct s as [|c s]; [exact I|]. cbn [escape_quotes].
  destruct (either_quote c) eqn:E; left; [reflexivity | exact E].
Qed.

Lemma unguard_escape_quotes (s : string) : unguard (escape_quotes s) = s.
Proof.
  induction s as [|c s IH]; [reflexivity|].
  cbn [escape_quotes]. destruct (either_quote c) eqn:E.
  - cbn [unguard]. rewrite E. cbn [Ascii.eqb Bool.eqb andb]. now rewrite IH.
  - pose proof (escape_quotes_head s) as H.
    cbn [unguard]. destruct (escape_quotes s) as [|q rest] eqn:Es.
    + destruct s as [|d s]; [reflexivity|]. cbn [escape_quotes] in Es.
      destruct (either_quote d); discriminate Es.
    + destruct H as [H | ->]; [|discriminate Es].
      rewrite H, andb_false_r. now rewrite IH.
Qed.

Lemma escape_quotes_length (s : string) :
  String.length (escape_quotes s)
  = String.length s + count "'" s + count "034" s.
Proof.
  induction s as [|c s IH]; [reflexivity|].
  cbn [escape_quotes count String.length]. unfold either_quote.
  destruct (Ascii.eqb_spec c "'") as [->|N1].
  - cbn [orb String.length Ascii.eqb Bool.eqb andb]. rewrite IH. lia.
  - destruct (Ascii.eqb_spec c "034") as [->|N2];
      cbn [orb String.length]; rewrite IH; lia.
Qed.

(** X12. The element reference that [_get_locator_with_occurrence] writes
    for a selector.  Between the single quotes of [page.locator('...')]
    stands the selector with one backslash put in front of every single
    and every double quote of it and nothing else changed: taking these
    backslashes out gives the selector back, the text is longer than the
    selector by the number of its quotes, and every quote of the text
    stands right behind a backslash.  Behind it comes the indexed form
    with the given occurrence when the usage table counts the selector
    more than once, else the first-match form. *)
Theorem locator_quotes_guarded (self : t) (sel : string) (occurrence : nat) :
  sel <> "" ->
  exists e tail,
    _get_locator_with_occurrence self (Some sel) occurrence
    = "page.locator('" ++ e ++ "')" ++ tail
    /\ unguard e = sel
    /\ String.length e = String.length sel + count "'" sel + count "034" sel
    /\ guarded "'" e = true
    /\ guarded "034" e = true
    /\ ((tail = ".nth(" ++ str_of_nat occurrence ++ ")"
         /\ exists n, dict_get (selector_usage_count self) sel = Some n /\ 1 < n)
        \/ (tail = ".first()"
            /\ forall n, dict_get (selector_usage_count self) sel = Some n ->
                         n <= 1)).
Proof.
  intros N. unfold _get_locator_with_occurrence.
  assert (T : truthy (Some sel) = true)
    by (destruct sel; [contradiction | reflexivity]).
  rewrite T. cbn [negb].
  exists (replace "034" ("\" ++ DQ) (replace "'" "\'" sel)).
  assert (G1 : guarded "'" (replace "034" ("\" ++ DQ) (replace "'" "\'" sel)) = true).
  { unfold guarded.
    apply replace_keeps_guard; [discriminate | discriminate | reflexivity |].
    apply (replace_guards "'"). discriminate. }
  assert (G2 : guarded "034" (replace "034" ("\" ++ DQ) (replace "'" "\'" sel)) = true).
  { unfold guarded. apply (replace_guards "034"). discriminate. }
  assert (U : unguard (replace "034" ("\" ++ DQ) (replace "'" "\'" sel)) = sel)
    by (rewrite replace_twice_escapes; apply unguard_escape_quotes).
  assert (L : String.length (replace "034" ("\" ++ DQ) (replace "'" "\'" sel))
              = String.length sel + count "'" sel + count "034" sel)
    by (rewrite replace_twice_escapes; apply escape_quotes_length).
  destruct (dict_get (selector_usage_count self) sel) as [n|].
  - destruct (1 <? n) eqn:C.
    + exists (".nth(" ++ str_of_nat occurrence ++ ")").
      split; [reflexivity|]. repeat (split; [assumption|]).
      left. split; [reflexivity|]. exists n. split; [reflexivity|].
      now apply Nat.ltb_lt.
    + exists ".first()".
      split; [reflexivity|]. repeat (split; [assumption|]).
      right. split; [reflexivity|]. intros m [= <-].
      apply Nat.ltb_ge in C. exact C.
  - exists ".first()".
    split; [reflexivity|]. repeat (split; [assumption|]).
    right. split; [reflexivity|]. discriminate.
Qed.

Lemma locator_quotes_guarded_witness :
  exists e tail,
    _get_locator_with_occurrence init (Some "[name='q']") 0
    = "page.locator('" ++ e ++ "')" ++ tail
    /\ unguard e = "[name='q']"
    /\ String.length e
       = String.length "[name='q']" + count "'" "[name='q']"
         + count "034" "[name='q']"
    /\ guarded "'" e = true
    /\ guarded "034" e = true
    /\ ((tail = ".nth(" ++ str_of_nat 0 ++ ")"
         /\ exists n, dict_get (selector_usage_count init) "[name='q']" = Some n
                      /\ 1 < n)
        \/ (tail = ".first()"
            /\ forall n, dict_get (selector_usage_count init) "[name='q']" = Some n ->
                         n <= 1)).
Proof. apply (locator_quotes_guarded init "[name='q']" 0). discriminate. Defined.

Lemma script_nonempty (self : t) (safe_nodes : list PlaywrightAST)
    (base : string) :
  nonempty (join NL (script_lines self safe_nodes base)) = true.
Proof.
  unfold script_lines, header. cbn [List.concat List.app].
  reflexivity.
Qed.

Lemma try_except_caught {A : Type} (body : outcome A) (a : A) :
  try_except body (Returns a) <> Raises.
Proof. destruct body; discriminate. Qed.

Lemma base_url_never_raises (first_url : option string)
    (intents : option (list IntentValidator.Intent))
    (safe_nodes : list PlaywrightAST) :
  base_url first_url intents safe_nodes <> Raises.
Proof.
  unfold base_url. destruct (truthy first_url); [discriminate|].
  assert (I : _extract_base_url_from_intents intents <> Raises).
  { unfold _extract_base_url_from_intents.
    destruct intents as [[|f r]|]; try discriminate. apply try_except_caught. }
  assert (N : _extract_base_url_from_ast safe_nodes <> Raises).
  { unfold _extract_base_url_from_ast.
    destruct safe_nodes; [discriminate | apply try_except_caught]. }
  destruct (_extract_base_url_from_intents intents) as [a|];
    [|contradiction].
  cbn [bind]. destruct (truthy a); [discriminate|].
  destruct (_extract_base_url_from_ast safe_nodes) as [b|];
    [discriminate | contradiction].
Qed.

(** X13. The three ways [generate_code_from_ast] ends.  It never lets an
    exception out.  When it returns, the text is empty exactly when no
    node of the input passes the re-validation; a text that is not empty
    is also stored in [generated_code], while on the empty result
    [generated_code] keeps what it held before the call; and the error
    and the warning list keep the entries they held, new ones are put
    behind them. *)
Theorem emitter_result_cases (self : t) (ast_nodes : list PlaywrightAST)
    (intents : option (list IntentValidator.Intent)) (first_url : option string) :
  match generate_code_from_ast self ast_nodes intents first_url with
  | Returns (code, g) =>
      (code = "" <-> filter node_ok ast_nodes = [])
      /\ generated_code g = (if nonempty code then code else generated_code self)
      /\ (exists errs, code_errors g = (code_errors self ++ errs)%list)
      /\ (exists warns, code_warnings g = (code_warnings self ++ warns)%list)
  | Raises => False
  end.
Proof.
  unfold generate_code_from_ast.
  destruct ast_nodes as [|n rest] eqn:En.
  - repeat split; try reflexivity; exists []; now rewrite app_nil_r.
  - rewrite <- En. clear En n rest.
    unfold _validate_all_nodes_before_codegen.
    destruct (validate_nodes_spec ast_nodes self 0 [])
      as (H1 & H2 & (errs & H3 & _) & H4 & _). cbv zeta in *.
    destruct (validate_nodes self 0 [] ast_nodes) as [safe self1].
    cbn [fst snd] in *. simpl in H1. rewrite <- H1.
    destruct safe as [|s0 safe'].
    + repeat split; try reflexivity.
      * cbn [generated_code add_error nonempty]. exact H4.
      * exists (errs ++ ["No valid AST nodes passed safety checks"])%list.
        cbn [code_errors add_error]. unfold append. now rewrite H3, app_assoc.
      * eexists. cbn [code_warnings add_error]. exact H2.
    + cbv iota.
      assert (Hne : s0 :: safe' <> []) by discriminate.
      set (safe := s0 :: safe') in *.
      set (g := _analyze_selector_usage self1 safe).
      assert (Ge : code_errors g = code_errors self1
                   /\ code_warnings g = code_warnings self1).
      { unfold g, _analyze_selector_usage.
        now destruct (fold_left count_node safe ([], [])). }
      destruct Ge as [Ge Gw].
      pose proof (base_url_never_raises first_url intents safe) as NR.
      destruct (base_url first_url intents safe) as [base|];
        [|contradiction].
      cbn [bind]. pose proof (script_nonempty g safe base) as Ne.
      split; [|split; [|split]].
      * split; [intros E; rewrite E in Ne; discriminate | contradiction].
      * cbn [generated_code]. now rewrite Ne.
      * exists errs. cbn [code_errors]. now rewrite Ge.
      * eexists. cbn [code_warnings]. rewrite Gw. exact H2.
Qed.

Definition is_navigate (node : PlaywrightAST) : bool :=
  action_eqb (action_type node) NAVIGATE.

Lemma annotate_length (safe_nodes : list PlaywrightAST) :
  forall (skip : bool) (idx : nat) (seen : list PlaywrightAST),
    List.length (annotate skip idx seen safe_nodes)
    + (if skip && existsb is_navigate safe_nodes then 1 else 0)
    = List.length safe_nodes.
Proof.
  induction safe_nodes as [|node rest IH]; intros skip idx seen.
  - simpl. now rewrite andb_false_r.
  - cbn [annotate existsb List.length]. fold (is_navigate node).
    destruct skip; cbn [andb].
    + destruct (is_navigate node); cbn [orb].
      * specialize (IH false (S idx) seen). cbn [andb] in IH. lia.
      * specialize (IH true (S idx) (append seen node)). cbn [andb] in IH.
        cbn [List.length]. lia.
    + specialize (IH false (S idx) (append seen node)). cbn [andb] in IH.
      cbn [List.length]. lia.
Qed.

Lemma annotate_steps (safe_nodes : list PlaywrightAST) :
  forall (skip : bool) (idx : nat) (seen : list PlaywrightAST),
    Forall (fun '(node, i, _) =>
              idx <= i < idx + List.length safe_nodes
              /\ nth_error safe_nodes (i - idx) = Some node)
      (annotate skip idx seen safe_nodes).
Proof.
  induction safe_nodes as [|node rest IH]; intros skip idx seen;
    [constructor|].
  assert (W : forall sk sn,
             Forall (fun '(nd, i, _) =>
                       idx <= i < idx + List.length (node :: rest)
                       /\ nth_error (node :: rest) (i - idx) = Some nd)
               (annotate sk (S idx) sn rest)).
  { intros sk sn. eapply Forall_impl; [|apply (IH sk (S idx) sn)].
    intros [[nd i] occ] [B E]. cbn [List.length]. split; [lia|].
    replace (i - idx) with (S (i - S idx)) by lia. exact E. }
  cbn [annotate].
  destruct (skip && action_eqb (action_type node) NAVIGATE); [apply W|].
  constructor; [|apply W].
  cbn [List.length]. split; [lia|]. now rewrite Nat.sub_diag.
Qed.

(** X14. The steps of the script.  The emission loop writes one block for
    every node it is given except the first navigate node, which gets
    none; no block is empty; and the step number written into a block is
    the position of its node in the list that survived the re-validation
    (which is not its position in the input when a node was left out
    before it). *)
Theorem one_block_per_node (self : t) (safe_nodes : list PlaywrightAST) :
  let blocks := emitted (emit_loop self (mkEmit true [] []) 0 safe_nodes) in
  List.length blocks + (if existsb is_navigate safe_nodes then 1 else 0)
  = List.length safe_nodes
  /\ Forall (fun b => nonempty b = true) blocks
  /\ Forall2 (fun b '(node, i, occ) =>
                b = _generate_action self node i occ
                /\ nth_error safe_nodes i = Some node)
       blocks (annotate true 0 [] safe_nodes).
Proof.
  cbv zeta. rewrite emitted_blocks.
  pose proof (annotate_length safe_nodes true 0 []) as L. cbn [andb] in L.
  pose proof (annotate_steps safe_nodes true 0 []) as St.
  split; [now rewrite length_map|]. split.
  - apply Forall_map. apply Forall_forall. intros [[node i] occ] _.
    apply generated_action_nonempty.
  - clear L. induction St as [|[[node i] occ] l [_ E] _ IH]; [constructor|].
    cbn [map]. constructor; [|exact IH].
    split; [reflexivity|]. now rewrite Nat.sub_0_r in E.
Qed.

End EmitterFacts.

(* ===================================================================== *)
(** ** Selectors built from hints and the gate (intent_generator.py) *)
(* ===================================================================== *)

Section HintSelectorFacts.
Import Py Re IntentValidator IntentGenerator.

Lemma rev_string_nonempty (s : string) : s <> "" -> rev_string s <> "".
Proof.
  destruct s as [|c s]; [contradiction|]. intros _. simpl.
  destruct (rev_string s); discriminate.
Qed.

(** [str.split()] yields no empty item. *)
Lemma split_ws_aux_nonempty (s : string) :
  forall cur, Forall (fun tok => tok <> "") (split_ws_aux cur s).
Proof.
  induction s as [|c s IH]; intros cur; simpl.
  - destruct cur; constructor; [|constructor].
    apply rev_string_nonempty. discriminate.
  - destruct (isspace c); [|apply IH].
    destruct cur; [apply IH|].
    constructor; [|apply IH]. apply rev_string_nonempty. discriminate.
Qed.

(** X15. A selector that [_build_selector_from_hints] builds from an id, or
    from the first class when there is neither an id nor a name, passes
    the grammar check of the gate whenever that id or class is made of
    letters, digits, underscores and hyphens. *)
Theorem hinted_selector_passes_gate (hints : Hints) (v : string) :
  (hint_id hints = Some v /\ v <> "")
  \/ (truthy (hint_id hints) = false /\ truthy (hint_name hints) = false
      /\ exists cls rest,
           hint_class hints = Some cls /\ split_ws cls = v :: rest) ->
  Urllib.all_chars ident_char v = true ->
  (exists sigil, _build_selector_from_hints hints = String sigil v)
  /\ _is_valid_css_selector (_build_selector_from_hints hints) = true.
Proof.
  intros H I. unfold _build_selector_from_hints.
  destruct H as [[E N] | (Ti & Tn & cls & rest & E & Sp)].
  - rewrite E. cbn [truthy get].
    destruct v as [|c v]; [contradiction|]. cbn [nonempty].
    split; [now exists "#"%char|].
    apply sigil_selector_valid; [now left | discriminate | exact I].
  - rewrite Ti, Tn, E. cbn [get].
    assert (Nv : v <> "").
    { pose proof (split_ws_aux_nonempty cls "") as F.
      unfold split_ws in Sp. rewrite Sp in F. now inversion F. }
    assert (Tc : truthy (Some cls) = true).
    { destruct cls; [discriminate Sp | reflexivity]. }
    rewrite Tc, Sp.
    split; [now exists "."%char|].
    apply sigil_selector_valid; [now right | exact Nv | exact I].
Qed.

Lemma hinted_selector_passes_gate_witness :
  (exists sigil,
      _build_selector_from_hints
        (mkHints None (Some "btn primary") None None None (Some "button"))
      = String sigil "btn")
  /\ _is_valid_css_selector
       (_build_selector_from_hints
          (mkHints None (Some "btn primary") None None None (Some "button")))
     = true.
Proof.
  apply (hinted_selector_passes_gate
           (mkHints None (Some "btn primary") None None None (Some "button"))
           "btn").
  - right. repeat split. exists "btn primary", ["primary"]. split; reflexivity.
  - reflexivity.
Defined.

End HintSelectorFacts.

(* ===================================================================== *)
(** ** The converter between the gate and the emitter (ast_converter.py) *)
(* ===================================================================== *)

Section ConverterFacts.
Import Py Re Ast ASTConverter.

(** What the converter has checked of the selector of a node it made. *)
Definition checked_selector (node : PlaywrightAST) : Prop :=
  match selector node with
  | Some sel => sel = "" \/ IntentValidator._is_valid_css_selector sel = true
  | None => True
  end.

Lemma valid_selector_nonblank (sel : string) :
  IntentValidator._is_valid_css_selector sel = true ->
  nonempty sel = true /\ nonempty (strip sel) = true.
Proof.
  intros V. destruct (valid_selector_no_angle sel V) as [_ N].
  unfold IntentValidator._is_valid_css_selector in V.
  destruct (nonempty sel); [|discriminate]. split; [reflexivity|].
  destruct (strip sel); [contradiction | reflexivity].
Qed.

(** The two results of [convert_intent_to_ast]: a node and an untouched
    converter, or no node and one message more, an error exactly when
    the safety check fails. *)
Lemma convert_cases (self : t) (intent_obj : IntentObj) :
  match convert_intent_to_ast self intent_obj with
  | (Some node, self') =>
      self' = self /\ checked_selector node
      /\ _is_intent_safe_for_ast intent_obj = true
  | (None, self') =>
      ast_nodes self' = ast_nodes self
      /\ ((_is_intent_safe_for_ast intent_obj = false
           /\ (exists e, conversion_errors self'
                         = (conversion_errors self ++ [e])%list)
           /\ conversion_warnings self' = conversion_warnings self)
          \/ (_is_intent_safe_for_ast intent_obj = true
              /\ conversion_errors self' = conversion_errors self
              /\ exists w, conversion_warnings self'
                           = (conversion_warnings self ++ [w])%list))
  end.
Proof.
  unfold convert_intent_to_ast.
  destruct (_is_intent_safe_for_ast intent_obj); cbn [negb].
  - destruct (IntentValidator.ctx_event (cleaned intent_obj)).
    + destruct (_ || _); repeat split; exact I.
    + set (sel := if truthy (IntentValidator.selector (cleaned intent_obj))
                  then IntentValidator.selector (cleaned intent_obj)
                  else _extract_selector
                         (IntentValidator.original_step (cleaned intent_obj))).
      destruct sel as [[|a x]|]; cbn [truthy nonempty andb].
      * repeat split. now left.
      * destruct (IntentValidator._is_valid_css_selector (String a x)) eqn:V;
          cbn [negb].
        -- repeat split. now right.
        -- split; [reflexivity|]. right. repeat split. eexists. reflexivity.
      * repeat split.
  - split; [reflexivity|]. left. repeat split. eexists. reflexivity.
Qed.

(** The state of the conversion loop: the nodes made so far pass the
    selector check, and nodes and messages add up to the intents read. *)
Lemma convert_loop_invariant (intents : list IntentObj) :
  let self := fold_left convert_step intents (mkConverter [] [] []) in
  Forall checked_selector (ast_nodes self)
  /\ List.length (ast_nodes self) + List.length (conversion_errors self)
     + List.length (conversion_warnings self)
     = List.length intents
  /\ List.length (conversion_errors self)
     = List.length (filter (fun o => negb (_is_intent_safe_for_ast o)) intents).
Proof.
  induction intents as [|o pre IH] using rev_ind.
  - cbv zeta. simpl. repeat split. constructor.
  - cbv zeta in *. rewrite fold_left_app. cbn [fold_left].
    set (self := fold_left convert_step pre (mkConverter [] [] [])) in *.
    destruct IH as (F & L & E).
    rewrite filter_app, !length_app. cbn [filter List.length].
    unfold convert_step.
    pose proof (convert_cases self o) as C.
    destruct (convert_intent_to_ast self o) as [[node|] self'].
    + destruct C as (-> & Ck & Sf). rewrite Sf.
      cbn [ast_nodes conversion_errors conversion_warnings negb List.length].
      unfold append. rewrite length_app. cbn [List.length].
      repeat split; try lia.
      apply Forall_app. split; [exact F | now constructor].
    + destruct C as (An & [(Sf & (e & Ee) & Ew) | (Sf & Ee & (w & Ew))]);
        rewrite Sf, An, Ee, Ew; cbn [negb List.length];
        rewrite length_app; cbn [List.length];
        repeat split; try lia; exact F.
Qed.

(** X16. The nodes that the emitter gets from the converter.  A selector of
    such a node is empty or passes the grammar check of the gate, so the
    emitter's own pattern test never fires on it: the emitter leaves out
    a node of the converter only for a missing selector on a click,
    fill, select or hover, or for a missing URL on a navigate. *)
Theorem converter_nodes_meet_emitter (self : t) (intents : list IntentObj) :
  Forall
    (fun node =>
       checked_selector node
       /\ node_ok node
          = negb (JavaScriptCodeGenerator.interactive (action_type node)
                  && JavaScriptCodeGenerator.blank (selector node)
                  || is_navigate node
                     && JavaScriptCodeGenerator.blank (url node)))
    (fst (convert_all_intents_to_ast self intents)).
Proof.
  unfold convert_all_intents_to_ast. cbn [fst].
  destruct (convert_loop_invariant intents) as (F & _).
  eapply Forall_impl; [|exact F]. cbv beta.
  intros node Ck. split; [exact Ck|].
  unfold node_ok, is_navigate, checked_selector in *.
  destruct (JavaScriptCodeGenerator.interactive (action_type node)) eqn:I.
  - cbn [andb].
    assert (Nn : action_eqb (action_type node) NAVIGATE = false)
      by (destruct (action_type node); try discriminate I; reflexivity).
    rewrite Nn. cbn [andb]. rewrite orb_false_r.
    destruct (selector node) as [sel|]; [|reflexivity].
    destruct Ck as [-> | V]; [reflexivity|].
    destruct (valid_selector_passes_emitter sel V) as (-> & ->). reflexivity.
  - cbn [andb orb].
    now destruct (action_eqb (action_type node) NAVIGATE).
Qed.

(** X17. The account of a conversion.  The lists of the converter are
    started afresh; every intent read gives one node, one error or one
    warning; the errors are as many as the intents that fail the safety
    check; and the list returned is the list of nodes of the converter. *)
Theorem conversion_account (self : t) (intents : list IntentObj) :
  let r := convert_all_intents_to_ast self intents in
  ast_nodes (snd r) = fst r
  /\ List.length (fst r) + List.length (conversion_errors (snd r))
     + List.length (conversion_warnings (snd r))
     = List.length intents
  /\ List.length (conversion_errors (snd r))
     = List.length (filter (fun o => negb (_is_intent_safe_for_ast o)) intents).
Proof.
  cbv zeta. unfold convert_all_intents_to_ast. cbn [fst snd].
  destruct (convert_loop_invariant intents) as (_ & L & E).
  repeat split; assumption.
Qed.

(** X18. After the gate the converter has little left to refuse.  An intent
    that the gate built, that has an event type other than blank, and
    that is a context event or has an event type that requires a
    selector, always gets its node, and no message is recorded.  A
    context event gets a navigate node or a wait node of 2000 ms, without
    a selector; an action gets a node with the selector that the gate
    approved and with the action type read off its text. *)
Theorem gate_output_converts (self : t) (intent_obj : IntentObj) :
  let c := cleaned intent_obj in
  safe_intent c ->
  strip (IntentValidator.event_type c) <> "" ->
  IntentValidator.ctx_event c = true
  \/ IntentValidator._action_requires_selector (IntentValidator.event_type c)
     = true ->
  exists node,
    convert_intent_to_ast self intent_obj = (Some node, self)
    /\ description node = IntentValidator.intent c
    /\ (if IntentValidator.ctx_event c
        then selector node = None
             /\ (action_type node = NAVIGATE
                 \/ action_type node = WAIT /\ wait_time node = 2000%Z)
        else selector node = IntentValidator.selector c
             /\ action_type node
                = _determine_action_type (IntentValidator.intent c)
                    (IntentValidator.event_type c)).
Proof.
  cbv zeta. intros (St & Ne & Cx & Ac) Ev K.
  assert (Ni : nonempty (IntentValidator.intent (cleaned intent_obj)) = true)
    by (destruct (IntentValidator.intent (cleaned intent_obj));
        [contradiction | reflexivity]).
  assert (Nev : nonempty (strip (IntentValidator.event_type (cleaned intent_obj)))
                = true)
    by (destruct (strip (IntentValidator.event_type (cleaned intent_obj)));
        [contradiction | reflexivity]).
  unfold convert_intent_to_ast, _is_intent_safe_for_ast.
  rewrite St, Ni, Nev. cbn [negb].
  destruct (IntentValidator.ctx_event (cleaned intent_obj)) eqn:Ec.
  - rewrite (Cx eq_refl). cbn [nonempty negb].
    unfold str_or. rewrite Ni.
    destruct (_ || _); eexists; repeat split; auto.
  - destruct K as [K | K]; [discriminate|].
    destruct (Ac eq_refl K) as (sel & Es & V).
    destruct (valid_selector_nonblank sel V) as (N1 & N2).
    rewrite Es. cbn [truthy]. rewrite N1, N2, V. cbn [negb andb].
    rewrite andb_false_r.
    eexists. split; [reflexivity|]. repeat split.
Qed.

Lemma gate_output_converts_witness :
  let c := IntentValidator.mkIntent 0 "STEPS_FEATURE_CLICK_EVENT"
             "Click on button: Go" (Some "#go") IntentValidator.empty_step false in
  exists node,
    convert_intent_to_ast init (mkObj c "" "") = (Some node, init)
    /\ description node = "Click on button: Go"
    /\ selector node = Some "#go"
       /\ action_type node
          = _determine_action_type "Click on button: Go"
              "STEPS_FEATURE_CLICK_EVENT".
Proof.
  intros c.
  apply (gate_output_converts init (mkObj c "" "")).
  - repeat split; try reflexivity; try discriminate.
    intros _ _. exists "#go". split; [reflexivity | vm_compute; reflexivity].
  - vm_compute. discriminate.
  - right. reflexivity.
Defined.

End ConverterFacts.

(* ===================================================================== *)
(** ** The structure tests on the script (javascript_code_tester.py) *)
(* ===================================================================== *)

Section TesterFacts.
Import Py Re Ast JavaScriptCodeGenerator JavaScriptCodeTester.

Lemma startswith_nil (s : string) : startswith s "" = true.
Proof. now destruct s. Qed.

Lemma contains_char (c : ascii) (s : string) :
  contains (String c "") s = has (Ascii.eqb c) s.
Proof.
  induction s as [|b s IH]; [reflexivity|].
  cbn [contains has startswith]. now rewrite startswith_nil, andb_true_r, IH.
Qed.

Lemma count_sub_pair_none (a c : ascii) (s : string) :
  has (Ascii.eqb c) s = false -> count_sub (String a (String c "")) s = 0.
Proof.
  induction s as [|b s IH]; [reflexivity|].
  cbn [has]. rewrite orb_false_iff. intros [Hb Hs].
  cbn [count_sub nonempty andb startswith]. rewrite (IH Hs), Nat.add_0_r.
  destruct s as [|d s]; [now rewrite andb_false_r|].
  cbn [has] in Hs. apply orb_false_iff in Hs. destruct Hs as [Hd _].
  cbn [startswith]. now rewrite Hd, andb_false_r.
Qed.

Lemma check_lines_nil (lines : list string) :
  forall line_num, check_lines line_num lines = [].
Proof.
  induction lines as [|line rest IH]; intros line_num; [reflexivity|].
  cbn [check_lines].
  destruct (contains DQ line) eqn:C; cbn [orb]; [apply IH|].
  destruct (contains "\'" line); [apply IH|].
  unfold DQ in C. rewrite contains_char in C.
  rewrite (count_none "034" line C).
  unfold DQ. cbn [String.append]. rewrite (count_sub_pair_none "\" "034" line C).
  cbn. apply IH.
Qed.

(** X19. The quote test of the tester never reports anything.  A line with a
    double quote in it is passed over, and a line without one has no
    quote to count, so [_check_unescaped_quotes] returns the empty list
    for every text. *)
Theorem quote_check_never_fires (code : string) :
  _check_unescaped_quotes code = [].
Proof. unfold _check_unescaped_quotes. apply check_lines_nil. Qed.

Lemma startswith_app (a b : string) : startswith (a ++ b) a = true.
Proof.
  induction a as [|c a IH]; [apply startswith_nil|].
  cbn [String.append startswith]. now rewrite Ascii.eqb_refl, IH.
Qed.

Lemma contains_occurs (sub s : string) : occurs sub s -> contains sub s = true.
Proof.
  intros (a & b & ->). induction a as [|c a IH].
  - cbn [String.append]. destruct (sub ++ b) eqn:E; cbn [contains];
      rewrite <- E, startswith_app; reflexivity.
  - cbn [String.append contains]. rewrite IH. apply orb_true_r.
Qed.

Lemma piece_in_script (self : t) (safe_nodes : list PlaywrightAST)
    (base : string) (piece line : string) :
  occurs piece line -> In line (header ++ footer)%list ->
  contains piece (join NL (script_lines self safe_nodes base)) = true.
Proof.
  intros O I. apply contains_occurs. apply (occurs_trans _ line); [exact O|].
  apply occurs_join. unfold script_lines.
  rewrite !concat_cons. apply in_app_iff in I.
  destruct I as [I | I].
  - apply in_or_app. now left.
  - do 4 (apply in_or_app; right). apply in_or_app. now left.
Qed.

(** X20. A script of the emitter always passes the five substring tests at
    the head of [test_code], and the quote test reports nothing: the
    emitter returns for every input, and when what it returns is not
    empty, the errors of the tester on it are those of the bracket
    count, the try-catch count and the selector scan, in this order. *)
Theorem generated_script_test_errors (self : t) (ast_nodes : list PlaywrightAST)
    (intents : option (list IntentValidator.Intent)) (first_url : option string) :
  match generate_code_from_ast self ast_nodes intents first_url with
  | Returns (code, _) =>
      code = ""
      \/ Main.errors (test_code code)
         = (_check_syntax code ++ _check_unclosed_blocks code
            ++ _check_invalid_selectors code)%list
  | Raises => False
  end.
Proof.
  unfold generate_code_from_ast.
  destruct ast_nodes as [|n rest] eqn:En; [now left|].
  rewrite <- En. clear En n rest.
  destruct (_validate_all_nodes_before_codegen self ast_nodes) as [safe self1].
  destruct safe as [|s0 safe']; [now left|].
  set (safe := s0 :: safe').
  set (g := _analyze_selector_usage self1 safe).
  pose proof (base_url_never_raises first_url intents safe) as NR.
  destruct (base_url first_url intents safe) as [base|]; cbn [bind];
    [|contradiction].
  right. unfold test_code. cbn [Main.errors].
  unfold _check_unescaped_quotes. rewrite check_lines_nil, app_nil_r.
  unfold required_pieces. cbn [map List.concat].
  rewrite (piece_in_script g safe base "require('playwright')"
             "const { chromium } = require('playwright');");
    [| now exists "const { chromium } = ", ";" | cbn; tauto].
  rewrite (piece_in_script g safe base "async function"
             "async function runTests() {");
    [| now exists "", " runTests() {" | cbn; tauto].
  rewrite (piece_in_script g safe base "chromium.launch()"
             "    const browser = await chromium.launch();");
    [| now exists "    const browser = await ", ";" | cbn; tauto].
  rewrite (piece_in_script g safe base "newPage()"
             "    const page = await browser.newPage();");
    [| now exists "    const page = await browser.", ";" | cbn; tauto].
  rewrite (piece_in_script g safe base "browser.close()"
             "        await browser.close();");
    [| now exists "        await ", ";" | cbn; tauto].
  cbn [negb List.app]. now rewrite <- !app_assoc.
Qed.

End TesterFacts.

(* ===================================================================== *)
(** ** From the recording to the gate
       (steps_preprocessor.py, intent_generator.py) *)
(* ===================================================================== *)

Section ElementInfoFacts.
Import Py Re StepsPreprocessor IntentGenerator.

(** The attribute pattern behind the name and the equals sign. *)
Definition attr_body (t : string) : option string :=
  match t with
  | String q rest =>
      if is_quote q then
        let run := take_while (fun c => negb (is_quote c)) rest in
        match drop (String.length run) rest with
        | String q' _ => if nonempty run && is_quote q' then Some run else None
        | EmptyString => None
        end
      else None
  | EmptyString => None
  end.

Lemma drop_app (p t : string) : drop (String.length p) (p ++ t) = t.
Proof. induction p as [|c p IH]; [reflexivity | exact IH]. Qed.

Lemma length_app_one (name : string) :
  String.length (name ++ "=") = String.length name + 1.
Proof. induction name as [|c n IH]; [reflexivity | simpl; now rewrite IH]. Qed.

Lemma startswith_split (p s : string) :
  startswith s p = true -> s = p ++ drop (String.length p) s.
Proof.
  revert s. induction p as [|a p IH]; intros s H; [reflexivity|].
  destruct s as [|b s]; [discriminate|].
  cbn [startswith] in H. apply andb_true_iff in H. destruct H as [E H].
  apply Ascii.eqb_eq in E. subst b. cbn [String.append String.length drop].
  now rewrite <- (IH s H).
Qed.

Lemma attr_here_at (name t : string) :
  attr_here name ((name ++ "=") ++ t) = attr_body t.
Proof.
  unfold attr_here. rewrite startswith_app.
  rewrite <- length_app_one, drop_app. reflexivity.
Qed.

Lemma attr_here_inv (name s v : string) :
  attr_here name s = Some v ->
  exists t, s = (name ++ "=") ++ t /\ attr_body t = Some v.
Proof.
  unfold attr_here. destruct (startswith s (name ++ "=")) eqn:P; [|discriminate].
  intros H. exists (drop (String.length name + 1) s). split; [|exact H].
  rewrite <- length_app_one. now apply startswith_split.
Qed.

Lemma attr_search_suffix (name pre t : string) :
  attr_search name t <> None -> attr_search name (pre ++ t) <> None.
Proof.
  intros H. induction pre as [|c pre IH]; [exact H|].
  cbn [String.append attr_search].
  destruct (attr_here name (String c (pre ++ t))); [discriminate | exact IH].
Qed.

Lemma attr_body_nonempty (t v : string) : attr_body t = Some v -> v <> "".
Proof.
  unfold attr_body. destruct t as [|q rest]; [discriminate|].
  destruct (is_quote q); [|discriminate].
  destruct (drop _ rest); [discriminate|].
  destruct (nonempty (take_while _ rest)) eqn:N; [|discriminate].
  destruct (is_quote a); [|discriminate].
  intros [= <-]. intros E. now rewrite E in N.
Qed.

Lemma attr_search_nonempty (name s v : string) :
  attr_search name s = Some v -> v <> "".
Proof.
  induction s as [|c s IH]; cbn [attr_search].
  - destruct (attr_here name "") eqn:A; [|discriminate].
    intros [= <-]. apply attr_here_inv in A. destruct A as (t & _ & B).
    now apply attr_body_nonempty in B.
  - destruct (attr_here name (String c s)) eqn:A; [|exact IH].
    intros [= <-]. apply attr_here_inv in A. destruct A as (t & _ & B).
    now apply attr_body_nonempty in B.
Qed.

(** Where the markup has a data-testid attribute, the search for an id
    attribute succeeds as well: the name of the one ends in the name of
    the other. *)
Lemma testid_found_id_found (s v : string) :
  attr_search "data-testid" s = Some v -> attr_search "id" s <> None.
Proof.
  assert (K : forall u w, attr_here "data-testid" u = Some w ->
                          attr_search "id" u <> None).
  { intros u w A. apply attr_here_inv in A. destruct A as (t & -> & B).
    change (("data-testid" ++ "=") ++ t) with ("data-test" ++ (("id" ++ "=") ++ t)).
    apply attr_search_suffix.
    destruct (("id" ++ "=") ++ t) as [|c r] eqn:E; [discriminate E|].
    cbn [attr_search]. rewrite <- E, attr_here_at, B. discriminate. }
  induction s as [|c s IH]; cbn [attr_search].
  - destruct (attr_here "data-testid" "") eqn:A; [|discriminate].
    intros _. exact (K _ _ A).
  - destruct (attr_here "data-testid" (String c s)) eqn:A.
    + intros _. exact (K _ _ A).
    + intros H. specialize (IH H).
      destruct (attr_here "id" (String c s)); [discriminate | exact IH].
Qed.

(** The hints that [_normalize_action_event] takes from the element
    information. *)
Definition hints_of_info (info : ElementInfo) : ElementHints :=
  mkElementHints (info_id info) (info_class info) (info_name info)
    (info_test_id info) (info_aria_label info) (info_tag info).

(** X21. On the preprocessing path the data-testid branch of the selector
    policy is never reached.  Whenever [_extract_element_info] finds a
    data-testid it also finds an id (if need be inside the data-testid
    attribute itself), so the selector built from the hints is the id
    selector; and for no markup does the selector built from the hints
    begin with [[data-testid=]. *)
Theorem testid_selector_unreachable (element_html : string) :
  let info := _extract_element_info element_html in
  let built := _build_selector_from_hints (hints_of (hints_of_info info)) in
  (info_test_id info <> "" ->
   info_id info <> "" /\ built = "#" ++ info_id info)
  /\ startswith built "[data-testid=" = false.
Proof.
  cbv zeta.
  assert (T : forall v, v <> "" -> nonempty v = true)
    by (intros [|c v]; [contradiction | reflexivity]).
  assert (A : info_test_id (_extract_element_info element_html) <> "" ->
              info_id (_extract_element_info element_html) <> "").
  { unfold _extract_element_info.
    destruct (nonempty element_html); cbn [negb info_test_id info_id];
      [|contradiction].
    destruct (attr_search "data-testid" element_html) as [v|] eqn:Et;
      cbn [group_or]; [|contradiction].
    intros _. pose proof (testid_found_id_found _ _ Et) as F.
    destruct (attr_search "id" element_html) as [w|] eqn:Ei; [|contradiction].
    cbn [group_or]. now apply (attr_search_nonempty "id" element_html). }
  set (info := _extract_element_info element_html) in *.
  unfold _build_selector_from_hints, hints_of, hints_of_info.
  cbn [hint_id hint_name hint_class hint_test_id hint_aria_label truthy get
       eh_id eh_class eh_name eh_test_id eh_aria_label eh_tag].
  split.
  - intros N. specialize (A N). split; [exact A|]. now rewrite (T _ A).
  - destruct (nonempty (info_id info)) eqn:Ni; [reflexivity|].
    destruct (nonempty (info_name info)); [reflexivity|].
    assert (Nt : nonempty (info_test_id info) = false).
    { destruct (info_test_id info) eqn:E; [reflexivity|].
      assert (N : info_id info <> "") by (apply A; discriminate).
      now rewrite (T _ N) in Ni. }
    rewrite Nt.
    destruct (nonempty (info_class info)).
    + destruct (split_ws (info_class info)); [|reflexivity].
      now destruct (nonempty (info_aria_label info)).
    + now destruct (nonempty (info_aria_label info)).
Qed.

Lemma testid_selector_unreachable_witness :
  let html := "<button data-testid='save'>Save</button>" in
  info_id (_extract_element_info html) <> ""
  /\ _build_selector_from_hints
       (hints_of (hints_of_info (_extract_element_info html)))
     = "#" ++ info_id (_extract_element_info html).
Proof.
  intros html.
  apply (proj1 (testid_selector_unreachable html)).
  vm_compute. discriminate.
Defined.

End ElementInfoFacts.

Section GeneratedIntentFacts.
Import Py Re StepsPreprocessor IntentGenerator.

Lemma slice_head_nonempty (s : string) :
  s <> "" -> slice s 0 100 <> "".
Proof.
  destruct s as [|c s]; [contradiction|]. intros _.
  unfold slice, clamp.
  set (len := Z.of_nat (String.length (String c s))).
  assert (L : (1 <= len)%Z) by (unfold len; cbn [String.length]; lia).
  replace (0 <? 0)%Z with false by reflexivity.
  replace (100 <? 0)%Z with false by reflexivity.
  replace (Z.to_nat (Z.max 0 (Z.min len 0))) with 0 by lia.
  cbn [drop].
  destruct (Z.to_nat (Z.max 0 (Z.min len 100) - Z.max 0 (Z.min len 0)))
    as [|k] eqn:E; [lia|].
  discriminate.
Qed.

Lemma strip_head_nonblank (c : ascii) (rest : string) :
  isspace c = false -> strip (String c rest) <> "".
Proof.
  intros H. unfold strip. cbn [lstrip]. rewrite H.
  destruct (rstrip_keeps_head c rest H) as (u & ->). discriminate.
Qed.

Lemma intent_text_nonblank (action role identifier value : string) :
  intent_text action role identifier value <> ""
  /\ strip (intent_text action role identifier value) <> "".
Proof.
  unfold intent_text.
  repeat match goal with
         | |- context [if ?b then _ else _] => destruct b
         end;
    (split; [discriminate | now apply strip_head_nonblank]).
Qed.

(** X22. The texts that reach the gate from the preprocessing path are never
    empty.  [_extract_human_identifier] returns a string that is not
    empty, whatever the markup and the event data; and the intent text
    of [_generate_intent_from_preprocessed] is not blank for any
    preprocessed step, so the gate never drops such an intent for an
    empty text. *)
Theorem generated_texts_never_empty :
  (forall (element_html event_data : string) (element_info : ElementInfo),
      _extract_human_identifier element_html event_data element_info <> "")
  /\ (forall step : PreprocessedStep,
         let io := _generate_intent_from_preprocessed step in
         IntentValidator.io_intent io <> ""
         /\ strip (IntentValidator.io_intent io) <> "").
Proof.
  split.
  - intros h d info. unfold _extract_human_identifier.
    assert (M : (let inner :=
                   match inner_text_search h with
                   | Some group => strip group
                   | None => ""
                   end in
                 if nonempty inner then slice inner 0 100
                 else if nonempty (info_placeholder info)
                 then "[Input: " ++ info_placeholder info ++ "]"
                 else if nonempty (info_aria_label info)
                 then "[" ++ info_aria_label info ++ "]"
                 else if nonempty (info_id info)
                 then "[Element with ID: " ++ info_id info ++ "]"
                 else if nonempty (info_name info)
                 then "[Named: " ++ info_name info ++ "]"
                 else "[" ++ info_tag info ++ "]") <> "").
    { cbv zeta.
      destruct (nonempty (match inner_text_search h with
                          | Some group => strip group
                          | None => ""
                          end)) eqn:N.
      - apply slice_head_nonempty. intros E. now rewrite E in N.
      - repeat match goal with
               | |- (if ?b then _ else _) <> _ => destruct b
               end; discriminate. }
    destruct (nonempty d && nonempty (strip d)); [|exact M].
    cbv zeta.
    destruct (slice (strip d) 0 100) eqn:E; cbn [String.length Nat.ltb Nat.leb];
      [exact M | discriminate].
  - intros step. cbv zeta. unfold _generate_intent_from_preprocessed.
    cbn [IntentValidator.io_intent]. apply intent_text_nonblank.
Qed.

End GeneratedIntentFacts.

Section PreprocessFacts.
Import Py StepsPreprocessor.
Local Open Scope outcome_scope.

(** The step is classified as a context event. *)
Definition is_context_raw (raw : RawStep) : bool :=
  match _classify_event raw with
  | Returns (CONTEXT, _) => true
  | _ => false
  end.

(** A value on which the preprocessor calls a method of str is null. *)
Definition has_null (raw : RawStep) : Prop :=
  eventType raw = None \/ eventElement raw = None.

Lemma strip_tracking_never_raises (u : string) :
  _strip_tracking_params u <> Raises.
Proof.
  unfold _strip_tracking_params.
  destruct (nonempty u); cbn [negb]; [apply try_except_caught | discriminate].
Qed.

Lemma strip_tracking_returns (u : option string) :
  exists clean, strip_tracking u = Returns clean.
Proof.
  destruct u as [u|]; [|now exists ""]. cbn [strip_tracking].
  pose proof (strip_tracking_never_raises u) as N.
  destruct (_strip_tracking_params u) as [clean|];
    [now exists clean | contradiction].
Qed.

(** The normalization of a context event returns, whatever the step. *)
Lemma normalize_context_returns (step : RawStep) (event_type : string) (idx : nat) :
  exists p,
    _normalize_context_event step event_type idx = Returns p
    /\ step_index p = idx
    /\ is_context_event p = true
    /\ normalized_action p
       = fst (match dict_get context_map event_type with
              | Some action_desc => action_desc
              | None => ("wait", "Context event")
              end)
    /\ element_role p = "context_event"
    /\ human_identifier p
       = snd (match dict_get context_map event_type with
              | Some action_desc => action_desc
              | None => ("wait", "Context event")
              end)
    /\ value p = Some ""
    /\ element_hints p = mkElementHints "" "" "" "" "" "context"
    /\ original_event_type p = event_type
    /\ context_type p = event_type.
Proof.
  unfold _normalize_context_event.
  destruct (match dict_get context_map event_type with
            | Some action_desc => action_desc
            | None => ("wait", "Context event")
            end) as [action description].
  destruct (strip_tracking_returns (url step)) as (clean & ->).
  cbn [bind]. eexists. split; [reflexivity|]. repeat split.
Qed.

Lemma determine_raises (event_type : string) (event_element event_data : option string) :
  _determine_normalized_action event_type event_element event_data = Raises ->
  event_element = None.
Proof.
  destruct event_element as [e|]; [|reflexivity].
  unfold _determine_normalized_action. cbn [method bind].
  repeat match goal with
         | |- (if ?b then _ else _) = _ -> _ => destruct b
         end; discriminate.
Qed.

(** What one turn of the loop does to the preprocessor when it appends
    the normalized step [p] of the raw step. *)
Definition turn_appends (self self' : t) (idx : nat) (step : RawStep)
    (p : PreprocessedStep) : Prop :=
  raw_steps self' = raw_steps self
  /\ preprocessed_steps self' = (preprocessed_steps self ++ [p])%list
  /\ step_index p = idx
  /\ is_context_event p = is_context_raw step
  /\ context_events self'
     = (context_events self ++ filter is_context_event [p])%list
  /\ filtered_count self'
     = filtered_count self + List.length (filter is_context_event [p])
  /\ action_count self' + List.length (filter is_context_event [p])
     = action_count self + 1.

(** One turn of the loop: it appends the normalized step of the raw
    step, or it leaves the preprocessor as it is, which happens only to
    an action step with no normalized action; it raises only on a null
    value. *)
Lemma preprocess_step_spec (self : t) (idx : nat) (step : RawStep) :
  match preprocess_step self idx step with
  | Returns self' =>
      eventType step <> None
      /\ ((exists p, turn_appends self self' idx step p)
          \/ (self' = self /\ is_context_raw step = false))
  | Raises => has_null step
  end.
Proof.
  unfold preprocess_step, turn_appends, is_context_raw, has_null.
  unfold _classify_event.
  destruct (eventType step) as [et|] eqn:Et; cbn [method bind]; [|now left].
  set (event_type := strip et).
  destruct (if in_list event_type CONTEXT_EVENT_TYPES
            then (CONTEXT, event_type)
            else if in_list event_type ACTION_EVENT_TYPES
            then (ACTION, event_type)
            else if truthy (eventElement step) || truthy (eventData step)
            then (ACTION, event_type)
            else (CONTEXT, event_type)) as [[|] ty].
  - destruct (normalize_context_returns step ty idx)
      as (p & -> & Pi & Pc & _).
    cbn [bind]. split; [discriminate|]. left. exists p. unfold append.
    cbn [raw_steps preprocessed_steps context_events filtered_count
         action_count filter].
    rewrite Pc, Pi. cbn [List.length]. repeat split; lia.
  - unfold _normalize_action_event. rewrite Et.
    destruct (_determine_normalized_action et (eventElement step)
                (eventData step)) as [[action|]|] eqn:D; cbn [bind].
    + destruct (eventElement step) as [el|] eqn:El.
      * cbn [human_identifier_of element_role_of method bind].
        destruct (strip_tracking_returns (url step)) as (clean & ->).
        cbn [bind]. split; [discriminate|]. left. eexists. unfold append.
        cbn [raw_steps preprocessed_steps context_events filtered_count
             action_count step_index is_context_event filter List.length].
        repeat split; try reflexivity;
          cbn [filter is_context_event List.length List.app];
          try lia; now rewrite app_nil_r.
      * cbn [human_identifier_of element_role_of method bind].
        repeat match goal with
               | |- context [if ?b then _ else _] => destruct b
               end; cbn [bind]; right; reflexivity.
    + split; [discriminate|]. right. split; reflexivity.
    + right. now apply determine_raises in D.
Qed.

(** The invariant of the loop of [preprocess], for what it appends. *)
Definition loop_appends (self self' : t) (idx : nat) (steps : list RawStep)
    (added : list PreprocessedStep) : Prop :=
  raw_steps self' = raw_steps self
  /\ preprocessed_steps self' = (preprocessed_steps self ++ added)%list
  /\ context_events self'
     = (context_events self ++ filter is_context_event added)%list
  /\ filtered_count self'
     = filtered_count self + List.length (filter is_context_event added)
  /\ action_count self' + List.length (filter is_context_event added)
     = action_count self + List.length added
  /\ StronglySorted lt (map step_index added)
  /\ Forall (fun p =>
               idx <= step_index p < idx + List.length steps
               /\ exists raw,
                    nth_error steps (step_index p - idx) = Some raw
                    /\ is_context_event p = is_context_raw raw)
       added
  /\ List.length (filter is_context_event added)
     = List.length (filter is_context_raw steps)
  /\ Forall (fun raw => eventType raw <> None) steps.

Lemma preprocess_loop_spec (steps : list RawStep) :
  forall (self : t) (idx : nat),
    match preprocess_loop self idx steps with
    | Returns self' => exists added, loop_appends self self' idx steps added
    | Raises => exists raw, In raw steps /\ has_null raw
    end.
Proof.
  induction steps as [|step rest IH]; intros self idx.
  - cbn [preprocess_loop]. exists []. unfold loop_appends.
    cbn [filter List.length map]. rewrite !app_nil_r.
    repeat split; try lia; constructor.
  - cbn [preprocess_loop].
    pose proof (preprocess_step_spec self idx step) as T.
    destruct (preprocess_step self idx step) as [self1|];
      [|exists step; split; [now left | exact T]].
    cbn [bind]. specialize (IH self1 (S idx)).
    destruct (preprocess_loop self1 (S idx) rest) as [self'|].
    2: { destruct IH as (raw & I & H). exists raw. split; [now right | exact H]. }
    destruct T as (Ty & T).
    destruct IH as (added & A0 & A1 & A2 & A3 & A4 & A5 & A6 & A7 & A8).
    assert (Shift : Forall (fun p =>
                idx <= step_index p < idx + List.length (step :: rest)
                /\ exists raw,
                     nth_error (step :: rest) (step_index p - idx) = Some raw
                     /\ is_context_event p = is_context_raw raw)
              added).
    { eapply Forall_impl; [|exact A6]. cbv beta.
      intros p ([B1 B2] & raw & E & C). cbn [List.length]. split; [lia|].
      exists raw. split; [|exact C].
      replace (step_index p - idx) with (S (step_index p - S idx)) by lia.
      exact E. }
    assert (Ty8 : Forall (fun raw => eventType raw <> None) (step :: rest))
      by (now constructor).
    destruct T as [(p & T0 & T1 & T2 & T3 & T4 & T5 & T6) | (-> & T)].
    + exists ([p] ++ added)%list. unfold loop_appends.
      rewrite filter_app, !length_app, map_app.
      rewrite A0, A1, A2, A3, T0, T1, T4, T5, <- !app_assoc.
      assert (Fp : List.length (filter is_context_event [p])
                   = List.length (filter is_context_raw [step])).
      { cbn [filter]. rewrite T3. now destruct (is_context_raw step). }
      change (filter is_context_raw (step :: rest))
        with (filter is_context_raw ([step] ++ rest)).
      rewrite (filter_app is_context_raw [step] rest), length_app.
      set (fp := filter is_context_event [p]) in *.
      set (fs := filter is_context_raw [step]) in *.
      assert (L1 : List.length [p] = 1) by reflexivity.
      repeat split; try reflexivity; try lia; try exact Ty8.
      * cbn [map List.app]. constructor; [exact A5|].
        apply Forall_map. eapply Forall_impl; [|exact A6]. cbv beta.
        intros q ([B1 B2] & _). lia.
      * cbn [List.app]. constructor; [|exact Shift].
        cbn [List.length]. split; [lia|]. exists step.
        rewrite T2, Nat.sub_diag. split; [reflexivity | exact T3].
    + exists added. unfold loop_appends. cbn [filter]. rewrite T.
      repeat split; try assumption.
Qed.

(** The recording that [preprocess] works on: the steps given, else the
    steps that the preprocessor holds. *)
Definition recording (self : t) (steps : option (list RawStep)) : list RawStep :=
  match steps with
  | Some steps => steps
  | None => raw_steps self
  end.

(** X23. The account of [preprocess], for a recording whose values under
    the keys read are strings or null.  It raises only if in some step
    the event type or the element is null, and it returns only if no
    event type is null.  When it returns, [raw_steps] holds the
    recording; the steps returned carry the positions of the raw steps
    they were made from, in increasing order; a step is marked as a
    context event exactly when its raw step is classified as one; no
    context event is left out (only an action event for which no
    normalized action is found is); on a recording that is not empty the
    two counters add up to the number of steps returned; and on the
    empty recording nothing is returned and the results of an earlier
    run stay in the preprocessor. *)
Theorem preprocess_account (self : t) (steps : option (list RawStep)) :
  match preprocess self steps with
  | Returns (out, self') =>
      raw_steps self' = recording self steps
      /\ Forall (fun raw => eventType raw <> None) (recording self steps)
      /\ StronglySorted lt (map step_index out)
      /\ Forall (fun p =>
                   exists raw,
                     nth_error (recording self steps) (step_index p) = Some raw
                     /\ is_context_event p = is_context_raw raw)
           out
      /\ List.length (filter is_context_event out)
         = List.length (filter is_context_raw (recording self steps))
      /\ (recording self steps <> [] ->
          preprocessed_steps self' = out
          /\ context_events self' = filter is_context_event out
          /\ filtered_count self' + action_count self' = List.length out)
      /\ (recording self steps = [] ->
          out = []
          /\ preprocessed_steps self' = preprocessed_steps self
          /\ context_events self' = context_events self
          /\ filtered_count self' = filtered_count self
          /\ action_count self' = action_count self)
  | Raises => exists raw, In raw (recording self steps) /\ has_null raw
  end.
Proof.
  unfold preprocess.
  set (self0 := match steps with
                | Some steps0 =>
                    mkPreprocessor steps0 (preprocessed_steps self)
                      (context_events self) (filtered_count self)
                      (action_count self)
                | None => self
                end).
  assert (R : raw_steps self0 = recording self steps)
    by (unfold self0, recording; now destruct steps).
  assert (K : preprocessed_steps self0 = preprocessed_steps self
              /\ context_events self0 = context_events self
              /\ filtered_count self0 = filtered_count self
              /\ action_count self0 = action_count self)
    by (unfold self0; now destruct steps).
  rewrite <- R. clearbody self0.
  destruct (raw_steps self0) as [|s0 rest] eqn:Es.
  - split; [exact Es|]. split; [constructor|]. split; [constructor|].
    split; [constructor|]. split; [reflexivity|].
    split; [intros N; now contradiction N|].
    intros _. split; [reflexivity | exact K].
  - rewrite <- Es.
    pose proof (preprocess_loop_spec (raw_steps self0)
                  (mkPreprocessor (raw_steps self0) [] [] 0 0) 0) as L.
    destruct (preprocess_loop (mkPreprocessor (raw_steps self0) [] [] 0 0) 0
                (raw_steps self0)) as [self'|]; [|exact L].
    cbn [bind]. destruct L as (added & A0 & A1 & A2 & A3 & A4 & A5 & A6 & A7 & A8).
    cbn [raw_steps preprocessed_steps context_events filtered_count action_count
         List.app] in *.
    rewrite A1. repeat split; try assumption.
    + eapply Forall_impl; [|exact A6]. cbv beta.
      intros p (_ & raw & E & C). exists raw.
      now rewrite Nat.sub_0_r in E.
    + lia.
    + rewrite Es in H; discriminate H.
    + rewrite Es in H; discriminate H.
    + rewrite Es in H; discriminate H.
    + rewrite Es in H; discriminate H.
    + rewrite Es in H; discriminate H.
Qed.

Lemma preprocess_account_witness :
  let steps := [ mkRawStep (Some "STEPS_FEATURE_CLICK_EVENT")
                   (Some "<button id='go'>Go</button>") (Some "")
                   (Some "https://x.test/") None (Some "") ] in
  match preprocess init (Some steps) with
  | Returns (out, self') =>
      preprocessed_steps self' = out
      /\ context_events self' = filter is_context_event out
      /\ filtered_count self' + action_count self' = List.length out
  | Raises => False
  end.
Proof.
  intros steps.
  pose proof (preprocess_account init (Some steps)) as H.
  destruct (preprocess init (Some steps)) as [[out self']|] eqn:E.
  - apply (proj1 (proj2 (proj2 (proj2 (proj2 (proj2 H)))))). discriminate.
  - vm_compute in E. discriminate E.
Defined.

End PreprocessFacts.

(* ===================================================================== *)
(** ** A recorded event on its way to the script *)
(* ===================================================================== *)

Section EndToEndFacts.
Import Py.

(** The intent of the gate as the converter reads it, for an intent made
    from the preprocessed step [p]: the two keys that the converter
    looks up in [original_step] are those of [p], which has no
    [eventData]. *)
Definition converter_input (p : StepsPreprocessor.PreprocessedStep)
    (c : IntentValidator.Intent) : ASTConverter.IntentObj :=
  ASTConverter.mkObj c (StepsPreprocessor.context_type p) "".

Lemma str_or_strip_nonblank (s d : string) :
  strip s <> "" -> str_or (strip s) d = strip s.
Proof. unfold str_or. destruct (strip s); [contradiction | reflexivity]. Qed.

Lemma context_action (event_type : string) :
  let action :=
    fst (match dict_get StepsPreprocessor.context_map event_type with
         | Some action_desc => action_desc
         | None => ("wait", "Context event")
         end) in
  String.eqb (lower action) "navigate"
  = String.eqb event_type "STEPS_FEATURE_NAVIGATE_EVENT".
Proof.
  cbv zeta. unfold StepsPreprocessor.context_map. cbn [dict_get].
  rewrite (String.eqb_sym event_type).
  repeat match goal with
         | |- context [String.eqb ?a event_type] =>
             destruct (String.eqb_spec a event_type) as [<- | ?];
             [reflexivity|]
         end.
  reflexivity.
Qed.

(** X24. A context event from the recording to its node.  The
    normalization of a context event returns for every raw step, also
    when the URL or the step id is null; the intent made from the
    normalized step is accepted by the gate whatever its position, as a
    context event with the empty selector and nothing recorded; and if
    the event type is not blank, the converter turns the accepted intent
    into a node without a selector and records nothing: a navigate node
    when the event is the navigation event (or its type reads
    navigation, in any case), else a wait node of 2000 ms, which the
    emitter never leaves out. *)
Theorem context_event_reaches_converter (raw : StepsPreprocessor.RawStep)
    (event_type : string) (idx n : nat)
    (v : IntentValidator.t) (conv : ASTConverter.t) :
  exists p c,
    StepsPreprocessor._normalize_context_event raw event_type idx = Returns p
    /\ IntentValidator.validate_single_intent v
         (Some (IntentGenerator._generate_intent_from_preprocessed p)) n
       = ((true, Some c), IntentValidator.init)
    /\ IntentValidator.ctx_event c = true
    /\ IntentValidator.selector c = Some ""
    /\ IntentValidator.event_type c = event_type
    /\ (strip event_type <> "" ->
        exists node,
          ASTConverter.convert_intent_to_ast conv (converter_input p c)
          = (Some node, conv)
          /\ Ast.selector node = None
          /\ Ast.action_type node
             = (if String.eqb event_type "STEPS_FEATURE_NAVIGATE_EVENT"
                   || String.eqb (lower event_type) "navigation"
                then Ast.NAVIGATE else Ast.WAIT)
          /\ (Ast.action_type node = Ast.WAIT ->
              Ast.wait_time node = 2000%Z /\ node_ok node = true)).
Proof.
  pose proof (context_action event_type) as CA. cbv zeta in CA.
  destruct (normalize_context_returns raw event_type idx)
    as (p & E & _ & Pc & Pa & Pr & Ph & Pv & _ & Po & Pt).
  exists p.
  destruct (match dict_get StepsPreprocessor.context_map event_type with
            | Some action_desc => action_desc
            | None => ("wait", "Context event")
            end) as [action description].
  cbn [fst snd] in *.
  unfold IntentValidator.validate_single_intent,
    IntentGenerator._generate_intent_from_preprocessed,
    IntentGenerator.as_original_step.
  cbn [IntentValidator.io_original_step IntentValidator.is_context_event
       IntentValidator.io_intent IntentValidator.io_event_type].
  rewrite Pc, Pa, Pr, Ph, Pv, Po. cbn [orb IntentGenerator.fstr].
  destruct (intent_text_nonblank action "context_event" description "")
    as (Ni & Nb).
  rewrite (str_or_strip_nonblank _ _ Nb).
  eexists. split; [exact E|]. split; [reflexivity|].
  cbn [IntentValidator.ctx_event IntentValidator.selector
       IntentValidator.event_type].
  repeat split.
  intros Ev.
  unfold ASTConverter.convert_intent_to_ast, ASTConverter._is_intent_safe_for_ast,
    converter_input.
  cbn [ASTConverter.cleaned ASTConverter.context_type
       IntentValidator.intent IntentValidator.event_type
       IntentValidator.selector IntentValidator.ctx_event
       IntentValidator.original_step IntentValidator.normalized_action
       nonempty].
  rewrite Pt, strip_idempotent.
  assert (T : forall s, s <> "" -> nonempty s = true)
    by (intros [|a s]; [contradiction | reflexivity]).
  rewrite (T _ Nb), (T _ Ev). cbn [negb].
  rewrite CA.
  destruct (String.eqb event_type "STEPS_FEATURE_NAVIGATE_EVENT"
            || String.eqb (lower event_type) "navigation").
  - eexists. split; [reflexivity|]. cbn [Ast.selector Ast.action_type].
    repeat split; discriminate.
  - eexists. split; [reflexivity|].
    cbn [Ast.selector Ast.action_type Ast.wait_time].
    repeat split.
Qed.

Lemma context_event_reaches_converter_witness :
  let raw := StepsPreprocessor.mkRawStep (Some "STEPS_FEATURE_TAB_VISIBLE_EVENT")
               (Some "") (Some "") None None (Some "") in
  exists p c,
    StepsPreprocessor._normalize_context_event raw
      "STEPS_FEATURE_TAB_VISIBLE_EVENT" 3
    = Returns p
    /\ IntentValidator.validate_single_intent IntentValidator.init
         (Some (IntentGenerator._generate_intent_from_preprocessed p)) 0
       = ((true, Some c), IntentValidator.init)
    /\ exists node,
         ASTConverter.convert_intent_to_ast ASTConverter.init
           (converter_input p c)
         = (Some node, ASTConverter.init)
         /\ Ast.action_type node = Ast.WAIT
         /\ Ast.wait_time node = 2000%Z.
Proof.
  intros raw.
  destruct (context_event_reaches_converter raw
              "STEPS_FEATURE_TAB_VISIBLE_EVENT" 3 0
              IntentValidator.init ASTConverter.init)
    as (p & c & E & V & _ & _ & _ & K).
  exists p, c. split; [exact E|]. split; [exact V|].
  destruct K as (node & C & _ & A & W); [vm_compute; discriminate|].
  exists node. split; [exact C|].
  assert (A' : Ast.action_type node = Ast.WAIT) by exact A.
  split; [exact A' | exact (proj1 (W A'))].
Defined.

(** X25. An action without a usable hint never reaches the script.  The
    selector of an intent made from a preprocessed step comes from the
    hints alone, since the step carries no markup for the gate to fall
    back on; so when the hints give no selector (the tag is never used)
    and the event type requires one, the gate drops the step with a
    warning, and the reason recorded for it is the placeholder. *)
Theorem unhinted_action_is_dropped (p : StepsPreprocessor.PreprocessedStep)
    (st : IntentValidator.LoopState) (idx : nat) :
  StepsPreprocessor.is_context_event p = false ->
  StepsPreprocessor.normalized_action p <> "wait" ->
  IntentGenerator._build_selector_from_hints
    (IntentGenerator.hints_of (StepsPreprocessor.element_hints p)) = "" ->
  IntentValidator._action_requires_selector
    (StepsPreprocessor.original_event_type p) = true ->
  let io := Some (IntentGenerator._generate_intent_from_preprocessed p) in
  IntentValidator.validate_single_intent (IntentValidator.loop_self st) io idx
  = ((false, None),
     IntentValidator.mkValidator []
       [ "Step " ++ str_of_nat idx ++ ": Empty selector for "
           ++ StepsPreprocessor.original_event_type p ++ ". Skipping step." ])
  /\ IntentValidator.cleaned_intents (IntentValidator.validate_step st idx io)
     = IntentValidator.cleaned_intents st
  /\ IntentValidator.removed_steps (IntentValidator.validate_step st idx io)
     = (IntentValidator.removed_steps st ++ [(idx, "Unknown error")])%list.
Proof.
  intros Cx Nw Sel Req. cbv zeta.
  assert (V : IntentValidator.validate_single_intent
                (IntentValidator.loop_self st)
                (Some (IntentGenerator._generate_intent_from_preprocessed p)) idx
              = ((false, None),
                 IntentValidator.mkValidator []
                   [ "Step " ++ str_of_nat idx ++ ": Empty selector for "
                       ++ StepsPreprocessor.original_event_type p
                       ++ ". Skipping step." ])).
  { unfold IntentValidator.validate_single_intent,
      IntentGenerator._generate_intent_from_preprocessed,
      IntentGenerator.as_original_step.
    cbn [IntentValidator.io_original_step IntentValidator.is_context_event
         IntentValidator.normalized_action IntentValidator.io_intent
         IntentValidator.io_event_type IntentValidator.io_selector].
    rewrite Cx, Sel. cbn [orb].
    destruct (String.eqb_spec (StepsPreprocessor.normalized_action p) "wait")
      as [E|_]; [contradiction|].
    destruct (intent_text_nonblank (StepsPreprocessor.normalized_action p)
                (StepsPreprocessor.element_role p)
                (StepsPreprocessor.human_identifier p)
                (IntentGenerator.fstr (StepsPreprocessor.value p))) as (Ni & Nb).
    assert (T : forall s, s <> "" -> nonempty s = true)
      by (intros [|a s]; [contradiction | reflexivity]).
    rewrite (T _ Ni), (T _ Nb). cbn [negb orb truthy nonempty].
    rewrite Req. reflexivity. }
  split; [exact V|].
  unfold IntentValidator.validate_step. rewrite V.
  split; reflexivity.
Qed.

Lemma unhinted_action_is_dropped_witness :
  let p := StepsPreprocessor.mkPre 0 "click" "button" "Go" "visible" true
             (StepsPreprocessor.mkElementHints "" "" "" "" "" "button")
             (Some "") "https://x.test/" "STEPS_FEATURE_CLICK_EVENT" (Some "")
             false "" in
  let io := Some (IntentGenerator._generate_intent_from_preprocessed p) in
  IntentValidator.validate_single_intent IntentValidator.init io 0
  = ((false, None),
     IntentValidator.mkValidator []
       [ "Step " ++ str_of_nat 0 ++ ": Empty selector for "
           ++ "STEPS_FEATURE_CLICK_EVENT" ++ ". Skipping step." ])
  /\ IntentValidator.cleaned_intents
       (IntentValidator.validate_step
          (IntentValidator.mkLoop IntentValidator.init [] []) 0 io)
     = []
  /\ IntentValidator.removed_steps
       (IntentValidator.validate_step
          (IntentValidator.mkLoop IntentValidator.init [] []) 0 io)
     = [(0, "Unknown error")].
Proof.
  intros p io.
  apply (unhinted_action_is_dropped p
           (IntentValidator.mkLoop IntentValidator.init [] []) 0);
    [reflexivity | discriminate | reflexivity | reflexivity].
Defined.

End EndToEndFacts.

(* ===================================================================== *)
(** ** The tracking filter (steps_preprocessor.py) *)
(* ===================================================================== *)

Section TrackingFilterFacts.
Import Py Urllib StepsPreprocessor.

(** The keys of a dict. *)
Definition keys {V : Type} (d : qdict V) : list ustr := map fst d.

Lemma ustr_eqb_spec (a b : ustr) : reflect (a = b) (ustr_eqb a b).
Proof.
  revert b. induction a as [|x a IH]; intros [|y b]; cbn [ustr_eqb];
    try (constructor; congruence).
  destruct (N.eqb_spec x y) as [->|N]; cbn [andb].
  - destruct (IH b) as [->|N]; constructor; congruence.
  - constructor. congruence.
Qed.

Lemma qdict_get_none_notin {V : Type} (d : qdict V) (k : ustr) :
  qdict_get d k = None <-> ~ In k (keys d).
Proof.
  induction d as [|[k' v] d IH]; cbn [qdict_get keys map fst In].
  - split; [intros _ [] | reflexivity].
  - destruct (ustr_eqb_spec k' k) as [->|N].
    + split; [discriminate | intros H; exfalso; apply H; now left].
    + rewrite IH. unfold keys. tauto.
Qed.

Lemma qdict_set_fresh {V : Type} (d : qdict V) (k : ustr) (v : V) :
  ~ In k (keys d) -> qdict_set d k v = (d ++ [(k, v)])%list.
Proof.
  induction d as [|[k' v'] d IH]; intros H; [reflexivity|].
  cbn [qdict_set]. cbn [keys map fst In] in H.
  destruct (ustr_eqb_spec k' k) as [->|N]; [exfalso; apply H; now left|].
  cbn [List.app]. rewrite IH; [reflexivity|]. unfold keys. tauto.
Qed.

Lemma qdict_set_keys {V : Type} (d : qdict V) (k : ustr) (v : V) :
  keys (qdict_set d k v) = if existsb (ustr_eqb k) (keys d)
                           then keys d else (keys d ++ [k])%list.
Proof.
  induction d as [|[k' v'] d IH]; [reflexivity|].
  cbn [qdict_set keys map fst existsb].
  destruct (ustr_eqb_spec k' k) as [->|N].
  - now destruct (ustr_eqb_spec k k).
  - destruct (ustr_eqb_spec k k') as [E|_]; [now symmetry in E|].
    cbn [orb map fst]. fold (keys (qdict_set d k v)). rewrite IH.
    fold (keys d). now destruct (existsb (ustr_eqb k) (keys d)).
Qed.

Lemma qdict_set_nodup {V : Type} (d : qdict V) (k : ustr) (v : V) :
  NoDup (keys d) -> NoDup (keys (qdict_set d k v)).
Proof.
  intros H. rewrite qdict_set_keys.
  destruct (existsb (ustr_eqb k) (keys d)) eqn:E; [exact H|].
  apply NoDup_app; [exact H | constructor; [intros [] | constructor] |].
  intros x Hx [Ex | []]. subst x.
  assert (T : existsb (ustr_eqb k) (keys d) = true).
  { apply existsb_exists. exists k. split; [exact Hx|].
    now destruct (ustr_eqb_spec k k). }
  congruence.
Qed.

(** [parse_qsl] and [parse_qs] return for every query. *)
Lemma parse_qsl_returns (qs : string) : exists pairs, parse_qsl qs = Returns pairs.
Proof.
  unfold parse_qsl. generalize (if nonempty qs then split_all "&" qs else []).
  induction l as [|f rest (r & IH)]; [now exists []|].
  cbn [parse_fields]. rewrite IH.
  unfold parse_field. destruct (nonempty f); cbn [negb bind]; [|now eexists].
  destruct (split_once "=" f) as [n [v|]]; [|now eexists].
  destruct (0 <? String.length v); now eexists.
Qed.

(** The keys of the dict that [parse_qs] returns are distinct. *)
Lemma parse_qs_nodup (qs : string) :
  exists params, parse_qs qs = Returns params /\ NoDup (keys params).
Proof.
  unfold parse_qs. destruct (parse_qsl_returns qs) as (pairs & ->). cbn [bind].
  eexists. split; [reflexivity|].
  assert (G : forall (acc : qdict (list ustr)),
             NoDup (keys acc) ->
             NoDup (keys (fold_left
                            (fun parsed_result '(name, value) =>
                               match qdict_get parsed_result name with
                               | Some l => qdict_set parsed_result name (append l value)
                               | None => qdict_set parsed_result name [value]
                               end)
                            pairs acc))).
  { induction pairs as [|[n v] pairs IH]; intros acc H; [exact H|].
    cbn [fold_left]. apply IH.
    destruct (qdict_get acc n); now apply qdict_set_nodup. }
  apply G. constructor.
Qed.

Definition kept_param (kv : ustr * list ustr) : bool :=
  negb (is_tracking_key (fst kv)).

Lemma filter_params_fold (params : qdict (list ustr)) :
  forall acc : qdict (list ustr),
    NoDup (keys acc ++ keys params) ->
    fold_left
      (fun filtered_params '(key, value) =>
         if negb (is_tracking_key key)
         then qdict_set filtered_params key value
         else filtered_params)
      params acc
    = (acc ++ filter kept_param params)%list.
Proof.
  induction params as [|[k v] params IH]; intros acc H.
  - cbn. now rewrite app_nil_r.
  - cbn [fold_left filter].
    change (kept_param (k, v)) with (negb (is_tracking_key k)).
    cbn [keys map fst] in H. fold (keys params) in H.
    assert (Hk : ~ In k (keys acc)).
    { intros I. apply NoDup_remove_2 in H. apply H.
      apply in_or_app. now left. }
    assert (H' : NoDup (keys acc ++ keys params))
      by (now apply NoDup_remove_1 in H).
    destruct (is_tracking_key k); cbn [negb].
    + now apply IH.
    + rewrite (qdict_set_fresh acc k v Hk). rewrite IH.
      * now rewrite <- app_assoc.
      * unfold keys in *. rewrite map_app. cbn [map fst].
        rewrite <- app_assoc. cbn [List.app].
        exact H.
Qed.

Lemma ustartswith_in (key entry : ustr) (x : N) :
  ustartswith key entry = true -> In x entry -> In x key.
Proof.
  revert key. induction entry as [|a entry IH]; intros key S I; [destruct I|].
  destruct key as [|b key]; [discriminate|].
  cbn [ustartswith] in S. apply andb_true_iff in S. destruct S as [E S].
  apply N.eqb_eq in E. subst b.
  destruct I as [<- | I]; [now left | right; now apply IH].
Qed.

(** X26. The filter of [_strip_tracking_params], on what [parse_qs] gives
    it (which returns for every query): the parameters that stay are
    those whose key begins with no entry of the denylist, in their order
    and with their values.  Six entries of the denylist end in an equals
    sign, so for a key that has no equals sign (code point 61) in it
    only the other six count. *)
Theorem tracking_filter_spec (qs : string) :
  match parse_qs qs with
  | Returns params => filter_params params = filter kept_param params
  | Raises => False
  end
  /\ (forall key : ustr,
         ~ In 61%N key ->
         is_tracking_key key
         = existsb (fun entry => ustartswith key (of_string entry))
             [ "utm_"; "gad"; "adgrp"; "hvp"; "hvt"; "hvr" ]).
Proof.
  split.
  - destruct (parse_qs_nodup qs) as (params & -> & N).
    unfold filter_params. now rewrite (filter_params_fold params []).
  - intros key H.
    assert (Z : forall entry : string,
               In 61%N (of_string entry) ->
               ustartswith key (of_string entry) = false).
    { intros entry He. apply not_true_is_false. intros S.
      apply H. exact (ustartswith_in _ _ _ S He). }
    unfold is_tracking_key, tracking_patterns. cbn [existsb].
    rewrite (Z "ref="), (Z "tag="), (Z "crid="), (Z "sprefix="), (Z "rps="),
      (Z "lpg=") by (vm_compute; tauto).
    cbn [orb]. now rewrite !orb_false_r.
Qed.

End TrackingFilterFacts.

(* ===================================================================== *)
(** ** The action types of the converter and the way of a hinted action *)
(* ===================================================================== *)

Section ActionTypeFacts.
Import Py Ast ASTConverter.

Lemma by_keywords_range (intent_lower event_lower : string) :
  let a := by_keywords intent_lower event_lower in
  a <> KEYBOARD /\ a <> SCREENSHOT
  /\ (a = PRESS -> contains "press" intent_lower = true).
Proof.
  cbv zeta. unfold by_keywords.
  repeat match goal with
         | |- context [if ?b then _ else _] =>
             let E := fresh "E" in destruct b eqn:E
         end;
    repeat split; try discriminate; auto.
Qed.

Lemma determine_action_type_range (intent event_type : string) :
  let a := _determine_action_type intent event_type in
  a <> KEYBOARD /\ a <> SCREENSHOT
  /\ (a = PRESS -> contains "press" (lower intent) = true).
Proof.
  cbv zeta. unfold _determine_action_type.
  destruct (action_field (lower intent)) as [w|]; [|apply by_keywords_range].
  unfold action_map. cbn [dict_get].
  repeat match goal with
         | |- context [if ?b then _ else _] => destruct b
         end;
    try (repeat split; discriminate).
  apply by_keywords_range.
Qed.

(** Every node of the result was returned by [convert_intent_to_ast]
    for one of the intents. *)
Lemma converted_nodes_origin (intents : list IntentObj) :
  Forall
    (fun node =>
       exists (o : IntentObj) (s : t),
         In o intents /\ convert_intent_to_ast s o = (Some node, s))
    (ASTConverter.ast_nodes (fold_left convert_step intents (mkConverter [] [] []))).
Proof.
  induction intents as [|o pre IH] using rev_ind; [constructor|].
  rewrite fold_left_app. cbn [fold_left].
  set (self := fold_left convert_step pre (mkConverter [] [] [])) in *.
  assert (W : Forall
                (fun node =>
                   exists (o' : IntentObj) (s : t),
                     In o' (pre ++ [o]) /\ convert_intent_to_ast s o' = (Some node, s))
                (ASTConverter.ast_nodes self)).
  { eapply Forall_impl; [|exact IH]. cbv beta.
    intros node (o' & s & I & E). exists o', s. split; [|exact E].
    apply in_or_app. now left. }
  unfold convert_step.
  pose proof (convert_cases self o) as C.
  destruct (convert_intent_to_ast self o) as [[node|] self'] eqn:E.
  - destruct C as (-> & _). cbn [ASTConverter.ast_nodes]. unfold append.
    apply Forall_app. split; [exact W|]. constructor; [|constructor].
    exists o, self. split; [|exact E]. apply in_or_app. right. now left.
  - destruct C as (An & _). now rewrite An.
Qed.

(** X27. The action types that the converter produces.
    [_determine_action_type] never answers keyboard or screenshot, and it
    answers press only for a text with the word press in it; a context
    event gives navigate or wait.  So no node of the converter has the
    keyboard or the screenshot type, and the two blocks that the emitter
    has for them are never written for a converter's node. *)
Theorem converter_action_types :
  (forall intent event_type : string,
      let a := _determine_action_type intent event_type in
      a <> KEYBOARD /\ a <> SCREENSHOT
      /\ (a = PRESS -> contains "press" (lower intent) = true))
  /\ (forall (self : t) (intents : list IntentObj),
         Forall
           (fun node =>
              action_type node <> KEYBOARD /\ action_type node <> SCREENSHOT)
           (fst (convert_all_intents_to_ast self intents))).
Proof.
  split; [exact determine_action_type_range|].
  intros self intents. unfold convert_all_intents_to_ast. cbn [fst].
  eapply Forall_impl; [|apply converted_nodes_origin]. cbv beta.
  intros node (o & s & _ & E).
  unfold convert_intent_to_ast in E.
  destruct (_is_intent_safe_for_ast o); cbn [negb] in E; [|discriminate].
  destruct (IntentValidator.ctx_event (cleaned o)).
  - destruct (_ || _); injection E as <-; split; discriminate.
  - destruct (truthy _ && negb _); [discriminate|].
    injection E as <-. cbn [action_type].
    destruct (determine_action_type_range
                (IntentValidator.intent (cleaned o))
                (IntentValidator.event_type (cleaned o))) as (A & B & _).
    now split.
Qed.

End ActionTypeFacts.

Section HintedActionFacts.
Import Py.

(** X28. An action with an id hint, from the preprocessed step to the
    emitter.  When the id is made of letters, digits, underscores and
    hyphens and the event type requires a selector and is not blank, the
    gate accepts the intent with the id selector, the converter makes a
    node with that selector and with the action type read off the intent
    text, and nothing is recorded.  The emitter then keeps the node
    unless that action type is navigate: the node of an action has no
    URL, so an action whose text makes the converter answer navigate is
    left out of the script. *)
Theorem hinted_action_reaches_emitter (p : StepsPreprocessor.PreprocessedStep)
    (v : string) (n : nat) (val : IntentValidator.t) (conv : ASTConverter.t) :
  StepsPreprocessor.is_context_event p = false ->
  StepsPreprocessor.normalized_action p <> "wait" ->
  StepsPreprocessor.eh_id (StepsPreprocessor.element_hints p) = v ->
  v <> "" ->
  Urllib.all_chars Re.ident_char v = true ->
  IntentValidator._action_requires_selector
    (StepsPreprocessor.original_event_type p) = true ->
  strip (StepsPreprocessor.original_event_type p) <> "" ->
  exists c node,
    IntentValidator.validate_single_intent val
      (Some (IntentGenerator._generate_intent_from_preprocessed p)) n
    = ((true, Some c), IntentValidator.init)
    /\ IntentValidator.selector c = Some ("#" ++ v)
    /\ ASTConverter.convert_intent_to_ast conv (converter_input p c)
       = (Some node, conv)
    /\ Ast.selector node = Some ("#" ++ v)
    /\ Ast.action_type node
       = ASTConverter._determine_action_type (IntentValidator.intent c)
           (StepsPreprocessor.original_event_type p)
    /\ node_ok node = negb (is_navigate node).
Proof.
  intros Cx Nw Hid Nv Iv Req Ev.
  assert (T : forall s, s <> "" -> nonempty s = true)
    by (intros [|a s]; [contradiction | reflexivity]).
  assert (Sel : IntentGenerator._build_selector_from_hints
                  (IntentGenerator.hints_of (StepsPreprocessor.element_hints p))
                = "#" ++ v).
  { unfold IntentGenerator._build_selector_from_hints, IntentGenerator.hints_of.
    cbn [IntentGenerator.hint_id truthy IntentGenerator.get].
    now rewrite Hid, (T _ Nv). }
  assert (V : IntentValidator._is_valid_css_selector ("#" ++ v) = true)
    by (apply sigil_selector_valid; [now left | exact Nv | exact Iv]).
  destruct (intent_text_nonblank (StepsPreprocessor.normalized_action p)
              (StepsPreprocessor.element_role p)
              (StepsPreprocessor.human_identifier p)
              (IntentGenerator.fstr (StepsPreprocessor.value p))) as (Ni & Nb).
  set (text := IntentGenerator.intent_text
                 (StepsPreprocessor.normalized_action p)
                 (StepsPreprocessor.element_role p)
                 (StepsPreprocessor.human_identifier p)
                 (IntentGenerator.fstr (StepsPreprocessor.value p))) in *.
  assert (G : IntentValidator.validate_single_intent val
                (Some (IntentGenerator._generate_intent_from_preprocessed p)) n
              = ((true,
                  Some (IntentValidator.mkIntent n
                          (StepsPreprocessor.original_event_type p)
                          (strip text) (Some ("#" ++ v))
                          (IntentGenerator.as_original_step p) false)),
                 IntentValidator.init)).
  { unfold IntentValidator.validate_single_intent,
      IntentGenerator._generate_intent_from_preprocessed.
    fold text.
    cbn [IntentValidator.io_original_step IntentValidator.io_intent
         IntentValidator.io_event_type IntentValidator.io_selector].
    unfold IntentGenerator.as_original_step at 1 2.
    cbn [IntentValidator.is_context_event IntentValidator.normalized_action].
    rewrite Cx, Sel. cbn [orb].
    destruct (String.eqb_spec (StepsPreprocessor.normalized_action p) "wait")
      as [E|_]; [contradiction|].
    rewrite (T _ Ni), (T _ Nb). cbn [negb orb String.append truthy nonempty].
    rewrite Req.
    destruct (valid_selector_nonblank _ V) as (_ & N2).
    cbn [String.append] in V, N2.
    destruct (String.eqb_spec (strip (String "#" v)) "") as [E|_];
      [rewrite E in N2; discriminate|].
    rewrite V. reflexivity. }
  eexists. eexists. split; [exact G|].
  cbn [IntentValidator.selector IntentValidator.intent].
  split; [reflexivity|].
  unfold ASTConverter.convert_intent_to_ast, ASTConverter._is_intent_safe_for_ast,
    converter_input.
  cbn [ASTConverter.cleaned IntentValidator.intent IntentValidator.event_type
       IntentValidator.selector IntentValidator.ctx_event
       IntentValidator.original_step].
  rewrite strip_idempotent, (T _ Nb), (T _ Ev).
  destruct (valid_selector_nonblank _ V) as (N1 & N2).
  rewrite N1, N2, V. cbn [negb truthy]. rewrite ?N1, ?V. cbn [negb andb].
  split; [reflexivity|].
  cbn [Ast.selector Ast.action_type].
  split; [reflexivity|]. split; [reflexivity|].
  unfold node_ok, is_navigate.
  cbn [Ast.selector Ast.action_type Ast.url].
  destruct (valid_selector_passes_emitter _ V) as (E1 & E2).
  rewrite E1, E2.
  destruct (ASTConverter._determine_action_type (strip text)
              (StepsPreprocessor.original_event_type p)); reflexivity.
Qed.

Lemma hinted_action_reaches_emitter_witness :
  let p := StepsPreprocessor.mkPre 0 "click" "button" "Go" "visible" true
             (StepsPreprocessor.mkElementHints "go" "" "" "" "" "button")
             (Some "") "https://x.test/" "STEPS_FEATURE_CLICK_EVENT" (Some "")
             false "" in
  exists c node,
    IntentValidator.validate_single_intent IntentValidator.init
      (Some (IntentGenerator._generate_intent_from_preprocessed p)) 0
    = ((true, Some c), IntentValidator.init)
    /\ IntentValidator.selector c = Some ("#" ++ "go")
    /\ ASTConverter.convert_intent_to_ast ASTConverter.init (converter_input p c)
       = (Some node, ASTConverter.init)
    /\ Ast.selector node = Some ("#" ++ "go")
    /\ Ast.action_type node
       = ASTConverter._determine_action_type (IntentValidator.intent c)
           "STEPS_FEATURE_CLICK_EVENT"
    /\ node_ok node = negb (is_navigate node).
Proof.
  intros p.
  apply (hinted_action_reaches_emitter p "go" 0 IntentValidator.init
           ASTConverter.init);
    try reflexivity; try discriminate.
Defined.

End HintedActionFacts.

(* ===================================================================== *)
(** ** Attribute selectors built from hints and the gate *)
(* ===================================================================== *)

Section AttributeSelectorFacts.
Import Py Re IntentValidator.

(** The selector that [_build_selector_from_hints] writes for a name, a
    test id or an aria label: the attribute and the value between single
    quotes, in square brackets. *)
Definition attribute_selector (attr v : string) : string :=
  "[" ++ attr ++ "='" ++ v ++ "']".

(** A value that the grammar check lets through inside such a selector:
    no angle bracket, no line break, no two whitespace characters side
    by side, and as many opening as closing brackets of either kind. *)
Definition plain_value (v : string) : Prop :=
  has (one_of "<>") v = false
  /\ has (fun c => (code c =? 10) || (code c =? 13)) v = false
  /\ double_space v = false
  /\ count "[" v = count "]" v
  /\ count "(" v = count ")" v.

Lemma count_app (c : ascii) (a b : string) :
  count c (a ++ b) = count c a + count c b.
Proof.
  induction a as [|x a IH]; [reflexivity|].
  cbn [String.append count]. rewrite IH. lia.
Qed.

Lemma ident_plain (c : ascii) :
  ident_char c = true ->
  isspace c = false /\ one_of "{}()>" c = false /\ one_of "<>" c = false
  /\ ((code c =? 10) || (code c =? 13)) = false
  /\ Ascii.eqb "[" c = false /\ Ascii.eqb "]" c = false
  /\ Ascii.eqb "(" c = false /\ Ascii.eqb ")" c = false.
Proof.
  intros H. apply name_char_plain. unfold name_char. now rewrite H.
Qed.

Lemma no_space_no_double (t : string) :
  has isspace t = false -> double_space t = false.
Proof.
  induction t as [|c t IH]; [reflexivity|].
  cbn [has]. rewrite orb_false_iff. intros [Hc Ht].
  cbn [double_space]. destruct t as [|d t']; [reflexivity|].
  now rewrite Hc, (IH Ht).
Qed.

Lemma double_space_cons (c : ascii) (u : string) :
  isspace c = false -> double_space (String c u) = double_space u.
Proof.
  intros H. cbn [double_space]. destruct u as [|d u']; [reflexivity|].
  now rewrite H.
Qed.

Lemma double_space_app_nonspace (t : string) (c : ascii) (u : string) :
  isspace c = false ->
  double_space (t ++ String c u) = double_space t || double_space u.
Proof.
  intros H. induction t as [|a t IH].
  - cbn [String.append]. now rewrite double_space_cons.
  - destruct t as [|d t'].
    + change (double_space (String a "" ++ String c u))
        with ((isspace a && isspace c) || double_space (String c u)).
      rewrite H, andb_false_r, double_space_cons by exact H. reflexivity.
    + change (double_space ((String a (String d t')) ++ String c u))
        with ((isspace a && isspace d)
              || double_space ((String d t') ++ String c u)).
      rewrite IH.
      change (double_space (String a (String d t')))
        with ((isspace a && isspace d) || double_space (String d t')).
      now rewrite orb_assoc.
Qed.

Lemma double_space_app_r (p t : string) :
  double_space t = true -> double_space (p ++ t) = true.
Proof.
  intros H. induction p as [|c p IH]; [exact H|].
  cbn [String.append double_space].
  destruct (p ++ t) as [|d r]; [discriminate IH|].
  rewrite IH. apply orb_true_r.
Qed.

(** The search for two whitespace characters in a row. *)
Lemma double_space_search (s : string) :
  search_from (Pat false (Cat ws (Cat ws (Star ws))) false) s = double_space s.
Proof.
  apply eq_true_iff_eq. split; [|apply double_space_found].
  intros H. apply search_from_spec in H.
  destruct H as (p & a & b & -> & Ha & _). cbn [body] in Ha.
  apply matches_cat_inv in Ha. destruct Ha as (a1 & r1 & -> & H1 & Ha).
  apply matches_cat_inv in Ha. destruct Ha as (a2 & r2 & -> & H2 & _).
  apply matches_chr_inv in H1. destruct H1 as (c1 & -> & S1).
  apply matches_chr_inv in H2. destruct H2 as (c2 & -> & S2).
  apply double_space_app_r. cbn [String.append double_space].
  now rewrite S1, S2.
Qed.

(** The last character of a string. *)
Fixpoint last_char (s : string) : option ascii :=
  match s with
  | EmptyString => None
  | String c EmptyString => Some c
  | String _ s' => last_char s'
  end.

Lemma last_char_app (p : string) (c : ascii) (b : string) :
  last_char (p ++ String c b) = last_char (String c b).
Proof.
  induction p as [|a p IH]; [reflexivity|].
  cbn [String.append]. destruct (p ++ String c b) eqn:E.
  - destruct p; discriminate E.
  - cbn [last_char]. exact IH.
Qed.

(** A bracket that is the end of the text: not found in a text that
    ends with another character that is no line feed. *)
Lemma no_bracket_at_end (s : string) (e : ascii) :
  last_char s = Some e -> one_of "{}()>" e = false -> (code e =? 10) = false ->
  search_from (Pat false (Chr (one_of "{}()>")) true) s = false.
Proof.
  intros L Ne Nn. apply not_true_is_false. intros H.
  apply search_from_spec in H.
  destruct H as (p & a & b & -> & Ha & Hb). cbn [body] in Ha.
  apply matches_chr_inv in Ha. destruct Ha as (c & -> & Hc).
  unfold stop_ok in Hb. cbn [eol] in Hb.
  cbn [String.append] in L. rewrite last_char_app in L.
  destruct b as [|d [|d' b]]; cbn [at_dollar] in Hb; try discriminate.
  - cbn [last_char] in L. injection L as <-. congruence.
  - cbn [last_char] in L. injection L as <-. congruence.
Qed.

Section OneAttribute.
Variable attr : string.
Hypothesis attr_nonempty : attr <> "".
Hypothesis attr_ident : Urllib.all_chars ident_char attr = true.

Lemma has_attr (f : ascii -> bool) :
  (forall c, ident_char c = true -> f c = false) -> has f attr = false.
Proof. intros I. now apply has_none with (g := ident_char). Qed.

Lemma has_selector (f : ascii -> bool) (v : string) :
  (forall c, ident_char c = true -> f c = false) ->
  has f (attribute_selector attr v)
  = f "["%char || f "="%char || f "'"%char || has f v || f "]"%char.
Proof.
  intros I. unfold attribute_selector.
  cbn [String.append has]. rewrite has_app. rewrite (has_attr f I).
  cbn [String.append has orb]. rewrite has_app. cbn [has].
  destruct (f "["%char), (f "="%char), (f "'"%char), (has f v), (f "]"%char);
    reflexivity.
Qed.

Lemma count_selector (c : ascii) (v : string) :
  Ascii.eqb c "=" = false -> Ascii.eqb c "'" = false ->
  (forall x, ident_char x = true -> Ascii.eqb c x = false) ->
  count c (attribute_selector attr v)
  = (if Ascii.eqb c "[" then 1 else 0) + count c v
    + (if Ascii.eqb c "]" then 1 else 0).
Proof.
  intros E1 E2 I. unfold attribute_selector.
  cbn [String.append count]. rewrite count_app.
  rewrite (count_none c attr (has_attr _ I)).
  cbn [String.append count]. rewrite count_app. cbn [count].
  rewrite !(Ascii.eqb_sym _ c), E1, E2. lia.
Qed.

Lemma selector_head (v : string) :
  exists a rest,
    attribute_selector attr v = String "[" (String a rest)
    /\ ident_char a = true.
Proof.
  unfold attribute_selector. destruct attr as [|a r]; [contradiction|].
  cbn [Urllib.all_chars] in attr_ident.
  apply andb_true_iff in attr_ident. destruct attr_ident as [Ha _].
  exists a, (r ++ "='" ++ v ++ "']"). now split.
Qed.

Lemma selector_snoc (v : string) :
  attribute_selector attr v
  = ("[" ++ attr ++ "='" ++ v ++ "'") ++ String "]" "".
Proof.
  unfold attribute_selector.
  repeat (rewrite ?append_assoc; cbn [String.append]). reflexivity.
Qed.

Lemma selector_split (v : string) :
  attribute_selector attr v
  = ("[" ++ attr ++ "=") ++ String "'" (v ++ String "'" "]").
Proof.
  unfold attribute_selector.
  repeat (rewrite ?append_assoc; cbn [String.append]). reflexivity.
Qed.

Lemma selector_strip (v : string) :
  strip (attribute_selector attr v) = attribute_selector attr v.
Proof.
  assert (L : lstrip (attribute_selector attr v) = attribute_selector attr v)
    by reflexivity.
  unfold strip. rewrite L, selector_snoc.
  apply rstrip_end; reflexivity.
Qed.

Lemma selector_last (v : string) :
  last_char (attribute_selector attr v) = Some "]"%char.
Proof. now rewrite selector_snoc, last_char_app. Qed.

Lemma selector_double_space (v : string) :
  double_space (attribute_selector attr v) = double_space v.
Proof.
  rewrite selector_split.
  rewrite double_space_app_nonspace by reflexivity.
  rewrite double_space_app_nonspace by reflexivity.
  rewrite no_space_no_double; [now rewrite orb_false_r|].
  cbn [String.append has]. rewrite has_app.
  rewrite (has_attr isspace (fun c H => proj1 (ident_plain c H))).
  reflexivity.
Qed.

(** The expression of the attribute shape takes the whole selector when
    the value has no line feed. *)
Lemma selector_shape (v : string) :
  has (fun c => (code c =? 10) || (code c =? 13)) v = false ->
  re_match attribute_shape (attribute_selector attr v) = true.
Proof.
  intros H. unfold re_match. apply match_here_spec.
  exists (attribute_selector attr v), "". split; [now rewrite append_nil_r|].
  split; [|reflexivity]. cbn [body attribute_shape]. unfold attribute_selector.
  change ("[" ++ attr ++ "='" ++ v ++ "']")
    with (String "[" "" ++ (attr ++ ("='" ++ v ++ "']"))).
  constructor; [constructor; reflexivity|].
  constructor; [now apply matches_plus_class|].
  assert (Q : "='" ++ v ++ "']" = ("='" ++ v ++ "'") ++ String "]" "").
  { repeat (rewrite ?append_assoc; cbn [String.append]). reflexivity. }
  rewrite Q.
  constructor; [|constructor; reflexivity].
  apply matches_star_class. cbn [String.append Urllib.all_chars].
  assert (A : forall w u,
             Urllib.all_chars (fun c => negb (code c =? 10)) (w ++ u)
             = Urllib.all_chars (fun c => negb (code c =? 10)) w
               && Urllib.all_chars (fun c => negb (code c =? 10)) u).
  { intros w. induction w as [|x w IH]; intros u; [reflexivity|].
    cbn [String.append Urllib.all_chars]. now rewrite IH, andb_assoc. }
  rewrite A. cbn [Urllib.all_chars].
  assert (B : Urllib.all_chars (fun c => negb (code c =? 10)) v = true).
  { clear -H. induction v as [|x v IH]; [reflexivity|].
    cbn [has] in H. apply orb_false_iff in H. destruct H as [Hx Hv].
    apply orb_false_iff in Hx. destruct Hx as [Hx _].
    cbn [Urllib.all_chars]. now rewrite Hx, (IH Hv). }
  rewrite B. reflexivity.
Qed.

(** The grammar check on such a selector comes down to the value. *)
Lemma attribute_selector_valid_iff (v : string) :
  _is_valid_css_selector (attribute_selector attr v) = true <-> plain_value v.
Proof.
  set (s := attribute_selector attr v).
  destruct (selector_head v) as (a & rest & Hs & Ha). fold s in Hs.
  assert (Ia : forall f, (forall c, ident_char c = true -> f c = false) ->
                         f a = false) by (intros f I; now apply I).
  assert (V0 : _is_valid_css_selector s = valid_stripped s).
  { unfold _is_valid_css_selector. unfold s at 1. rewrite Hs. cbn [nonempty negb].
    rewrite <- Hs. fold s. unfold s. now rewrite selector_strip. }
  rewrite V0.
  (* the tests that look at the value *)
  assert (P5 : re_search (Pat false (Cat ws (Cat ws (Star ws))) false) s
               = double_space v).
  { unfold re_search. cbn [bol]. rewrite double_space_search.
    apply selector_double_space. }
  assert (P6 : re_search (Pat false (Chr (one_of "<>")) false) s
               = has (one_of "<>") v).
  { unfold re_search. cbn [bol]. rewrite search_class. unfold s.
    rewrite has_selector by (intros c H; apply (ident_plain c H)).
    cbn. now rewrite orb_false_r. }
  assert (P7 : re_search
                 (Pat false (Chr (fun c => (code c =? 10) || (code c =? 13))) false) s
               = has (fun c => (code c =? 10) || (code c =? 13)) v).
  { unfold re_search. cbn [bol]. rewrite search_class. unfold s.
    rewrite has_selector by (intros c H; apply (ident_plain c H)).
    cbn. now rewrite orb_false_r. }
  (* the tests that the brackets around the value settle *)
  assert (F : forall p f, bol p = true -> head_class (body p) = Some f ->
                          f "["%char = false -> re_search p s = false).
  { intros p f Hb E N. unfold re_search. rewrite Hb, Hs.
    now apply first_char_rejects with (f := f). }
  assert (P0 : re_search (Pat true (Star ws) true) s = false).
  { apply not_true_is_false. unfold re_search. cbn [bol body].
    rewrite match_here_spec. intros (x & b & E & Hx & Hb).
    apply star_class_matches in Hx. destruct x as [|c x].
    - cbn [String.append] in E. subst b. rewrite Hs in Hb. discriminate Hb.
    - rewrite Hs in E. injection E as <- _. discriminate Hx. }
  assert (P1 : re_search (Pat true (Cat (lit "[") (lit "]")) false) s = false).
  { apply not_true_is_false. unfold re_search. cbn [bol body].
    rewrite match_here_spec. intros (x & b & E & Hx & _).
    apply matches_cat_inv in Hx. destruct Hx as (x1 & x2 & -> & H1 & H2).
    apply matches_chr_inv in H1. destruct H1 as (c1 & -> & _).
    apply matches_chr_inv in H2. destruct H2 as (c2 & -> & E2).
    rewrite Hs in E. cbn [String.append] in E. injection E as _ <- _.
    apply Ascii.eqb_eq in E2. subst a. discriminate Ha. }
  assert (P2 : re_search (Pat true (Cat (lit "(") (lit ")")) true) s = false)
    by (apply (F _ (Ascii.eqb "(")); reflexivity).
  assert (P3 : re_search (Pat true (Chr (one_of "{}()>")) false) s = false)
    by (apply (F _ (one_of "{}()>")); reflexivity).
  assert (P4 : re_search (Pat false (Chr (one_of "{}()>")) true) s = false).
  { unfold re_search. cbn [bol].
    apply (no_bracket_at_end s "]"); [apply selector_last | reflexivity..]. }
  assert (P8 : re_search
                 (Pat true (Cat (lit ">") (Cat (Star ws) (Chr isword))) false) s
               = false)
    by (apply (F _ (Ascii.eqb ">")); reflexivity).
  assert (Inv : existsb (fun p => re_search p s) invalid_patterns
                = double_space v || has (one_of "<>") v
                  || has (fun c => (code c =? 10) || (code c =? 13)) v).
  { unfold invalid_patterns. cbn [existsb].
    rewrite P0, P1, P2, P3, P4, P5, P6, P7, P8. cbn [orb].
    now rewrite !orb_false_r, !orb_assoc. }
  assert (Cb : count "[" s = S (count "[" v) /\ count "]" s = S (count "]" v)
               /\ count "(" s = count "(" v /\ count ")" s = count ")" v).
  { unfold s.
    rewrite !count_selector;
      try reflexivity; try (intros x H; apply (ident_plain x H)).
    cbn. repeat split; lia. }
  destruct Cb as (C1 & C2 & C3 & C4).
  assert (E : re_match element_then_gt s = false).
  { unfold re_match. rewrite Hs.
    apply first_char_rejects with (f := is_ascii_letter); reflexivity. }
  assert (St : existsb (fun p => re_match p s) valid_start_patterns = true).
  { assert (A : forall f u,
               re_match (Pat true (Chr f) false) u
               = match u with String c _ => f c | EmptyString => false end)
      by (intros; apply anchored_class).
    unfold valid_start_patterns, lit, letter. cbn [existsb].
    rewrite !A, Hs. reflexivity. }
  assert (Sh : shape_ok s = re_match attribute_shape s).
  { unfold shape_ok. rewrite Hs. reflexivity. }
  assert (L : (String.length s =? 0) = false) by (now rewrite Hs).
  unfold valid_stripped. rewrite L, Inv, C1, C2, C3, C4, E, St, Sh.
  cbn [negb Nat.eqb]. unfold plain_value.
  split.
  - intros H.
    destruct (double_space v); [discriminate|].
    destruct (has (one_of "<>") v); [discriminate|].
    destruct (has (fun c => (code c =? 10) || (code c =? 13)) v);
      [discriminate|].
    cbn [orb] in H.
    destruct (count "[" v =? count "]" v) eqn:B1; [|discriminate].
    destruct (count "(" v =? count ")" v) eqn:B2; [|discriminate].
    apply Nat.eqb_eq in B1, B2. now repeat split.
  - intros (H1 & H2 & H3 & H4 & H5).
    rewrite H1, H2, H3, H4, H5, !Nat.eqb_refl. cbn [orb negb].
    now apply selector_shape.
Qed.

End OneAttribute.

(** X29. The attribute selectors of the selector policy and the gate.  A
    selector that [_build_selector_from_hints] writes for a name, a test
    id or an aria label passes [_is_valid_css_selector] exactly when the
    value has no angle bracket, no line break, no two whitespace
    characters side by side and as many opening as closing square
    brackets and parentheses. *)
Theorem attribute_selectors_and_gate (v : string) :
  (_is_valid_css_selector ("[name='" ++ v ++ "']") = true <-> plain_value v)
  /\ (_is_valid_css_selector ("[data-testid='" ++ v ++ "']") = true
      <-> plain_value v)
  /\ (_is_valid_css_selector ("[aria-label='" ++ v ++ "']") = true
      <-> plain_value v).
Proof.
  split; [|split].
  - apply (attribute_selector_valid_iff "name"); [discriminate | reflexivity].
  - apply (attribute_selector_valid_iff "data-testid");
      [discriminate | reflexivity].
  - apply (attribute_selector_valid_iff "aria-label");
      [discriminate | reflexivity].
Qed.

End AttributeSelectorFacts.

(* ===================================================================== *)
(** ** The two extractors that read the markup *)
(* ===================================================================== *)

Section MarkupExtractorFacts.
Import Py.

Lemma strip_result_head (x : string) (c : ascii) (r : string) :
  strip x = String c r -> isspace c = false.
Proof.
  unfold strip. destruct (lstrip_head x) as [E | (d & u & E & Hd)]; rewrite E.
  - discriminate.
  - destruct (rstrip_keeps_head d u Hd) as (w & ->). now intros [= <- _].
Qed.

Lemma strip_app_nonblank (x y : string) :
  strip (strip x ++ String "[" y) <> "".
Proof.
  destruct (strip x) as [|c r] eqn:E.
  - now apply strip_head_nonblank.
  - cbn [String.append]. apply strip_head_nonblank.
    now apply (strip_result_head x c r).
Qed.

Lemma present_nonblank (v : string) :
  IntentValidator.present v = true -> strip v <> "".
Proof.
  unfold IntentValidator.present. rewrite andb_true_iff. intros [_ H] E.
  now rewrite E in H.
Qed.

Lemma stable_selector_nonblank (step : IntentValidator.Step) (s : string) :
  IntentValidator._extract_stable_selector step = Some s -> strip s <> "".
Proof.
  unfold IntentValidator._extract_stable_selector.
  destruct (nonempty (IntentValidator.eventElement step)); cbn [negb];
    [|discriminate].
  set (h := IntentValidator.eventElement step).
  unfold IntentValidator.first_some, IntentValidator.try_id,
    IntentValidator.try_testid, IntentValidator.try_name,
    IntentValidator.try_aria_label, IntentValidator.try_class,
    IntentValidator.try_tag.
  repeat match goal with
         | |- context [if ?b then _ else _] =>
             let E := fresh "E" in destruct b eqn:E
         | |- context [match split_ws ?x with _ => _ end] =>
             destruct (split_ws x)
         | |- context [match IntentValidator.tag_match ?x with _ => _ end] =>
             destruct (IntentValidator.tag_match x)
         end;
    try discriminate;
    intros [= <-];
    try (cbn [String.append]; now apply strip_head_nonblank).
  all: now apply present_nonblank.
Qed.

Lemma cut_tag_strip (h : string) :
  strip (ASTConverter.cut_tag h) = ASTConverter.cut_tag h.
Proof. unfold ASTConverter.cut_tag. cbv zeta. apply strip_idempotent. Qed.

Lemma converter_selector_cases (step : IntentValidator.Step) :
  match ASTConverter._extract_selector step with
  | None => IntentValidator.eventElement step = ""
  | Some s => IntentValidator.eventElement step <> "" /\ strip s <> ""
  end.
Proof.
  unfold ASTConverter._extract_selector.
  destruct (IntentValidator.eventElement step) as [|c0 h0] eqn:Eh;
    cbn [nonempty negb]; [reflexivity|].
  set (h := String c0 h0).
  unfold IntentValidator.first_some.
  repeat match goal with
         | |- context [if ?b then _ else _] =>
             let E := fresh "E" in destruct b eqn:E
         | |- context [match split_ws ?x with _ => _ end] =>
             destruct (split_ws x)
         end;
    (split; [discriminate|]);
    try (cbn [String.append]; now apply strip_head_nonblank);
    try (unfold ASTConverter.cut_tag; cbv zeta; now apply strip_app_nonblank).
  all: try (rewrite cut_tag_strip; intros Z;
            match goal with
            | E : nonempty (ASTConverter.cut_tag _) = true |- _ =>
                rewrite Z in E; discriminate E
            end).
  all: try (vm_compute; discriminate).
Qed.

(** X30. The two extractors that cut a selector out of the markup never
    hand out a blank one.  What [_extract_stable_selector] of the gate
    returns is not blank, so the gate's test for an empty selector can
    only fire on a selector that came with the intent or on none at all;
    and [_extract_selector] of the converter returns no selector for
    the empty markup only, and otherwise one that is not blank. *)
Theorem markup_extractors_never_blank (step : IntentValidator.Step) :
  match IntentValidator._extract_stable_selector step with
  | Some s => strip s <> ""
  | None => True
  end
  /\ match ASTConverter._extract_selector step with
     | None => IntentValidator.eventElement step = ""
     | Some s => IntentValidator.eventElement step <> "" /\ strip s <> ""
     end.
Proof.
  split; [|apply converter_selector_cases].
  destruct (IntentValidator._extract_stable_selector step) as [s|] eqn:E;
    [|exact I].
  now apply (stable_selector_nonblank step).
Qed.

End MarkupExtractorFacts.
